(** * Cross-chain NFT bridge: the ledger contract, the bridge script,
      the browser-side watch, the listing cache and the deployment reconciler.

    The development follows the sources:
    - [contracts/MyNFT.sol]      : modules [Solidity], [Base64], [Json],
                                   [MyNFT], [Ledger], [History], [Network],
                                   [Enumerable], [Provenance], [EventLog];
    - [scripts/bridge.js]        : modules [BridgeScript], [ListScript],
                                   [Schedule];
    - [frontend BridgeModal.jsx] : modules [BridgeModal], [BridgeForm],
                                   [SourceConfirm], [Schedule];
    - [frontend utils/nfts.js]   : modules [NftCache], [NftList], [Debounce];
    - [frontend utils/blockchain.js] : module [Blockchain];
    - [frontend App.jsx]         : module [App];
    - [scripts/deploy.js]        : module [Reconciler].
    The definitions come first, the properties after them.

    Unsigned 256-bit integers and addresses are [Z] with the range checks of
    Solidity 0.8 written out; mappings are [gmap]s whose missing keys read as
    the zero value; a reverting call is an explicit [Revert] result. The
    JavaScript parts are modelled at the level of their handlers: what a
    timer callback or the continuation of an [await] does to the closure it
    belongs to, the runtime deciding in which order they run. *)

From Stdlib Require Import ZArith String Ascii DecimalString List Lia.
From Stdlib Require DecimalN HexadecimalString HexadecimalN HexadecimalPos.
From stdpp Require Import gmap strings list fin_maps.

Open Scope Z_scope.

(** ** Solidity values and the transaction monad *)

Module Solidity.

Definition uint256_max : Z := 2 ^ 256 - 1.

Definition address := Z.
Definition address0 : address := 0.

(** [Strings.toString]: the decimal digits of an unsigned integer. *)
Definition toString (v : Z) : string :=
  NilZero.string_of_uint (N.to_uint (Z.to_N v)).

Section Monad.
Context {S : Type}.

(** The result of running contract code on a storage: either a value and
    the new storage, or a revert carrying the reason string. *)
Inductive result (A : Type) : Type :=
| Ok (a : A) (s : S)
| Revert (reason : string).
Global Arguments Ok {A} a s.
Global Arguments Revert {A} reason.

Definition EVM (A : Type) : Type := S -> result A.

Definition ret {A} (a : A) : EVM A := fun s => Ok a s.

Definition bind {A B} (m : EVM A) (k : A -> EVM B) : EVM B :=
  fun s => match m s with
           | Ok a s' => k a s'
           | Revert r => Revert r
           end.

Definition gets {A} (f : S -> A) : EVM A := fun s => Ok (f s) s.

Definition modify (f : S -> S) : EVM unit := fun s => Ok tt (f s).

Definition revert {A} (reason : string) : EVM A := fun _ => Revert reason.

Definition require (c : bool) (reason : string) : EVM unit :=
  if c then ret tt else revert reason.

(** A transaction is all-or-nothing: a revert anywhere in the call
    leaves the storage it started from. *)
Definition transact {A} (m : EVM A) (s : S) : S * option A :=
  match m s with
  | Ok a s' => (s', Some a)
  | Revert _ => (s, None)
  end.

Definition succeeds {A} (m : EVM A) (s : S) : bool :=
  match m s with Ok _ _ => true | Revert _ => false end.

End Monad.

Arguments result : clear implicits.
Arguments EVM : clear implicits.

(** Checked arithmetic of Solidity >= 0.8: overflow reverts (a panic). *)
Definition checked_add {S} (a b : Z) : EVM S Z :=
  if a + b <=? uint256_max then ret (a + b) else revert "panic: arithmetic overflow".

Definition checked_mul {S} (a b : Z) : EVM S Z :=
  if a * b <=? uint256_max then ret (a * b) else revert "panic: arithmetic overflow".

End Solidity.

Import Solidity.

Notation "'let*' x ':=' m 'in' k" := (bind m (fun x => k))
  (at level 10, x name, m at level 100, k at level 200, only parsing).

(** ** [Base64.encode] and JSON text *)

Module Base64.


Definition _TABLE : string :=
  "ABCDEFGHIJKLMNOPQRSTUVWXYZabcdefghijklmnopqrstuvwxyz0123456789+/".

Definition byte (c : ascii) : Z := Z.of_N (N_of_ascii c).
Definition chr (z : Z) : ascii := ascii_of_N (Z.to_N z).

(** The character of the table at index [i]. *)
Definition table_char (i : Z) : ascii :=
  match String.get (Z.to_nat i) _TABLE with
  | Some c => c
  | None => "="%char
  end.

(** [Base64.encode]: three bytes give four characters of the table; a
    final group of one or two bytes is padded with "=". *)
Fixpoint encode (data : string) : string :=
  match data with
  | EmptyString => EmptyString
  | String a EmptyString =>
      let n := byte a * 65536 in
      String (table_char (n / 262144))
        (String (table_char (n / 4096 mod 64)) "==")
  | String a (String b EmptyString) =>
      let n := byte a * 65536 + byte b * 256 in
      String (table_char (n / 262144))
        (String (table_char (n / 4096 mod 64))
           (String (table_char (n / 64 mod 64)) "="))
  | String a (String b (String c rest)) =>
      let n := byte a * 65536 + byte b * 256 + byte c in
      String (table_char (n / 262144))
        (String (table_char (n / 4096 mod 64))
           (String (table_char (n / 64 mod 64))
              (String (table_char (n mod 64)) (encode rest))))
  end.

(** The index of a character in the table. *)
Definition table_index (c : ascii) : option Z :=
  let n := byte c in
  if (65 <=? n) && (n <=? 90) then Some (n - 65)
  else if (97 <=? n) && (n <=? 122) then Some (n - 71)
  else if (48 <=? n) && (n <=? 57) then Some (n + 4)
  else if n =? 43 then Some 62
  else if n =? 47 then Some 63
  else None.

Definition is_pad (c : ascii) : bool := byte c =? 61.

(** The standard decoder, used to state that [encode] loses nothing. *)
Fixpoint decode (s : string) : option string :=
  match s with
  | EmptyString => Some EmptyString
  | String c1 (String c2 (String c3 (String c4 rest))) =>
      match table_index c1, table_index c2 with
      | Some s1, Some s2 =>
          if is_pad c4 then
            match rest with
            | EmptyString =>
                if is_pad c3 then
                  Some (String (chr ((s1 * 64 + s2) / 16)) EmptyString)
                else
                  match table_index c3 with
                  | Some s3 =>
                      let m := (s1 * 64 + s2) * 64 + s3 in
                      Some (String (chr (m / 1024)) (String (chr (m / 4 mod 256)) EmptyString))
                  | None => None
                  end
            | _ => None
            end
          else
            match table_index c3, table_index c4, decode rest with
            | Some s3, Some s4, Some tail =>
                let m := ((s1 * 64 + s2) * 64 + s3) * 64 + s4 in
                Some (String (chr (m / 65536))
                        (String (chr (m / 256 mod 256))
                           (String (chr (m mod 256)) tail)))
            | _, _, _ => None
            end
      | _, _ => None
      end
  | _ => None
  end.

End Base64.

Module Json.

(** The double quote, and a literal with ['] standing for it, so that the
    string constants of the contract can be written down as they are. *)
Definition dq : ascii := ascii_of_nat 34.
Definition backslash : ascii := ascii_of_nat 92.

Fixpoint js (s : string) : string :=
  match s with
  | EmptyString => EmptyString
  | String c s' => String (if Ascii.eqb c "'" then dq else c) (js s')
  end.

Local Unset Elimination Schemes.

Inductive value : Type :=
| Str (s : string)
| Arr (items : list value)
| Obj (fields : list (string * value)).

Local Set Elimination Schemes.

Definition hex_digit (n : Z) : ascii :=
  if n <? 10 then Base64.chr (48 + n) else Base64.chr (87 + n).

(** The escape of one character inside a JSON string. *)
Definition escape_char (c : ascii) : string :=
  if Ascii.eqb c dq then String backslash (String dq EmptyString)
  else if Ascii.eqb c backslash then String backslash (String backslash EmptyString)
  else if Base64.byte c <? 32
       then String backslash
              ("u00" +:+ String (hex_digit (Base64.byte c / 16))
                      (String (hex_digit (Base64.byte c mod 16)) EmptyString))
       else String c EmptyString.

Fixpoint escape (s : string) : string :=
  match s with
  | EmptyString => EmptyString
  | String c s' => escape_char c +:+ escape s'
  end.

Definition quoted (s : string) : string :=
  String dq (escape s +:+ String dq EmptyString).

Fixpoint join (sep : string) (l : list string) : string :=
  match l with
  | [] => EmptyString
  | [x] => x
  | x :: rest => x +:+ sep +:+ join sep rest
  end.

(** The compact text of a JSON value. *)
Fixpoint render (v : value) : string :=
  match v with
  | Str s => quoted s
  | Arr items => "[" +:+ join "," (map render items) +:+ "]"
  | Obj fields =>
      "{" +:+ join "," (map (fun kv => quoted (fst kv) +:+ ":" +:+ render (snd kv)) fields)
          +:+ "}"
  end.

(** A character that a JSON string holds as it is. *)
Definition plain_char (c : ascii) : bool :=
  negb (Ascii.eqb c dq) && negb (Ascii.eqb c backslash) && negb (Base64.byte c <? 32).

Fixpoint plain (s : string) : bool :=
  match s with
  | EmptyString => true
  | String c s' => plain_char c && plain s'
  end.

End Json.


(** ** The ledger contract, [contracts/MyNFT.sol] *)

Module MyNFT.

(** [struct NFTMetadata] *)
Record NFTMetadata : Type := mkMetadata {
  name : string;
  description : string;
  image : string;
  chainId : Z;
  mintedAt : Z
}.

(** The value a mapping returns for a key never written. *)
Definition empty_metadata : NFTMetadata :=
  mkMetadata EmptyString EmptyString EmptyString 0 0.

Inductive Event : Type :=
| Transfer (from to tokenId : Z)
| NFTMinted (owner tokenId : Z)
| NFTBridged (owner tokenId destChainId recipient : Z)
| NFTReceived (recipient tokenId sourceChainId : Z).

(** The argument of [abi.encode(_recipient, _nftId, metadata)]. The
    encoding is kept as the typed triple: [abi.decode] of an encoded
    triple gives the triple back. *)
Record Payload : Type := mkPayload {
  p_recipient : address;
  p_nftId : Z;
  p_metadata : NFTMetadata
}.

(** A message handed to the messaging gateway. *)
Record Packet : Type := mkPacket {
  pk_source : Z;
  pk_dest : Z;
  pk_data : Payload
}.

(** The state of one network as far as the contract reads or writes it:
    the chain id, the ERC721 storage, the contract's own storage, the
    peer table of [MessageClient], and the two append-only logs a
    transaction leaves on its chain (events, and the messages accepted by
    the gateway). The index tables of [ERC721Enumerable], which only the
    listing queries read, are left out. *)
Record State : Type := mkState {
  block_chainid : Z;
  _owners : gmap Z address;
  _balances : gmap address Z;
  nextNftId : Z;
  _tokenMetadata : gmap Z NFTMetadata;
  CHAINS : gmap Z address;
  MESSAGE_OWNER : address;
  events : list Event;
  outbox : list Packet
}.

Definition set_owners (f : gmap Z address -> gmap Z address) (s : State) : State :=
  mkState (block_chainid s) (f (_owners s)) (_balances s) (nextNftId s)
          (_tokenMetadata s) (CHAINS s) (MESSAGE_OWNER s) (events s) (outbox s).

Definition set_balances (f : gmap address Z -> gmap address Z) (s : State) : State :=
  mkState (block_chainid s) (_owners s) (f (_balances s)) (nextNftId s)
          (_tokenMetadata s) (CHAINS s) (MESSAGE_OWNER s) (events s) (outbox s).

Definition set_nextNftId (n : Z) (s : State) : State :=
  mkState (block_chainid s) (_owners s) (_balances s) n
          (_tokenMetadata s) (CHAINS s) (MESSAGE_OWNER s) (events s) (outbox s).

Definition set_tokenMetadata (tokenId : Z) (md : NFTMetadata) (s : State) : State :=
  mkState (block_chainid s) (_owners s) (_balances s) (nextNftId s)
          (<[tokenId := md]> (_tokenMetadata s)) (CHAINS s) (MESSAGE_OWNER s)
          (events s) (outbox s).

Definition set_chain (chain : Z) (endpoint : address) (s : State) : State :=
  mkState (block_chainid s) (_owners s) (_balances s) (nextNftId s)
          (_tokenMetadata s) (<[chain := endpoint]> (CHAINS s)) (MESSAGE_OWNER s)
          (events s) (outbox s).

Definition push_event (e : Event) (s : State) : State :=
  mkState (block_chainid s) (_owners s) (_balances s) (nextNftId s)
          (_tokenMetadata s) (CHAINS s) (MESSAGE_OWNER s) (events s ++ [e]) (outbox s).

Definition push_packet (p : Packet) (s : State) : State :=
  mkState (block_chainid s) (_owners s) (_balances s) (nextNftId s)
          (_tokenMetadata s) (CHAINS s) (MESSAGE_OWNER s) (events s) (outbox s ++ [p]).

Definition emit (e : Event) : EVM State unit := modify (push_event e).

(** *** The inherited ERC721 base *)

(** Modelled from the spec: the ERC721 base contract is a dependency whose
    source is not part of the repository. [_ownerOf] reads the owner
    mapping, the zero address standing for "no owner". *)
Definition _ownerOf (s : State) (tokenId : Z) : address :=
  default address0 (_owners s !! tokenId).

Definition _exists (s : State) (tokenId : Z) : bool :=
  negb (_ownerOf s tokenId =? address0).

Definition balanceOf (s : State) (owner : address) : Z :=
  default 0 (_balances s !! owner).

(** Modelled from the spec: [ownerOf] of the ERC721 base; it reverts for
    an id that has no owner. *)
Definition ownerOf (tokenId : Z) : EVM State address :=
  let* owner := gets (fun s => _ownerOf s tokenId) in
  let* _ := require (negb (owner =? address0)) "ERC721: invalid token ID" in
  ret owner.

(** Modelled from the spec: [_mint] of the ERC721 base ("owner is set only
    by mint"); it rejects the zero address and an id that already exists. *)
Definition _mint (to tokenId : Z) : EVM State unit :=
  let* _ := require (negb (to =? address0)) "ERC721: mint to the zero address" in
  let* ex := gets (fun s => _exists s tokenId) in
  let* _ := require (negb ex) "ERC721: token already minted" in
  let* _ := modify (set_balances (fun b => <[to := default 0 (b !! to) + 1]> b)) in
  let* _ := modify (set_owners (fun o => <[tokenId := to]> o)) in
  emit (Transfer address0 to tokenId).

(** Modelled from the spec: [_burn] of the ERC721 base ("cleared by
    burn"); the owner entry is deleted, the contract's own metadata mapping
    is not touched. *)
Definition _burn (tokenId : Z) : EVM State unit :=
  let* owner := ownerOf tokenId in
  let* _ := modify (set_balances (fun b => <[owner := default 0 (b !! owner) - 1]> b)) in
  let* _ := modify (set_owners (fun o => delete tokenId o)) in
  emit (Transfer owner address0 tokenId).

(** *** The inherited messaging client *)

(** Modelled from the spec: [MessageClient] is a dependency whose source is
    not part of the repository. A destination is active ("a trusted peer")
    when an endpoint is configured for it. *)
Definition isAuthorized (s : State) (chain : Z) : bool :=
  negb (default address0 (CHAINS s !! chain) =? address0).

Definition onlyActiveChain (_destChainId : Z) : EVM State unit :=
  let* ok := gets (fun s => isAuthorized s _destChainId) in
  require ok "MessageClient: destination chain not active".

(** Modelled from the spec: [_sendMessage] hands the payload to the
    external gateway. Whether the gateway accepts the call ([accepted]) is
    outside the contract; a refusal reverts the caller. *)
Definition _sendMessage (accepted : bool) (_destChainId : Z) (data : Payload)
  : EVM State unit :=
  let* _ := require accepted "MessageV3: send failed" in
  let* src := gets block_chainid in
  modify (push_packet (mkPacket src _destChainId data)).

(** *** The contract *)

(** [constructor()], run on chain [chain] by [deployer]. *)
Definition constructor (chain : Z) (deployer : address) : result State unit :=
  (let* n := checked_mul chain (10 ^ 4) in
   modify (set_nextNftId n))
    (mkState chain ∅ ∅ 0 ∅ ∅ deployer [] []).

Definition mint_metadata (tokenId chain timestamp : Z) : NFTMetadata :=
  {| name := "Cross Chain NFT #" +:+ toString tokenId;
     description := "Cross-chain NFT that can be bridged between networks";
     image := "https://i.postimg.cc/FKkpPByb/cl-logo.png";
     chainId := chain;
     mintedAt := timestamp |}.

(** [function mint() external returns (uint256)] *)
Definition mint (msg_sender block_timestamp : Z) : EVM State Z :=
  let* tokenId := gets nextNftId in
  let* _ := _mint msg_sender tokenId in
  let* chain := gets block_chainid in
  let* _ := modify (set_tokenMetadata tokenId (mint_metadata tokenId chain block_timestamp)) in
  let* n := gets nextNftId in
  let* n' := checked_add n 1 in
  let* _ := modify (set_nextNftId n') in
  let* _ := emit (NFTMinted msg_sender tokenId) in
  ret tokenId.

Definition metadata_of (s : State) (tokenId : Z) : NFTMetadata :=
  default empty_metadata (_tokenMetadata s !! tokenId).

(** [function bridge(uint _destChainId, address _recipient, uint _nftId)
     external onlyActiveChain(_destChainId)] *)
Definition bridge (msg_sender : Z) (accepted : bool)
           (_destChainId _recipient _nftId : Z) : EVM State unit :=
  let* _ := onlyActiveChain _destChainId in
  let* owner := ownerOf _nftId in
  let* _ := require (owner =? msg_sender) "MyNFT: caller is not the owner of the NFT" in
  let* metadata := gets (fun s => metadata_of s _nftId) in
  let* _ := _burn _nftId in
  let* _ := _sendMessage accepted _destChainId (mkPayload _recipient _nftId metadata) in
  emit (NFTBridged msg_sender _nftId _destChainId _recipient).

(** [function _processMessage(uint _sourceChainId, uint, bytes calldata _data)];
    the second argument has no name in the source and is not read. *)
Definition _processMessage (_sourceChainId : Z) (_data : Payload) : EVM State unit :=
  let _recipient := p_recipient _data in
  let _nftId := p_nftId _data in
  let metadata := p_metadata _data in
  let* _ := _mint _recipient _nftId in
  let* _ := modify (set_tokenMetadata _nftId metadata) in
  emit (NFTReceived _recipient _nftId _sourceChainId).

(** Modelled from the spec: the entry point of [MessageClient] the gateway
    calls; it "must reject messages from untrusted peers" and otherwise
    runs the contract's handler. *)
Definition messageProcess (_sourceChainId : Z) (_data : Payload) : EVM State unit :=
  let* ok := gets (fun s => isAuthorized s _sourceChainId) in
  let* _ := require ok "MessageClient: not authorized" in
  _processMessage _sourceChainId _data.

(** Modelled from the spec: the peer-trust configuration call of
    [MessageClient], restricted to the message owner. *)
Definition configureClient (msg_sender : Z) (chain : Z) (endpoint : address)
  : EVM State unit :=
  let* o := gets MESSAGE_OWNER in
  let* _ := require (msg_sender =? o) "MessageClient: not authorized" in
  modify (set_chain chain endpoint).

(** [function getTokenMetadata(uint256 _tokenId)] *)
Definition getTokenMetadata (_tokenId : Z) : EVM State NFTMetadata :=
  let* ex := gets (fun s => _exists s _tokenId) in
  let* _ := require ex "MyNFT: token does not exist" in
  gets (fun s => metadata_of s _tokenId).

(** The argument of [Base64.encode] in [tokenURI]: the packed
    concatenation of the literals and the metadata fields. *)
Definition tokenURI_document (metadata : NFTMetadata) : string :=
  Json.js "{'name':'" +:+ name metadata +:+ Json.js "'," +:+
  Json.js "'description':'" +:+ description metadata +:+ Json.js "'," +:+
  Json.js "'image':'" +:+ image metadata +:+ Json.js "'," +:+
  Json.js "'attributes':[" +:+
  Json.js "{'trait_type':'Origin Chain','value':'" +:+ toString (chainId metadata) +:+
  Json.js "'}," +:+
  Json.js "{'trait_type':'Minted At','value':'" +:+ toString (mintedAt metadata) +:+
  Json.js "'}" +:+
  "]}".

(** [function tokenURI(uint256 tokenId) public view returns (string memory)] *)
Definition tokenURI (tokenId : Z) : EVM State string :=
  let* ex := gets (fun s => _exists s tokenId) in
  let* _ := require ex "ERC721Metadata: URI query for nonexistent token" in
  let* metadata := gets (fun s => metadata_of s tokenId) in
  ret ("data:application/json;base64," +:+ Base64.encode (tokenURI_document metadata)).

(** The document the specification describes: name, description, image,
    and an attributes array with the two entries "Origin Chain" and
    "Minted At", whose values are decimal strings. *)
Definition metadata_document (metadata : NFTMetadata) : Json.value :=
  Json.Obj
    [("name", Json.Str (name metadata));
     ("description", Json.Str (description metadata));
     ("image", Json.Str (image metadata));
     ("attributes",
      Json.Arr
        [Json.Obj [("trait_type", Json.Str "Origin Chain");
                   ("value", Json.Str (toString (chainId metadata)))];
         Json.Obj [("trait_type", Json.Str "Minted At");
                   ("value", Json.Str (toString (mintedAt metadata)))]])].

(** The strings of the metadata need no escaping in JSON. *)
Definition plain_metadata (metadata : NFTMetadata) : bool :=
  Json.plain (name metadata) && Json.plain (description metadata) &&
  Json.plain (image metadata).

End MyNFT.


(** ** What each call does, in closed form *)

Module Ledger.
Import MyNFT.

Ltac evm_unfold :=
  unfold mint, bridge, _processMessage, messageProcess, configureClient,
    getTokenMetadata, _mint, _burn, ownerOf, onlyActiveChain, _sendMessage,
    emit, checked_add, checked_mul, bind, ret, gets, modify, require, revert in *.

(** The storage [_mint] leaves behind when it does not revert. *)
Definition minted (to tokenId : Z) (s : State) : State :=
  push_event (Transfer address0 to tokenId)
    (set_owners (fun o => <[tokenId := to]> o)
       (set_balances (fun b => <[to := default 0 (b !! to) + 1]> b) s)).

(** The storage [_burn] leaves behind when it does not revert. *)
Definition burned (tokenId : Z) (s : State) : State :=
  let owner := _ownerOf s tokenId in
  push_event (Transfer owner address0 tokenId)
    (set_owners (fun o => delete tokenId o)
       (set_balances (fun b => <[owner := default 0 (b !! owner) - 1]> b) s)).

Definition mint_post (msg_sender block_timestamp : Z) (s : State) : State :=
  let tokenId := nextNftId s in
  push_event (NFTMinted msg_sender tokenId)
    (set_nextNftId (tokenId + 1)
       (set_tokenMetadata tokenId
          (mint_metadata tokenId (block_chainid s) block_timestamp)
          (minted msg_sender tokenId s))).

Definition bridge_post (msg_sender _destChainId _recipient _nftId : Z) (s : State)
  : State :=
  push_event (NFTBridged msg_sender _nftId _destChainId _recipient)
    (push_packet
       (mkPacket (block_chainid s) _destChainId
                 (mkPayload _recipient _nftId (metadata_of s _nftId)))
       (burned _nftId s)).

Definition process_post (_sourceChainId : Z) (_data : Payload) (s : State) : State :=
  push_event (NFTReceived (p_recipient _data) (p_nftId _data) _sourceChainId)
    (set_tokenMetadata (p_nftId _data) (p_metadata _data)
       (minted (p_recipient _data) (p_nftId _data) s)).

End Ledger.


(** ** Histories of calls on one ledger *)

Module History.
Import MyNFT Ledger.

(** The calls a deployed instance can receive. *)
Inductive Call : Type :=
| Mint (msg_sender block_timestamp : Z)
| Bridge (msg_sender : Z) (accepted : bool) (_destChainId _recipient _nftId : Z)
| Receive (_sourceChainId : Z) (_data : Payload)
| Configure (msg_sender chain endpoint : Z).

(** One call as a transaction: the storage afterwards and whether the
    call went through. *)
Definition call (c : Call) (s : State) : State * bool :=
  match c with
  | Mint a t => (fst (transact (mint a t) s), succeeds (mint a t) s)
  | Bridge a acc d r i =>
      (fst (transact (bridge a acc d r i) s), succeeds (bridge a acc d r i) s)
  | Receive src data =>
      (fst (transact (messageProcess src data) s),
       succeeds (messageProcess src data) s)
  | Configure a ch e =>
      (fst (transact (configureClient a ch e) s),
       succeeds (configureClient a ch e) s)
  end.

Definition is_mint (c : Call) : bool :=
  match c with Mint _ _ => true | _ => false end.

Fixpoint run (cs : list Call) (s : State) : State :=
  match cs with
  | [] => s
  | c :: cs' => run cs' (fst (call c s))
  end.

(** The number of [mint] calls of a history that did not revert. *)
Fixpoint mints_ok (cs : list Call) (s : State) : Z :=
  match cs with
  | [] => 0
  | c :: cs' =>
      (if is_mint c && snd (call c s) then 1 else 0) + mints_ok cs' (fst (call c s))
  end.

End History.


(** ** Sample deployments used by the worked examples *)

Module Samples.
Import MyNFT History.

(** A deployment on chain 43113 that sees a mint, a refused bridge and a
    second mint. *)
Definition sample_history : list Call :=
  [Mint 7 1700000000; Bridge 8 true 84532 8 431130000; Mint 8 1700000100].

(** The state right after [constructor()] ran on chain [c]. *)
Definition deployed (c : Z) (deployer : address) : State :=
  mkState c ∅ ∅ (c * 10 ^ 4) ∅ ∅ deployer [] [].

(** Chain 43113 with chain 84532 configured as a peer and one token,
    431130000, minted by account 7. *)
Definition fuji_one_token : State :=
  run [Configure 1 84532 500; Mint 7 1700000000] (deployed 43113 1).

(** Chain 84532 with chain 43113 configured as a peer and nothing minted. *)
Definition base_fresh : State :=
  run [Configure 2 43113 501] (deployed 84532 2).

(** The stations of token 431130000 on its way from 43113 to 84532 and
    back, with an unrelated mint on each chain in between. *)
Definition fuji_after_out : State :=
  run [Bridge 7 true 84532 7 431130000] fuji_one_token.

Definition base_after_in : State :=
  run [Receive 43113 (mkPayload 7 431130000 (metadata_of fuji_one_token 431130000))]
      base_fresh.

Definition base_after_out : State :=
  run [Mint 9 1700000200; Bridge 7 true 43113 7 431130000] base_after_in.

Definition fuji_after_back : State :=
  run [Mint 7 1700000300;
       Receive 84532 (mkPayload 7 431130000 (metadata_of base_after_in 431130000))]
      fuji_after_out.

End Samples.


(** ** Calls that move a given token *)

Module Moves.
Import MyNFT History.

(** [bridges i c]: the call is a [bridge] of token [i]. *)
Definition bridges (i : Z) (c : Call) : bool :=
  match c with
  | Bridge _ _ _ _ j => j =? i
  | _ => false
  end.

End Moves.


(** ** The ledgers of all networks and the messages between them *)

Module Network.
Import MyNFT Ledger History.

(** One deployed instance per chain id, and the messages that a bridge
    handed to the gateway and that were not delivered yet. The gateway
    delivers a message at most once. *)
Record System : Type := mkSystem {
  ledgers : gmap Z State;
  inflight : list Packet
}.

Definition init : System := mkSystem ∅ [].

Inductive Step : Type :=
| Deploy (chain : Z) (deployer : address)
| Invoke (chain : Z) (c : Call)
| Deliver (k : nat) (retry : bool).

(** The messages a transaction appended to the gateway's log. *)
Definition new_packets (s s' : State) : list Packet :=
  drop (length (outbox s)) (outbox s').

(** One step of the whole system.
    - [Deploy]: the constructor runs on a chain that has no instance yet.
    - [Invoke]: an account sends [mint], [bridge] or the peer configuration
      to the instance of a chain; [messageProcess] is reserved to the
      gateway, an account cannot call it.
    - [Deliver]: the gateway takes the [k]-th pending message and calls the
      destination's [messageProcess]; when the handler reverts the message
      is either kept for a later attempt ([retry]) or dropped. *)
Definition step (st : Step) (sys : System) : System :=
  match st with
  | Deploy c d =>
      match ledgers sys !! c, constructor c d with
      | None, Ok _ s0 => mkSystem (<[c := s0]> (ledgers sys)) (inflight sys)
      | _, _ => sys
      end
  | Invoke c (Receive _ _) => sys
  | Invoke c cl =>
      match ledgers sys !! c with
      | Some s =>
          let s' := fst (call cl s) in
          mkSystem (<[c := s']> (ledgers sys)) (inflight sys ++ new_packets s s')
      | None => sys
      end
  | Deliver k retry =>
      match inflight sys !! k with
      | Some p =>
          match ledgers sys !! pk_dest p with
          | Some s =>
              match messageProcess (pk_source p) (pk_data p) s with
              | Ok _ s' =>
                  mkSystem (<[pk_dest p := s']> (ledgers sys)) (delete k (inflight sys))
              | Revert _ =>
                  if retry then sys
                  else mkSystem (ledgers sys) (delete k (inflight sys))
              end
          | None => sys
          end
      | None => sys
      end
  end.

Definition exec (steps : list Step) (sys : System) : System :=
  fold_left (fun s st => step st s) steps sys.

(** Token [id] has an owner on chain [c]. *)
Definition owns (sys : System) (c id : Z) : bool :=
  match ledgers sys !! c with
  | Some s => _exists s id
  | None => false
  end.

(** The effect of an invocation on one ledger: nothing (the call
    reverted), or the closed form of the call. *)
Inductive call_effect (s : State) : Call -> State -> Prop :=
| eff_none c : call_effect s c s
| eff_mint a t :
    a ≠ address0 -> _exists s (nextNftId s) = false ->
    call_effect s (Mint a t) (mint_post a t s)
| eff_bridge a d r i :
    _exists s i = true ->
    call_effect s (Bridge a true d r i) (bridge_post a d r i s)
| eff_receive src data :
    p_recipient data ≠ address0 -> _exists s (p_nftId data) = false ->
    call_effect s (Receive src data) (process_post src data s)
| eff_configure a ch e :
    call_effect s (Configure a ch e) (set_chain ch e s).

(** The ids of the tokens that travel in pending messages. *)
Definition flight_ids (sys : System) : list Z :=
  (fun p => p_nftId (pk_data p)) <$> inflight sys.

(** Token [id] travels in a pending message. *)
Definition carried (sys : System) (id : Z) : bool :=
  bool_decide (id ∈ flight_ids sys).

(** No ledger has left the id range of its chain: at most [10^4] mints
    went through on each. *)
Definition within_namespace (sys : System) : Prop :=
  forall c s, ledgers sys !! c = Some s -> nextNftId s <= (c + 1) * 10 ^ 4.

(** Token [id] lies in the part of the id range of some chain that the
    chain's ledger has handed out. *)
Definition issued (sys : System) (id : Z) : Prop :=
  exists c s, ledgers sys !! c = Some s /\ c * 10 ^ 4 <= id < nextNftId s.

(** What holds of every state the system reaches while the ledgers stay
    within their id ranges. *)
Record consistent (sys : System) : Prop := mkConsistent {
  cons_chain : forall c s,
    ledgers sys !! c = Some s -> block_chainid s = c /\ c * 10 ^ 4 <= nextNftId s;
  cons_issued_owned : forall c id, owns sys c id = true -> issued sys id;
  cons_issued_carried : forall id, id ∈ flight_ids sys -> issued sys id;
  cons_one_owner : forall id c1 c2,
    owns sys c1 id = true -> owns sys c2 id = true -> c1 = c2;
  cons_flight : forall id c, id ∈ flight_ids sys -> owns sys c id = false;
  cons_nodup : NoDup (flight_ids sys)
}.

Definition within_namespace_b (sys : System) : bool :=
  bool_decide (map_Forall (fun c s => nextNftId s <= (c + 1) * 10 ^ 4) (ledgers sys)).

(** Chains 43113 and 84532 trust each other; account 7 mints token
    431130000 on the first, bridges it to the second, and the gateway
    delivers the message. *)
Definition sample_steps : list Step :=
  [Deploy 43113 1; Deploy 84532 2;
   Invoke 43113 (Configure 1 84532 500); Invoke 84532 (Configure 2 43113 501);
   Invoke 43113 (Mint 7 1700000000);
   Invoke 43113 (Bridge 7 true 84532 7 431130000);
   Deliver 0 false].

(** Every metadata record a ledger stores or a pending message carries
    is plain. *)
Definition stored_plain (s : State) : Prop :=
  forall id md, _tokenMetadata s !! id = Some md -> plain_metadata md = true.

Definition all_plain (sys : System) : Prop :=
  (forall c s, ledgers sys !! c = Some s -> stored_plain s) /\
  (forall p, p ∈ inflight sys -> plain_metadata (p_metadata (pk_data p)) = true).

(** The ledger of chain 84532 once the sample steps have run. *)
Definition base_with_token : State :=
  default (mkState 84532 ∅ ∅ 0 ∅ ∅ 0 [] []) (ledgers (exec sample_steps init) !! 84532).

(** Two networks, 1 and 2; the first mints 10001 tokens, then the second
    mints its first one. *)
Definition overflow_trace : list Step :=
  [Deploy 1 9; Deploy 2 9] ++ repeat (Invoke 1 (Mint 7 1700000000)) (Z.to_nat 10001)
    ++ [Invoke 2 (Mint 8 1700000001)].

End Network.


(** ** The listing cache, [frontend/src/utils/nfts.js] *)

Module NftCache.
Import MyNFT.

(** An entry of the cached list: the object [fetchNFTsForChain] builds from
    a token id and the tuple [getTokenMetadata] returns. *)
Record Item : Type := mkItem {
  item_id : string;
  item_name : string;
  item_description : string;
  item_image : string;
  item_chainId : Z;
  item_mintedAt : Z;
  item_originChain : Z
}.

Definition format_item (tokenId : Z) (metadata : NFTMetadata) : Item :=
  mkItem (toString tokenId) (name metadata) (description metadata) (image metadata)
         (chainId metadata) (mintedAt metadata) (chainId metadata).

(** A remote call made through a provider. *)
Inductive Rpc : Type :=
| RpcTokensByOwner (chain : Z) (owner : string)
| RpcTokenMetadata (chain : Z) (tokenId : Z).

Inductive Log : Type :=
| LogSkipRecent (chain : Z)
| LogNoDeployment (chain : Z)
| LogMetadataError (tokenId : Z)
| LogFetchError (chain : Z).

(** The React state the setters write ([nfts], [lastFetchTime],
    [isLoadingNFTs], the provider cache of the component), the module-level
    [providerCache], the remote calls made so far and the console. *)
Record Ui : Type := mkUi {
  nfts : gmap Z (list Item);
  lastFetchTime : gmap Z Z;
  isLoadingNFTs : gmap Z bool;
  componentProviders : gset Z;
  providerCache : gset Z;
  rpc : list Rpc;
  console : list Log
}.

(** What the function reads from outside: the deployment file, the network
    table, and the answers of the remote contract ([None]: the call throws). *)
Record World : Type := mkWorld {
  deploymentsExist : bool;
  getDeploymentByChainId : Z -> option string;
  rpcUrl : Z -> option string;
  getTokensByOwner : Z -> string -> option (list Z);
  getTokenMetadata : Z -> Z -> option NFTMetadata
}.

Definition setNFTs (chain : Z) (l : list Item) (u : Ui) : Ui :=
  mkUi (<[chain := l]> (nfts u)) (lastFetchTime u) (isLoadingNFTs u)
       (componentProviders u) (providerCache u) (rpc u) (console u).

Definition setLastFetchTime (chain now : Z) (u : Ui) : Ui :=
  mkUi (nfts u) (<[chain := now]> (lastFetchTime u)) (isLoadingNFTs u)
       (componentProviders u) (providerCache u) (rpc u) (console u).

Definition setIsLoadingNFTs (chain : Z) (b : bool) (u : Ui) : Ui :=
  mkUi (nfts u) (lastFetchTime u) (<[chain := b]> (isLoadingNFTs u))
       (componentProviders u) (providerCache u) (rpc u) (console u).

Definition cacheProvider (chain : Z) (u : Ui) : Ui :=
  mkUi (nfts u) (lastFetchTime u) (isLoadingNFTs u)
       ({[chain]} ∪ componentProviders u) ({[chain]} ∪ providerCache u)
       (rpc u) (console u).

Definition call_rpc (q : Rpc) (u : Ui) : Ui :=
  mkUi (nfts u) (lastFetchTime u) (isLoadingNFTs u)
       (componentProviders u) (providerCache u) (rpc u ++ [q]) (console u).

Definition log (m : Log) (u : Ui) : Ui :=
  mkUi (nfts u) (lastFetchTime u) (isLoadingNFTs u)
       (componentProviders u) (providerCache u) (rpc u) (console u ++ [m]).

(** JavaScript truthiness of the values involved. *)
Definition truthy_string (s : string) : bool :=
  match s with EmptyString => false | _ => true end.

Definition truthy_number (n : Z) : bool := negb (n =? 0).

(** [Number(currentChainId)]: the current chain id is [null] while no wallet
    is connected, and [Number(null)] is 0. *)
Definition Number (c : option Z) : Z := default 0 c.

(** The loop [for (let i = 0; i < tokenIds.length; i++)]: one metadata call
    per id; an id whose call throws is logged and left out. *)
Fixpoint fetch_metadata (w : World) (chain : Z) (tokenIds : list Z)
         (acc : list Item) (u : Ui) : list Item * Ui :=
  match tokenIds with
  | [] => (acc, u)
  | tokenId :: rest =>
      let u1 := call_rpc (RpcTokenMetadata chain tokenId) u in
      match getTokenMetadata w chain tokenId with
      | Some metadata =>
          fetch_metadata w chain rest (acc ++ [format_item tokenId metadata]) u1
      | None =>
          fetch_metadata w chain rest acc (log (LogMetadataError tokenId) u1)
      end
  end.

(** The body of the [try] block; [None] stands for a thrown error. The
    callers always pass [setProviderCache], so a new provider is cached. *)
Definition fetch_body (w : World) (address : string) (targetChainId now : Z)
           (u : Ui) : option Ui * Ui :=
  let provider_step : option Ui :=
    if bool_decide (targetChainId ∈ providerCache u) then Some u
    else match rpcUrl w targetChainId with
         | Some url => if truthy_string url then Some (cacheProvider targetChainId u)
                       else None
         | None => None
         end in
  match provider_step with
  | None => (None, u)
  | Some u1 =>
      let u2 := call_rpc (RpcTokensByOwner targetChainId address) u1 in
      match getTokensByOwner w targetChainId address with
      | None => (None, u2)
      | Some [] =>
          (Some (setLastFetchTime targetChainId now (setNFTs targetChainId [] u2)), u2)
      | Some tokenIds =>
          let (items, u3) := fetch_metadata w targetChainId tokenIds [] u2 in
          (Some (setLastFetchTime targetChainId now (setNFTs targetChainId items u3)), u3)
      end
  end.

(** [export async function fetchNFTsForChain(address, targetChainId,
    currentChainId, lastFetchTime, setLastFetchTime, setNFTs,
    setIsLoadingNFTs, setProviderCache)]. The argument [lastFetchTime_arg]
    is the snapshot of the state the caller passes; the setters act on the
    state [u]. *)
Definition fetchNFTsForChain (w : World) (address : string)
           (targetChainId : Z) (currentChainId : option Z)
           (lastFetchTime_arg : gmap Z Z) (now : Z) (u : Ui) : Ui :=
  if negb (truthy_string address) || negb (truthy_number targetChainId)
     || negb (deploymentsExist w) then u
  else if targetChainId =? Number currentChainId then u
  else
    let lastFetch := default 0 (lastFetchTime_arg !! targetChainId) in
    if now - lastFetch <? 10000 then log (LogSkipRecent targetChainId) u
    else
      match getDeploymentByChainId w targetChainId with
      | None => log (LogNoDeployment targetChainId) u
      | Some deployment =>
          let u0 := setIsLoadingNFTs targetChainId true u in
          let u' :=
            match fetch_body w address targetChainId now u0 with
            | (Some done, _) => done
            | (None, failed) =>
                setNFTs targetChainId [] (log (LogFetchError targetChainId) failed)
            end in
          setIsLoadingNFTs targetChainId false u'
      end.

End NftCache.


(** ** A sample listing state *)

Module CacheSamples.
Import MyNFT NftCache.

(** Account "0xabc" holds token 431130000 on chain 43113. *)
Definition sample_world : World :=
  mkWorld true
          (fun chain => if chain =? 43113 then Some "0xC0FFEE" else None)
          (fun chain => if chain =? 43113 then Some "https://rpc.example" else None)
          (fun chain owner => if chain =? 43113 then Some [431130000] else None)
          (fun chain tokenId => Some (mint_metadata tokenId 43113 1700000000)).

Definition empty_ui : Ui := mkUi ∅ ∅ ∅ ∅ ∅ [] [].

(** The state after a first fetch for chain 43113 at time 50000 (ms), the
    wallet being connected to chain 84532. *)
Definition fetched_once : Ui :=
  fetchNFTsForChain sample_world "0xabc" 43113 (Some 84532) ∅ 50000 empty_ui.

End CacheSamples.


(** ** The bridge script, [scripts/bridge.js] *)

Module BridgeScript.

(** [String.prototype.toLowerCase] on the ASCII letters of an address. *)
Definition lower_ascii (c : ascii) : ascii :=
  let n := nat_of_ascii c in
  if (65 <=? n)%nat && (n <=? 90)%nat then ascii_of_nat (n + 32) else c.

Fixpoint toLowerCase (s : string) : string :=
  match s with
  | EmptyString => EmptyString
  | String c s' => String (lower_ascii c) (toLowerCase s')
  end.

(** The object the promise is resolved with on success. *)
Record Received : Type := mkReceived {
  r_recipient : string;
  r_nftId : string
}.

(** The state of the promise [waitForNFTReceived] returns; [null] is
    [Resolved None]. *)
Inductive Settled : Type :=
| Pending
| Resolved (v : option Received)
| Rejected.

(** The closure of one call of [waitForNFTReceived]: its arguments and
    [startTime], the promise, whether the interval and the timeout timer are
    still set, the times at which [destContract.ownerOf] was called, the
    number of calls that have not returned yet, and the exit code once
    [process.exit] ran. *)
Record Watch : Type := mkWatch {
  recipientAddress : string;
  nftId : string;
  startTime : Z;
  timeout : Z;
  promise : Settled;
  intervalId : bool;
  timeoutId : bool;
  ownerOf_calls : list Z;
  awaiting_owner : nat;
  awaiting_metadata : nat;
  exited : option Z
}.

(** What the runtime can do next: fire the interval, complete a pending
    [ownerOf] call ([None]: it throws), complete a pending
    [getTokenMetadata] call (with or without error), fire the timeout, or
    deliver SIGINT. Where a handler reads [Date.now()] the event carries
    the value. *)
Inductive Event : Type :=
| IntervalFires (now : Z)
| OwnerOfReturns (owner : option string) (now : Z)
| MetadataReturns
| TimeoutFires
| Sigint.


(** [resolve(v)]: only the first call settles the promise. *)
Definition resolve (v : option Received) (w : Watch) : Watch :=
  match promise w with
  | Pending =>
      mkWatch (recipientAddress w) (nftId w) (startTime w) (timeout w) (Resolved v)
              (intervalId w) (timeoutId w) (ownerOf_calls w)
              (awaiting_owner w) (awaiting_metadata w) (exited w)
  | _ => w
  end.

Definition clearInterval (w : Watch) : Watch :=
  mkWatch (recipientAddress w) (nftId w) (startTime w) (timeout w) (promise w)
          false (timeoutId w) (ownerOf_calls w)
          (awaiting_owner w) (awaiting_metadata w) (exited w).

Definition clearTimeout (w : Watch) : Watch :=
  mkWatch (recipientAddress w) (nftId w) (startTime w) (timeout w) (promise w)
          (intervalId w) false (ownerOf_calls w)
          (awaiting_owner w) (awaiting_metadata w) (exited w).

Definition process_exit (code : Z) (w : Watch) : Watch :=
  mkWatch (recipientAddress w) (nftId w) (startTime w) (timeout w) (promise w)
          (intervalId w) (timeoutId w) (ownerOf_calls w)
          (awaiting_owner w) (awaiting_metadata w) (Some code).

(** [checkOwnership] up to its first [await]: the call of
    [destContract.ownerOf(nftId)]. *)
Definition checkOwnership (now : Z) (w : Watch) : Watch :=
  mkWatch (recipientAddress w) (nftId w) (startTime w) (timeout w) (promise w)
          (intervalId w) (timeoutId w) (ownerOf_calls w ++ [now])
          (S (awaiting_owner w)) (awaiting_metadata w) (exited w).

Definition owner_returned (w : Watch) : Watch :=
  mkWatch (recipientAddress w) (nftId w) (startTime w) (timeout w) (promise w)
          (intervalId w) (timeoutId w) (ownerOf_calls w)
          (pred (awaiting_owner w)) (awaiting_metadata w) (exited w).

Definition metadata_called (w : Watch) : Watch :=
  mkWatch (recipientAddress w) (nftId w) (startTime w) (timeout w) (promise w)
          (intervalId w) (timeoutId w) (ownerOf_calls w)
          (awaiting_owner w) (S (awaiting_metadata w)) (exited w).

Definition metadata_returned (w : Watch) : Watch :=
  mkWatch (recipientAddress w) (nftId w) (startTime w) (timeout w) (promise w)
          (intervalId w) (timeoutId w) (ownerOf_calls w)
          (awaiting_owner w) (pred (awaiting_metadata w)) (exited w).

(** The owner the contract reports is the recipient. *)
Definition is_recipient (w : Watch) (owner : option string) : bool :=
  match owner with
  | Some currentOwner =>
      bool_decide (toLowerCase currentOwner = toLowerCase (recipientAddress w))
  | None => false
  end.

(** [checkOwnership] after [await destContract.ownerOf(nftId)]. *)
Definition after_ownerOf (owner : option string) (now : Z) (w : Watch) : Watch :=
  if is_recipient w owner then metadata_called w
  else if now - startTime w >? timeout w then resolve None (clearInterval w)
  else w.

(** [checkOwnership] after [await destContract.getTokenMetadata(nftId)],
    whether it returned or threw. *)
Definition after_metadata (w : Watch) : Watch :=
  resolve (Some (mkReceived (recipientAddress w) (nftId w)))
          (clearTimeout (clearInterval w)).

(** The executor of [new Promise((resolve) => ...)], run at time [now]. *)
Definition waitForNFTReceived (recipient id : string) (timeout_ms now : Z) : Watch :=
  checkOwnership now
    (mkWatch recipient id now timeout_ms Pending true true [] 0 0 None).

Definition handle (e : Event) (w : Watch) : Watch :=
  match exited w with
  | Some _ => w
  | None =>
      match e with
      | IntervalFires now => if intervalId w then checkOwnership now w else w
      | OwnerOfReturns owner now =>
          match awaiting_owner w with
          | O => w
          | S _ => after_ownerOf owner now (owner_returned w)
          end
      | MetadataReturns =>
          match awaiting_metadata w with
          | O => w
          | S _ => after_metadata (metadata_returned w)
          end
      | TimeoutFires =>
          (* a timer that fired is no longer set *)
          if timeoutId w then resolve None (clearInterval (clearTimeout w)) else w
      | Sigint =>
          process_exit 0 (resolve None (clearTimeout (clearInterval w)))
      end
  end.

Definition run_watch (evs : list Event) (w : Watch) : Watch :=
  fold_left (fun w e => handle e w) evs w.

(** While no reply names the recipient, the watch is either still pending
    with its timeout set, or resolved with [null]. *)
Definition undecided (w : Watch) : Prop :=
  awaiting_metadata w = 0%nat /\
  ((promise w = Pending /\ timeoutId w = true /\ exited w = None) \/
   promise w = Resolved None).

(** No [ownerOf] call of the run reports the recipient. *)
Definition never_recipient (recipient : string) (evs : list Event) : Prop :=
  forall owner now,
    In (OwnerOfReturns (Some owner) now) evs ->
    toLowerCase owner ≠ toLowerCase recipient.

(** *** The command line *)

(** What [main] finds outside: the network table, whether [getContract]
    succeeds for a network, the owner the source contract reports ([None]:
    the call throws), the wallet address, whether sending the bridge
    transaction and waiting for it succeed, and the value the completion
    watch resolves with. *)
Record Run : Type := mkRun {
  networks : string -> bool;
  getContract : string -> bool;
  source_ownerOf : option string;
  wallet : string;
  bridge_tx : bool;
  tx_wait : bool;
  watch_result : option Received
}.

Inductive thrown : Type := Throw.

(** [async function bridge(sourceNetwork, destNetwork, nftId, recipient,
    waitForCompletion = true)]: [inl Throw] when it throws. The value of the
    watch is awaited and dropped. *)
Definition bridge (r : Run) (sourceNetwork destNetwork : string)
           (waitForCompletion : bool) : thrown + unit :=
  if negb (getContract r sourceNetwork) then inl Throw
  else if negb (getContract r destNetwork) then inl Throw
  else match source_ownerOf r with
       | None => inl Throw
       | Some owner =>
           if negb (bool_decide (toLowerCase owner = toLowerCase (wallet r)))
           then inl Throw
           else if negb (bridge_tx r) then inl Throw
           else if negb (tx_wait r) then inl Throw
           else if waitForCompletion
                then let _ := watch_result r in inr tt
                else inr tt
       end.

(** The run gets as far as calling [waitForNFTReceived]. *)
Definition reaches_watch (r : Run) (sourceNetwork destNetwork : string) : bool :=
  getContract r sourceNetwork && getContract r destNetwork &&
  match source_ownerOf r with
  | Some owner => bool_decide (toLowerCase owner = toLowerCase (wallet r))
  | None => false
  end && bridge_tx r && tx_wait r.

(** [main()] followed by [.then(() => process.exit(0)).catch(...)]: the exit
    status of the process. Arguments that are missing on the command line
    are [None]. *)
Definition main (r : Run) (sourceNetwork destNetwork nftId : option string) : Z :=
  match sourceNetwork with
  | None => 0
  | Some src =>
      if negb (networks r src) then 1
      else match destNetwork with
           | None => if getContract r src then 0 else 1
           | Some dst =>
               if negb (networks r dst) then 1
               else match nftId with
                    | None => if getContract r src then 0 else 1
                    | Some _ =>
                        match bridge r src dst true with
                        | inr _ => 0
                        | inl _ => 1
                        end
                    end
           end
  end.

End BridgeScript.


(** ** The browser-side watch, [BridgeModal.jsx] *)

Module BridgeModal.

Inductive Status : Type :=
| confirming_source
| waiting_destination
| success.

(** The state of the component that the polling effect reads or writes,
    the interval the effect started (with the value of [sourceConfirmTime]
    its callback closed over), the times at which [onCheckNFTOwnership] was
    called and the number of calls that have not returned. *)
Record Modal : Type := mkModal {
  isOpen : bool;
  nftId : string;
  has_onCheckNFTOwnership : bool;
  sourceConfirmed : bool;
  destConfirmed : bool;
  nftReceived : bool;
  status : Status;
  sourceConfirmTime : option Z;
  interval : option (option Z);
  ownership_calls : list Z;
  awaiting : nat
}.


Definition truthy_string (s : string) : bool :=
  match s with EmptyString => false | _ => true end.

(** [sourceConfirmTime && (now - sourceConfirmTime < 10000)] *)
Definition too_early (captured : option Z) (now : Z) : bool :=
  match captured with
  | Some t => negb (t =? 0) && (now - t <? 10000)
  | None => false
  end.

(** The effect "check NFT ownership periodically", run after a render in
    which one of its dependencies changed: it starts the interval unless the
    modal is closed, the source is unconfirmed or there is no token id. *)
Definition start_polling (m : Modal) : Modal :=
  if negb (isOpen m) || negb (sourceConfirmed m) || negb (truthy_string (nftId m))
  then m
  else mkModal (isOpen m) (nftId m) (has_onCheckNFTOwnership m) (sourceConfirmed m)
               (destConfirmed m) (nftReceived m) (status m) (sourceConfirmTime m)
               (Some (sourceConfirmTime m)) (ownership_calls m) (awaiting m).

Inductive Event : Type :=
| Tick (now : Z)
| OwnershipReturns (isOwned : bool).

Definition call_ownership (now : Z) (m : Modal) : Modal :=
  mkModal (isOpen m) (nftId m) (has_onCheckNFTOwnership m) (sourceConfirmed m)
          (destConfirmed m) (nftReceived m) (status m) (sourceConfirmTime m)
          (interval m) (ownership_calls m ++ [now]) (S (awaiting m)).

Definition confirm_destination (m : Modal) : Modal :=
  mkModal (isOpen m) (nftId m) (has_onCheckNFTOwnership m) (sourceConfirmed m)
          true true success (sourceConfirmTime m)
          None (ownership_calls m) (pred (awaiting m)).

Definition ownership_returned (m : Modal) : Modal :=
  mkModal (isOpen m) (nftId m) (has_onCheckNFTOwnership m) (sourceConfirmed m)
          (destConfirmed m) (nftReceived m) (status m) (sourceConfirmTime m)
          (interval m) (ownership_calls m) (pred (awaiting m)).

(** The interval callback up to its [await], and its continuation. *)
Definition handle (e : Event) (m : Modal) : Modal :=
  match e with
  | Tick now =>
      match interval m with
      | Some captured =>
          if has_onCheckNFTOwnership m
          then if too_early captured now then m else call_ownership now m
          else m
      | None => m
      end
  | OwnershipReturns isOwned =>
      match awaiting m with
      | O => m
      | S _ => if isOwned then confirm_destination m else ownership_returned m
      end
  end.

Definition run_modal (evs : list Event) (m : Modal) : Modal :=
  fold_left (fun m e => handle e m) evs m.

(** A modal that has just learnt that the source transaction is confirmed,
    at time 1000000. *)
Definition sample_modal : Modal :=
  mkModal true "431130000" true true false false waiting_destination
          (Some 1000000) None [] 0.

End BridgeModal.


(** ** Sample runs of the bridge script *)

Module ScriptSamples.
Import BridgeScript.

(** A watch with the default five-minute timeout, started at time 0, in
    which the destination never shows the recipient as owner. *)
Definition timed_out_events : list Event :=
  [OwnerOfReturns None 40; IntervalFires 10000;
   OwnerOfReturns (Some "0x00000000000000000000000000000000000000AA") 10055;
   IntervalFires 20000; OwnerOfReturns None 20031; TimeoutFires].

Definition sample_watch : Watch :=
  waitForNFTReceived "0x00000000000000000000000000000000000000bb" "431130000"
                     (5 * 60 * 1000) 0.

(** A command-line run that gets as far as the completion watch, which
    then times out. *)
Definition sample_run : Run :=
  mkRun (fun _ => true) (fun _ => true)
        (Some "0x00000000000000000000000000000000000000BB")
        "0x00000000000000000000000000000000000000bb"
        true true None.

End ScriptSamples.


(** ** The deployment reconciler, [scripts/deploy.js] *)

Module Reconciler.
Import MyNFT.

(** A target network of the declarative list. *)
Record Descriptor : Type := mkDescriptor {
  d_networkKey : string;
  d_chainId : Z;
  d_rpcUrl : string;
  d_blockExplorer : string
}.

(** A deployment record. *)
Record DeploymentRecord : Type := mkRecord {
  r_chainId : Z;
  contractAddress : address;
  abi : string;
  r_rpcUrl : string;
  r_blockExplorer : string;
  networkKey : string
}.

(** The record set, the instance that lives on each network, the number
    of deployments made so far and the chains deployed in the current run. *)
Record World : Type := mkWorld {
  records : gmap Z DeploymentRecord;
  instances : gmap Z State;
  nonce : nat;
  deployed : list Z
}.

Section Run.

(** The operator's account, the address the network gives to the [n]-th
    deployment, the compiled interface, and the time of the run. *)
Variable deployer : address.
Variable deploy_address : Z -> nat -> address.
Variable compiled_abi : string.
Variable now : Z.

(** Modelled from the spec: [scripts/deploy.js] is not among the sources.
    Step 2 for one target: "if a record exists for its chainId, reuse it
    unchanged; otherwise, deploy a fresh Ledger Contract instance, mint one
    seed token on it, and add its record to the set". A deployment whose
    constructor reverts adds nothing. *)
Definition reconcile_one (w : World) (d : Descriptor) : World :=
  match records w !! d_chainId d with
  | Some _ => w
  | None =>
      match constructor (d_chainId d) deployer with
      | Ok _ s0 =>
          let s1 := fst (transact (mint deployer now) s0) in
          let r := mkRecord (d_chainId d) (deploy_address (d_chainId d) (nonce w))
                            compiled_abi (d_rpcUrl d) (d_blockExplorer d)
                            (d_networkKey d) in
          mkWorld (<[d_chainId d := r]> (records w))
                  (<[d_chainId d := s1]> (instances w))
                  (S (nonce w))
                  (deployed w ++ [d_chainId d])
      | Revert _ => w
      end
  end.

Definition deploy_missing (w : World) (targets : list Descriptor) : World :=
  fold_left reconcile_one targets w.

(** A target needs no deployment: it has a record, or its constructor
    reverts. *)
Definition settled (recs : gmap Z DeploymentRecord) (d : Descriptor) : Prop :=
  is_Some (recs !! d_chainId d) \/
  exists reason, constructor (d_chainId d) deployer = Revert reason.

(** Modelled from the spec: the peer-trust configuration call on the
    instance of chain [a] for the recorded chain [fst br]; an instance is not
    its own peer. *)
Definition configure_step (a : Z) (s : State) (br : Z * DeploymentRecord) : State :=
  if decide (fst br = a) then s
  else fst (transact (configureClient deployer (fst br) (contractAddress (snd br))) s).

(** Modelled from the spec: step 3 on the instance of chain [a], "invoke the
    peer-trust configuration call" for every other deployed chain, "applied
    to all pairs unconditionally". *)
Definition configure_instance (recs : gmap Z DeploymentRecord) (a : Z) (s : State)
  : State :=
  fold_left (configure_step a) (map_to_list recs) s.

Definition configure_all (w : World) : World :=
  mkWorld (records w)
          (map_imap (fun a s => Some (configure_instance (records w) a s)) (instances w))
          (nonce w) (deployed w).

Definition start_run (w : World) : World :=
  mkWorld (records w) (instances w) (nonce w) [].

(** Modelled from the spec: one run of the reconciler (steps 1 to 4; the
    world returned is what is persisted). *)
Definition reconcile (w : World) (targets : list Descriptor) : World :=
  configure_all (deploy_missing (start_run w) targets).

(** Chain [a]'s instance accepts messages from chain [b]. *)
Definition trusts (w : World) (a b : Z) : Prop :=
  exists s, instances w !! a = Some s /\ isAuthorized s b = true.

(** The trust graph over the recorded chains is complete. *)
Definition complete (w : World) : Prop :=
  forall a b, a ∈ dom (records w) -> b ∈ dom (records w) -> a ≠ b -> trusts w a b.

(** Every record has an instance owned by the operator, at a non-zero
    address. *)
Definition operated (w : World) : Prop :=
  forall c r, records w !! c = Some r ->
    contractAddress r ≠ address0 /\
    exists s, instances w !! c = Some s /\ MESSAGE_OWNER s = deployer.

End Run.

End Reconciler.


(** ** A sample reconciliation *)

Module ReconcilerSamples.
Import Reconciler.

Definition sample_targets : list Descriptor :=
  [mkDescriptor "avalanche-testnet" 43113 "https://api.avax-test.network/ext/bc/C/rpc"
                "https://testnet.snowtrace.io";
   mkDescriptor "base-testnet" 84532 "https://sepolia.base.org"
                "https://sepolia-explorer.base.org"].

Definition empty_world : World := mkWorld ∅ ∅ 0 [].

(** The [n]-th deployment lands at address [n + 1]. *)
Definition sample_address (chain : Z) (n : nat) : address := Z.of_nat n + 1.

Definition first_run : World :=
  reconcile 1 sample_address "[]" 1700000000 empty_world sample_targets.

Definition second_run : World :=
  reconcile 1 sample_address "[]" 1700000000 first_run sample_targets.

End ReconcilerSamples.


(** ** The listing queries of the contract *)

Module Enumerable.
Import MyNFT.

(** What an [eth_call] gives its caller: the returned value, or nothing
    when the call reverts. *)
Definition answer {A} (r : result State A) : option A :=
  match r with
  | Ok a _ => Some a
  | Revert _ => None
  end.

Section Index.

(** Modelled from the spec: the per-owner index table of
    [ERC721Enumerable], a dependency whose source is not part of the
    repository; [_ownedTokens s owner i] is the id at position [i] of
    [owner]. *)
Variable _ownedTokens : State -> address -> Z -> Z.

(** Modelled from the spec: [balanceOf] of the ERC721 base as it is called;
    it rejects the zero address. *)
Definition balanceOf_view (owner : address) : EVM State Z :=
  let* _ := require (negb (owner =? address0))
                    "ERC721: address zero is not a valid owner" in
  gets (fun s => balanceOf s owner).

(** Modelled from the spec: [tokenOfOwnerByIndex] of [ERC721Enumerable]. *)
Definition tokenOfOwnerByIndex (owner : address) (index : Z) : EVM State Z :=
  let* n := balanceOf_view owner in
  let* _ := require (index <? n) "ERC721Enumerable: owner index out of bounds" in
  gets (fun s => _ownedTokens s owner index).

(** [for (uint256 i = 0; i < tokenCount; i++) result[i] =
    tokenOfOwnerByIndex(_owner, i)], with [n] iterations to go. *)
Fixpoint tokens_loop (n : nat) (_owner : address) (i : Z) (result : list Z)
  : EVM State (list Z) :=
  match n with
  | O => ret result
  | S n' =>
      let* tokenId := tokenOfOwnerByIndex _owner i in
      tokens_loop n' _owner (i + 1) (<[Z.to_nat i := tokenId]> result)
  end.

(** [function getTokensByOwner(address _owner) external view returns
    (uint256[] memory)] *)
Definition getTokensByOwner (_owner : address) : EVM State (list Z) :=
  let* tokenCount := balanceOf_view _owner in
  if tokenCount =? 0 then ret []
  else tokens_loop (Z.to_nat tokenCount) _owner 0 (replicate (Z.to_nat tokenCount) 0).

(** The loop of [getTokensWithMetadata], which fills both arrays. *)
Fixpoint metadata_loop (n : nat) (_owner : address) (i : Z)
         (tokenIds : list Z) (metadataList : list NFTMetadata)
  : EVM State (list Z * list NFTMetadata) :=
  match n with
  | O => ret (tokenIds, metadataList)
  | S n' =>
      let* tokenId := tokenOfOwnerByIndex _owner i in
      let* metadata := gets (fun s => metadata_of s tokenId) in
      metadata_loop n' _owner (i + 1)
                    (<[Z.to_nat i := tokenId]> tokenIds)
                    (<[Z.to_nat i := metadata]> metadataList)
  end.

(** [function getTokensWithMetadata(address _owner) external view returns
    (uint256[] memory tokenIds, NFTMetadata[] memory metadataList)] *)
Definition getTokensWithMetadata (_owner : address)
  : EVM State (list Z * list NFTMetadata) :=
  let* tokenCount := balanceOf_view _owner in
  metadata_loop (Z.to_nat tokenCount) _owner 0
                (replicate (Z.to_nat tokenCount) 0)
                (replicate (Z.to_nat tokenCount) empty_metadata).

End Index.

(** An index table that lists token 431130000 at every position. *)
Definition sample_index (s : State) (owner : address) (i : Z) : Z := 431130000.

End Enumerable.


(** ** More sample ledgers *)

Module MoreSamples.
Import MyNFT History Samples.

(** Chain 2, on which the first id of its own range, 20000, arrived in a
    message from chain 1 before anything was minted. *)
Definition chain2_with_foreign_first_id : State :=
  run [Configure 9 1 500;
       Receive 1 (mkPayload 7 20000 (mint_metadata 20000 1 1700000000))]
      (deployed 2 9).

(** Token 431130000 bridged from chain 43113 to the zero address. *)
Definition fuji_after_zero_bridge : State :=
  run [Bridge 7 true 84532 0 431130000] fuji_one_token.

End MoreSamples.


(** ** The listing of the bridge script, [listNFTs] of [scripts/bridge.js] *)

Module ListScript.
Import MyNFT.

(** An entry of the array [listNFTs] returns. *)
Record Listed : Type := mkListed {
  l_id : string;
  l_name : string;
  l_originChain : string;
  l_mintedAt : string
}.

(** [new Date(Number(mintedAt) * 1000).toISOString()] throws a
    [RangeError] when the time value lies beyond the range of [Date],
    8.64e15 ms. *)
Definition date_printable (mintedAt : Z) : bool :=
  mintedAt * 1000 <=? 8640000000000000.

Definition unknown_entry (tokenId : Z) : Listed :=
  mkListed (toString tokenId) ("NFT #" +:+ toString tokenId) "Unknown" "Unknown".

(** The body of the loop for one id: the inner [try] pushes the entry built
    from the metadata, its [catch] the entry with ["Unknown"] fields.
    [metadata_answer] is the reply of [contract.getTokenMetadata] ([None]:
    the call throws). *)
Definition list_entry (metadata_answer : Z -> option NFTMetadata) (tokenId : Z) : Listed :=
  match metadata_answer tokenId with
  | Some metadata =>
      if date_printable (mintedAt metadata)
      then mkListed (toString tokenId) (name metadata)
                    (toString (chainId metadata)) (toString (mintedAt metadata))
      else unknown_entry tokenId
  | None => unknown_entry tokenId
  end.

Fixpoint list_loop (metadata_answer : Z -> option NFTMetadata) (tokenIds : list Z)
         (nfts : list Listed) : list Listed :=
  match tokenIds with
  | [] => nfts
  | tokenId :: rest =>
      list_loop metadata_answer rest (nfts ++ [list_entry metadata_answer tokenId])
  end.

(** [async function listNFTs(contract, address, networkName)]; [tokens] is
    the reply of [contract.getTokensByOwner(address)] ([None]: it throws). *)
Definition listNFTs (tokens : option (list Z)) (metadata_answer : Z -> option NFTMetadata)
  : list Listed :=
  match tokens with
  | None => []
  | Some [] => []
  | Some tokenIds => list_loop metadata_answer tokenIds []
  end.

End ListScript.


(** ** More sample runs of the watch *)

Module MoreScriptSamples.
Import BridgeScript ScriptSamples.

(** After the watch timed out, a reply that was still under way names the
    recipient. *)
Definition late_success_events : list Event :=
  [IntervalFires 300010;
   OwnerOfReturns (Some "0x00000000000000000000000000000000000000BB") 300020;
   MetadataReturns].

(** The recipient shows up as owner on the second query. *)
Definition received_events : list Event :=
  [OwnerOfReturns None 40; IntervalFires 10000;
   OwnerOfReturns (Some "0x00000000000000000000000000000000000000BB") 10055;
   MetadataReturns].

(** A run whose wallet does not own the token. *)
Definition foreign_run : Run :=
  mkRun (fun _ => true) (fun _ => true)
        (Some "0x00000000000000000000000000000000000000CC")
        "0x00000000000000000000000000000000000000bb"
        true true None.

End MoreScriptSamples.


(** ** The other functions of [frontend/src/utils/nfts.js] *)

Module NftList.
Import MyNFT NftCache.

(** [tokenIds.map((id, index) => ...)] of [fetchNFTsForCurrentChain], from
    position [index] on: the entry of an id is built from
    [metadataList[index]]; where that is [undefined], reading its fields
    throws ([None]). *)
Fixpoint format_from (index : nat) (tokenIds : list Z) (metadataList : list NFTMetadata)
  : option (list Item) :=
  match tokenIds with
  | [] => Some []
  | id :: rest =>
      match metadataList !! index with
      | Some metadata =>
          match format_from (S index) rest metadataList with
          | Some items => Some (format_item id metadata :: items)
          | None => None
          end
      | None => None
      end
  end.

(** [export async function fetchNFTsForCurrentChain(contract, address,
    chainId, setNFTs, setIsLoadingNFTs)]. [contract] is the reply of
    [contract.getTokensWithMetadata(address)] of the wallet's contract
    instance ([Some None]: the call throws), or [None] when there is no
    instance; [chainId] is [None] while it is [null]. *)
Definition fetchNFTsForCurrentChain
           (contract : option (option (list Z * list NFTMetadata)))
           (address : string) (chainId : option Z) (u : Ui) : Ui :=
  match contract, chainId with
  | Some nftsWithMetadata, Some chain =>
      if negb (truthy_string address) || negb (truthy_number chain) then u
      else
        let u0 := setIsLoadingNFTs chain true u in
        let u' :=
          match nftsWithMetadata with
          | Some (tokenIds, metadataList) =>
              match format_from 0 tokenIds metadataList with
              | Some formattedNFTs => setNFTs chain formattedNFTs u0
              | None => setNFTs chain [] u0
              end
          | None => setNFTs chain [] u0
          end in
        setIsLoadingNFTs chain false u'
  | _, _ => u
  end.

(** [export function getNFTCountForChain(nfts, chainId)]; [nfts] is [None]
    when the argument is [null]. *)
Definition getNFTCountForChain (nfts : option (gmap Z (list Item))) (chainId : Z) : Z :=
  match nfts with
  | Some table =>
      if negb (truthy_number chainId) then 0
      else Z.of_nat (length (default [] (table !! chainId)))
  | None => 0
  end.

(** [export function getNFTById(nfts, chainId, nftId)] *)
Definition getNFTById (nfts : option (gmap Z (list Item))) (chainId : Z) (nftId : string)
  : option Item :=
  match nfts with
  | Some table =>
      if negb (truthy_number chainId) || negb (truthy_string nftId) then None
      else find (fun nft => String.eqb (item_id nft) nftId) (default [] (table !! chainId))
  | None => None
  end.

(** The call gets past the early returns of [fetchNFTsForChain]: an address
    and a target chain are given, the deployment file exists, the target is
    not the chain of the wallet, the last fetch of the snapshot is at least
    10 s old, and the target has a deployment. *)
Definition starts (w : World) (address : string) (targetChainId : Z)
           (currentChainId : option Z) (lastFetchTime_arg : gmap Z Z) (now : Z) : bool :=
  truthy_string address && truthy_number targetChainId && deploymentsExist w &&
  negb (targetChainId =? Number currentChainId) &&
  negb (now - default 0 (lastFetchTime_arg !! targetChainId) <? 10000) &&
  bool_decide (is_Some (getDeploymentByChainId w targetChainId)).

(** A provider for the chain is cached or can be created. *)
Definition has_provider (w : World) (targetChainId : Z) (u : Ui) : bool :=
  bool_decide (targetChainId ∈ providerCache u) ||
  match rpcUrl w targetChainId with
  | Some url => truthy_string url
  | None => false
  end.

(** The entries [fetchNFTsForChain] builds for the ids whose metadata call
    returns. *)
Definition readable_items (w : World) (chain : Z) (tokenIds : list Z) : list Item :=
  omap (fun id => format_item id <$> getTokenMetadata w chain id) tokenIds.

End NftList.


(** ** More sample listing states *)

Module MoreCacheSamples.
Import MyNFT NftCache CacheSamples.

(** The same account, seen through a node that does not answer the
    listing call. *)
Definition silent_world : World :=
  mkWorld true
          (fun chain => if chain =? 43113 then Some "0xC0FFEE" else None)
          (fun chain => if chain =? 43113 then Some "https://rpc.example" else None)
          (fun chain owner => None)
          (fun chain tokenId => None).

(** Two tokens are listed; the metadata call of the second one fails. *)
Definition half_readable_world : World :=
  mkWorld true
          (fun chain => if chain =? 43113 then Some "0xC0FFEE" else None)
          (fun chain => if chain =? 43113 then Some "https://rpc.example" else None)
          (fun chain owner => if chain =? 43113 then Some [431130000; 431130001] else None)
          (fun chain tokenId =>
             if tokenId =? 431130000 then Some (mint_metadata tokenId 43113 1700000000)
             else None).

(** The node of chain 43113 answers from the ledger [Samples.fuji_one_token],
    account "0xabc" being the account 7 of the ledger. *)
Definition ledger_world : World :=
  mkWorld true
          (fun chain => if chain =? 43113 then Some "0xC0FFEE" else None)
          (fun chain => if chain =? 43113 then Some "https://rpc.example" else None)
          (fun chain owner =>
             Enumerable.answer
               (Enumerable.getTokensByOwner Enumerable.sample_index 7
                                            Samples.fuji_one_token))
          (fun chain tokenId =>
             Enumerable.answer (MyNFT.getTokenMetadata tokenId Samples.fuji_one_token)).

End MoreCacheSamples.


(** ** The wallet helpers, [frontend/src/utils/blockchain.js] *)

Module Blockchain.
Import MyNFT.

(** *** [mintNFT] *)

(** An entry of [receipt.logs]: a log of the NFT contract, or the log of
    another contract, which the interface of the NFT contract cannot
    parse. *)
Inductive ReceiptLog : Type :=
| OwnLog (e : Event)
| ForeignLog.

Definition event_name (e : Event) : string :=
  match e with
  | Transfer _ _ _ => "Transfer"
  | NFTMinted _ _ => "NFTMinted"
  | NFTBridged _ _ _ _ => "NFTBridged"
  | NFTReceived _ _ _ => "NFTReceived"
  end.

(** [contract.interface.parseLog(log)] inside its [try]; [None] is the
    [null] that [filter(Boolean)] drops. [nftABI] declares the [tokenId] of
    [Transfer] as not indexed while the contract's event has it indexed;
    whether the interface parses such a log is left open
    ([transfer_parses]). *)
Definition parseLog (transfer_parses : bool) (log : ReceiptLog) : option Event :=
  match log with
  | OwnLog (Transfer from to tokenId) =>
      if transfer_parses then Some (Transfer from to tokenId) else None
  | OwnLog e => Some e
  | ForeignLog => None
  end.

(** The value of [nftId] after the inner [try] of [mintNFT]: the decimal
    [tokenId] of the first parsed log named [NFTMinted], or [null]. *)
Definition nftId_of_logs (transfer_parses : bool) (logs : list ReceiptLog) : option string :=
  match find (fun event => String.eqb (event_name event) "NFTMinted")
             (omap (parseLog transfer_parses) logs) with
  | Some (NFTMinted _ tokenId) => Some (toString tokenId)
  | _ => None
  end.

(** The logs of the receipt of a transaction that took the ledger from [s]
    to [s']. *)
Definition receipt_logs (s s' : State) : list ReceiptLog :=
  OwnLog <$> drop (length (events s)) (events s').

(** [export async function mintNFT(contract)], for a transaction that is
    sent and mined: the ledger afterwards and the [nftId] of the returned
    object, or [None] when the call throws because [mint()] reverts. *)
Definition mintNFT (transfer_parses : bool) (msg_sender block_timestamp : Z) (s : State)
  : option (State * option string) :=
  match mint msg_sender block_timestamp s with
  | Ok _ s' => Some (s', nftId_of_logs transfer_parses (receipt_logs s s'))
  | Revert _ => None
  end.

(** *** Chain ids in hexadecimal *)

(** A JavaScript number as far as the chain ids go: an integer, or [NaN]. *)
Inductive number : Type :=
| NaN
| Int (n : Z).

(** [n.toString(16)] for a non-negative integer [n]. *)
Definition toString16 (n : Z) : string :=
  HexadecimalString.NilZero.string_of_uint (N.to_hex_uint (Z.to_N n)).

(** [`0x${network.chainId.toString(16)}`] of [switchNetwork]. *)
Definition chainIdHex (chainId : Z) : string := "0x" +:+ toString16 chainId.

Definition hex_value (c : ascii) : option Z :=
  let n := Z.of_nat (nat_of_ascii c) in
  if (48 <=? n) && (n <=? 57) then Some (n - 48)
  else if (97 <=? n) && (n <=? 102) then Some (n - 87)
  else if (65 <=? n) && (n <=? 70) then Some (n - 55)
  else None.

(** The digits of [parseInt]: the longest prefix of hexadecimal digits,
    read from the left. *)
Fixpoint parse_digits (s : string) (acc : number) : number :=
  match s with
  | EmptyString => acc
  | String c rest =>
      match hex_value c with
      | Some d =>
          parse_digits rest (Int (16 * match acc with Int a => a | NaN => 0 end + d))
      | None => acc
      end
  end.

Definition is_space (c : ascii) : bool :=
  let n := nat_of_ascii c in
  ((9 <=? n)%nat && (n <=? 13)%nat) || (n =? 32)%nat.

Fixpoint trim_start (s : string) : string :=
  match s with
  | String c rest => if is_space c then trim_start rest else s
  | EmptyString => EmptyString
  end.

Definition strip_0x (s : string) : string :=
  match s with
  | String "0" (String "x" rest) => rest
  | String "0" (String "X" rest) => rest
  | _ => s
  end.

Definition negate (v : number) : number :=
  match v with
  | Int n => Int (- n)
  | NaN => NaN
  end.

(** [parseInt(string, 16)] on a string of ASCII characters: leading white
    space is skipped, a sign and the prefix [0x] are accepted, and the
    result is [NaN] when no digit follows. The result is exact below
    [2^53]. *)
Definition parseInt16 (s : string) : number :=
  match trim_start s with
  | String "-" rest => negate (parse_digits (strip_0x rest) NaN)
  | String "+" rest => parse_digits (strip_0x rest) NaN
  | rest => parse_digits (strip_0x rest) NaN
  end.

(** [export async function getChainId()]; [ethereum] is the reply of the
    wallet to [eth_chainId] ([Some None]: the request throws), or [None]
    without a wallet. The result [None] is [null]. *)
Definition getChainId (ethereum : option (option string)) : option number :=
  match ethereum with
  | Some (Some chainIdHex) => Some (parseInt16 chainIdHex)
  | Some None => None
  | None => None
  end.

(** *** The network tables *)

(** An entry of [deployments.json]. *)
Record Deployment : Type := mkDeployment {
  d_network : string;
  d_rpcUrl : option string;
  d_blockExplorer : option string
}.

Record NetworkConfig : Type := mkNetwork {
  n_name : string;
  n_chainId : Z;
  n_rpcUrl : string;
  n_blockExplorer : string
}.

(** [obj[key] = value] on an object with string keys: the value of an
    existing key is replaced where it stands, a new key is added at the
    end. *)
Fixpoint obj_set {A} (key : string) (value : A) (obj : list (string * A))
  : list (string * A) :=
  match obj with
  | [] => [(key, value)]
  | (k, v) :: rest =>
      if String.eqb k key then (k, value) :: rest
      else (k, v) :: obj_set key value rest
  end.

Fixpoint obj_get {A} (key : string) (obj : list (string * A)) : option A :=
  match obj with
  | [] => None
  | (k, v) :: rest => if String.eqb k key then Some v else obj_get key rest
  end.

(** The object built for one entry; [x || ''] is [x] or the empty string. *)
Definition network_of (chainIdNum : Z) (deployment : Deployment) : NetworkConfig :=
  mkNetwork (d_network deployment) chainIdNum
            (default EmptyString (d_rpcUrl deployment))
            (default EmptyString (d_blockExplorer deployment)).

(** The module-level [networks], filled by the [forEach] over
    [Object.entries(deploymentsJson)]. The entries are given in the order
    of the iteration, each key already read as a number
    ([parseInt(chainId)]). *)
Definition networks (deploymentsJson : list (Z * Deployment))
  : list (string * NetworkConfig) :=
  fold_left (fun networks entry =>
               obj_set (d_network (snd entry)) (network_of (fst entry) (snd entry)) networks)
            deploymentsJson [].

(** The module-level [networksByChainId]; an entry is the network with
    its [key]. *)
Definition networksByChainId (networks : list (string * NetworkConfig))
  : gmap Z (NetworkConfig * string) :=
  fold_left (fun table entry => <[n_chainId (snd entry) := (snd entry, fst entry)]> table)
            networks ∅.

(** [export function getNetworkByChainId(chainId)]; the argument [None] is
    [null]. *)
Definition getNetworkByChainId (deploymentsJson : list (Z * Deployment))
           (chainId : option Z) : option (NetworkConfig * string) :=
  match chainId with
  | Some chainIdNum =>
      if chainIdNum =? 0 then None
      else networksByChainId (networks deploymentsJson) !! chainIdNum
  | None => None
  end.

(** Two deployments, on the test networks of Avalanche and Base. *)
Definition sample_deployments : list (Z * Deployment) :=
  [(43113, mkDeployment "avalanche-testnet" (Some "https://rpc.example/fuji") None);
   (84532, mkDeployment "base-testnet" None None)].

End Blockchain.


(** ** The submit path of the modal, [handleBridge] of [BridgeModal.jsx] *)

Module BridgeForm.
Import Blockchain.

(** A network as the modal holds it: an entry of [networks] with its key. *)
Definition Net : Type := (string * NetworkConfig)%type.

Definition chainId_of (n : Net) : Z := n_chainId (snd n).

(** The props the application passes ([isOpen], [sourceNetwork],
    [destNetwork], [nftId]), the table [getAllNetworks()] returns, whether
    [window.ethereum] exists, the state of the component that the submit
    path reads or writes (the prop [txHash] stays unset on this path, so
    [localTxHash] is written by [handleBridge] only; the component renders
    nothing unless [isOpen]), the call of [handleBridge] that has not returned
    yet (with the destination it closed over, and whether it is past
    [contract.bridge]), and the calls of [contract.bridge] that returned a
    transaction (destination chain id and token id). *)
Record Form : Type := mkForm {
  isOpen : bool;
  sourceNetwork : option Net;
  destNetwork : option Net;
  nftId : string;
  all_networks : list Net;
  has_ethereum : bool;
  selectedDestNetwork : option Net;
  availableNetworks : list Net;
  bridgeInProgress : bool;
  localTxHash : string;
  errorMessage : string;
  sourceConfirmed : bool;
  sourceConfirmTime : option Z;
  running : option (Net * bool);
  bridge_calls : list (Z * string)
}.

Definition truthy_string (s : string) : bool :=
  match s with EmptyString => false | _ => true end.

(** The effect "load available networks for destination selection". *)
Definition load_networks (f : Form) : Form :=
  match sourceNetwork f with
  | Some source =>
      if isOpen f && negb (truthy_string (localTxHash f)) then
        let networkList :=
          filter (fun network => chainId_of network ≠ chainId_of source) (all_networks f) in
        let selected :=
          match destNetwork f, networkList with
          | Some dest, _ => Some dest
          | None, first :: _ => Some first
          | None, [] => selectedDestNetwork f
          end in
        mkForm (isOpen f) (sourceNetwork f) (destNetwork f) (nftId f) (all_networks f)
               (has_ethereum f) selected networkList (bridgeInProgress f)
               (localTxHash f) (errorMessage f) (sourceConfirmed f)
               (sourceConfirmTime f) (running f) (bridge_calls f)
      else f
  | None => f
  end.

Definition setSelectedDestNetwork (selected : option Net) (f : Form) : Form :=
  mkForm (isOpen f) (sourceNetwork f) (destNetwork f) (nftId f) (all_networks f)
         (has_ethereum f) selected (availableNetworks f) (bridgeInProgress f)
         (localTxHash f) (errorMessage f) (sourceConfirmed f)
         (sourceConfirmTime f) (running f) (bridge_calls f).

(** [handleBridge] up to its first [await]: the guard, the two setters,
    and [onBridgeStart], by which the application stores the selection as
    [destNetwork]. Without [window.ethereum] the function ends there. *)
Definition handleBridge (f : Form) : Form :=
  match sourceNetwork f, selectedDestNetwork f with
  | Some _, Some selected =>
      if negb (truthy_string (nftId f)) || bridgeInProgress f then f
      else
        mkForm (isOpen f) (sourceNetwork f) (Some selected) (nftId f) (all_networks f)
               (has_ethereum f) (selectedDestNetwork f) (availableNetworks f) true
               (localTxHash f) EmptyString (sourceConfirmed f)
               (sourceConfirmTime f)
               (if has_ethereum f then Some (selected, false) else None)
               (bridge_calls f)
  | _, _ => f
  end.

(** After [await contract.bridge(selectedDestNetwork.chainId,
    recipientAddress, nftId)] returned the transaction. *)
Definition bridge_returned (selected : Net) (hash : string) (f : Form) : Form :=
  mkForm (isOpen f) (sourceNetwork f) (destNetwork f) (nftId f) (all_networks f)
         (has_ethereum f) (selectedDestNetwork f) (availableNetworks f)
         (bridgeInProgress f) hash (errorMessage f) (sourceConfirmed f)
         (sourceConfirmTime f) (Some (selected, true))
         (bridge_calls f ++ [(chainId_of selected, nftId f)]).

(** After [await tx.wait()] returned the receipt. *)
Definition receipt_returned (now : Z) (f : Form) : Form :=
  mkForm (isOpen f) (sourceNetwork f) (destNetwork f) (nftId f) (all_networks f)
         (has_ethereum f) (selectedDestNetwork f) (availableNetworks f)
         (bridgeInProgress f) (localTxHash f) (errorMessage f) true
         (Some now) None (bridge_calls f).

(** The [catch] block; [error.message || 'Failed to bridge NFT']. *)
Definition caught (message : string) (f : Form) : Form :=
  mkForm (isOpen f) (sourceNetwork f) (destNetwork f) (nftId f) (all_networks f)
         (has_ethereum f) (selectedDestNetwork f) (availableNetworks f)
         false (localTxHash f)
         (if truthy_string message then message else "Failed to bridge NFT")
         (sourceConfirmed f) (sourceConfirmTime f) None (bridge_calls f).

(** What can happen to an open modal: the effect that loads the networks
    runs; the user picks a destination in the select or on a card, or
    clicks the bridge button; an [await] of the running [handleBridge]
    returns or throws. *)
Inductive Event : Type :=
| LoadNetworks
| DestNetworkChange (networkKey : string)
| NetworkCardSelect (k : nat)
| ClickBridge
| BridgeReturns (hash : string)
| ReceiptReturns (now : Z)
| Throws (message : string).

(** The selection controls and the bridge button are rendered while the
    modal is open and [localTxHash] is not set. *)
Definition setup_shown (f : Form) : bool :=
  isOpen f && negb (truthy_string (localTxHash f)).

Definition handle (e : Event) (f : Form) : Form :=
  match e with
  | LoadNetworks => load_networks f
  | DestNetworkChange networkKey =>
      if setup_shown f
      then setSelectedDestNetwork
             (find (fun network => String.eqb (fst network) networkKey)
                   (availableNetworks f)) f
      else f
  | NetworkCardSelect k =>
      if setup_shown f
      then match availableNetworks f !! k with
           | Some network => setSelectedDestNetwork (Some network) f
           | None => f
           end
      else f
  | ClickBridge =>
      (* [disabled={!selectedDestNetwork || bridgeInProgress}] *)
      if setup_shown f
         && bool_decide (is_Some (selectedDestNetwork f)) && negb (bridgeInProgress f)
      then handleBridge f
      else f
  | BridgeReturns hash =>
      match running f with
      | Some (selected, false) => bridge_returned selected hash f
      | _ => f
      end
  | ReceiptReturns now =>
      match running f with
      | Some (_, true) => receipt_returned now f
      | _ => f
      end
  | Throws message =>
      match running f with
      | Some _ => caught message f
      | None => f
      end
  end.

Definition run_form (evs : list Event) (f : Form) : Form :=
  fold_left (fun f e => handle e f) evs f.

(** The modal as [handleNFTBridgeClick] opens it for a token: no
    destination yet, nothing selected, no transaction. *)
Definition opened (all : list Net) (source : option Net) (id : string) (wallet : bool)
  : Form :=
  mkForm true source None id all wallet None [] false EmptyString EmptyString
         false None None [].

(** A transaction hash is never the empty string. *)
Definition hashes_given (evs : list Event) : Prop :=
  forall hash, In (BridgeReturns hash) evs -> hash ≠ EmptyString.

(** The entries of [networks] for the sample deployments. *)
Definition sample_networks : list Net := networks sample_deployments.

(** The user opens the modal for a token on chain 43113, clicks twice,
    the first transaction is sent, and clicks again. *)
Definition sample_clicks : list Event :=
  [LoadNetworks; ClickBridge; ClickBridge; LoadNetworks; BridgeReturns "0xfeed";
   ClickBridge; ReceiptReturns 1000000; ClickBridge].

(** The modal opened for token 431130000 of chain 43113. *)
Definition sample_form : Form :=
  opened sample_networks
         (Some ("avalanche-testnet",
                mkNetwork "avalanche-testnet" 43113 "https://rpc.example/fuji"
                          EmptyString))
         "431130000" true.

End BridgeForm.


(** ** Where a token comes from *)

Module Provenance.
Import MyNFT Network.

(** The record is the one [mint] stores for the id on the chain in whose
    id range the id lies. *)
Definition genuine (id : Z) (md : NFTMetadata) : Prop :=
  exists t, md = mint_metadata id (id / 10 ^ 4) t.

(** Every token that has an owner somewhere, and every token that travels
    in a message, carries such a record. *)
Definition all_genuine (sys : System) : Prop :=
  (forall c s id, ledgers sys !! c = Some s -> _exists s id = true ->
                  genuine id (metadata_of s id)) /\
  (forall p, p ∈ inflight sys -> genuine (p_nftId (pk_data p)) (p_metadata (pk_data p))).

End Provenance.


(** ** The periodic refresh of [App.jsx] *)

Module App.
Import MyNFT NftCache NftList Blockchain.

(** What the callback of [setInterval] in the mount effect closes over: the
    state variables [address], [chainId], [nftContract] (the reply of its
    [getTokensWithMetadata], see [fetchNFTsForCurrentChain]) and
    [lastFetchTime] as the render that ran the effect saw them. *)
Record Closure : Type := mkClosure {
  address : string;
  chainId : option Z;
  nftContract : option (option (list Z * list NFTMetadata));
  lastFetchTime_seen : gmap Z Z
}.

(** The loop [for (const [, network] of networkEntries)] of the callback.
    The calls are not awaited; each is taken as a whole, in the order in
    which they are started. *)
Fixpoint refresh_networks (w : World) (c : Closure) (chain : Z)
         (networkEntries : list (string * NetworkConfig)) (now : Z) (u : Ui) : Ui :=
  match networkEntries with
  | [] => u
  | (_, network) :: rest =>
      let targetChainId := n_chainId network in
      let u' :=
        if (targetChainId =? chain) && bool_decide (is_Some (nftContract c))
        then fetchNFTsForCurrentChain (nftContract c) (address c) (chainId c) u
        else fetchNFTsForChain w (address c) targetChainId (chainId c)
                               (lastFetchTime_seen c) now u in
      refresh_networks w c chain rest now u'
  end.

(** The callback of "set up periodic NFT refresh (every 60 seconds)". *)
Definition periodic_refresh (w : World) (c : Closure)
           (networks : list (string * NetworkConfig)) (now : Z) (u : Ui) : Ui :=
  match chainId c with
  | Some chain =>
      if truthy_string (address c) && truthy_number chain
      then refresh_networks w c chain networks now u
      else u
  | None => u
  end.

(** The state of the component: the state variables [address], [chainId]
    and [nftContract], the listing state (which holds [lastFetchTime]), and
    the callback that the mount effect gave to [setInterval], with what it
    closed over ([None] until the effect has run). *)
Record State : Type := mkState {
  s_address : string;
  s_chainId : option Z;
  s_nftContract : option (option (list Z * list NFTMetadata));
  s_ui : Ui;
  refresh : option Closure
}.

(** The state of the first render: [useState('')] for [address],
    [useState(null)] for [chainId] and [nftContract], [useState({})] for
    the tables. *)
Definition initial : State :=
  mkState EmptyString None None (mkUi ∅ ∅ ∅ ∅ ∅ [] []) None.

(** What a function created during a render of the state [s] closes
    over. *)
Definition render (s : State) : Closure :=
  mkClosure (s_address s) (s_chainId s) (s_nftContract s) (lastFetchTime (s_ui s)).

(** [useEffect(() => { ...; const intervalId = setInterval(() => {...},
    60000); ... }, [])]: the effect runs after the render of [s] and hands
    the callback of that render to [setInterval]. Its dependency array is
    empty, so it runs after the first render and never again. *)
Definition mount (s : State) : State :=
  mkState (s_address s) (s_chainId s) (s_nftContract s) (s_ui s) (Some (render s)).

(** What happens after the mount: a handler ([setupWallet],
    [handleConnect], [handleWalletEvent], [initNFTContract]) calls one of
    the setters [setAddress], [setChainId], [setNFTContract]; a handler
    calls one of the two fetch functions, with arguments of its own; the
    60 s interval fires. *)
Inductive Event : Type :=
| SetAddress (a : string)
| SetChainId (c : option Z)
| SetNFTContract (contract : option (option (list Z * list NFTMetadata)))
| FetchCurrent (contract : option (option (list Z * list NFTMetadata)))
               (a : string) (c : option Z)
| FetchChain (a : string) (targetChainId : Z) (currentChainId : option Z)
             (lastFetchTime_arg : gmap Z Z) (now : Z)
| RefreshTick (now : Z).

Definition handle (w : World) (networks : list (string * NetworkConfig))
           (e : Event) (s : State) : State :=
  match e with
  | SetAddress a => mkState a (s_chainId s) (s_nftContract s) (s_ui s) (refresh s)
  | SetChainId c => mkState (s_address s) c (s_nftContract s) (s_ui s) (refresh s)
  | SetNFTContract contract =>
      mkState (s_address s) (s_chainId s) contract (s_ui s) (refresh s)
  | FetchCurrent contract a c =>
      mkState (s_address s) (s_chainId s) (s_nftContract s)
              (fetchNFTsForCurrentChain contract a c (s_ui s)) (refresh s)
  | FetchChain a targetChainId currentChainId lastFetchTime_arg now =>
      mkState (s_address s) (s_chainId s) (s_nftContract s)
              (fetchNFTsForChain w a targetChainId currentChainId lastFetchTime_arg
                                 now (s_ui s))
              (refresh s)
  | RefreshTick now =>
      match refresh s with
      | Some callback =>
          mkState (s_address s) (s_chainId s) (s_nftContract s)
                  (periodic_refresh w callback networks now (s_ui s)) (refresh s)
      | None => s
      end
  end.

Definition run_app (w : World) (networks : list (string * NetworkConfig))
           (evs : list Event) (s : State) : State :=
  fold_left (fun s e => handle w networks e s) evs s.

Definition is_tick (e : Event) : bool :=
  match e with RefreshTick _ => true | _ => false end.

(** A wallet connects on chain 84532 after the mount, the lists are
    fetched, and the interval fires twice. *)
Definition sample_session : list Event :=
  [SetAddress "0xabc"; SetChainId (Some 84532);
   FetchChain "0xabc" 43113 (Some 84532) ∅ 50000;
   RefreshTick 60000; RefreshTick 120000].

End App.


(** ** What the event log tells *)

Module EventLog.
Import MyNFT.

Definition minted_id (e : Event) : option Z :=
  match e with
  | NFTMinted _ tokenId => Some tokenId
  | _ => None
  end.

(** The ids of the [NFTMinted] events of a ledger, oldest first. *)
Definition minted_ids (s : State) : list Z := omap minted_id (events s).

Definition bridged (e : Event) : option (Z * Z * Z) :=
  match e with
  | NFTBridged _ tokenId destChainId recipient => Some (tokenId, destChainId, recipient)
  | _ => None
  end.

(** Token, destination and recipient of a message handed to the gateway. *)
Definition sent (p : Packet) : Z * Z * Z :=
  (p_nftId (pk_data p), pk_dest p, p_recipient (pk_data p)).

(** The [NFTBridged] events of a ledger tell what its messages carry. *)
Definition log_matches_outbox (s : State) : Prop :=
  omap bridged (events s) = sent <$> outbox s.

End EventLog.


(** ** The debounce of [fetchNFTsForChain], with completion times *)

Module Debounce.
Import MyNFT NftCache NftList CacheSamples.






End Debounce.


(** ** Timers, and how the modal learns of the source confirmation *)

Module Schedule.






End Schedule.

Module SourceConfirm.
Import BridgeModal.






End SourceConfirm.


(** * Properties *)

Module Base64Facts.
Import Base64.

(** The three paddings, on the usual test text. *)
Example encode_three_bytes : encode "Man" = "TWFu".
Proof. reflexivity. Qed.

Example encode_two_bytes : encode "Ma" = "TWE=".
Proof. reflexivity. Qed.

Example encode_one_byte : encode "M" = "TQ==".
Proof. reflexivity. Qed.

Lemma table_roundtrip i :
  0 <= i < 64 ->
  table_index (table_char i) = Some i /\
  is_pad (table_char i) = false.
Proof.
  intros Hi.
  assert (H : forallb (fun k => let i := Z.of_nat k in
              match table_index (table_char i) with
              | Some j => (j =? i) && negb (is_pad (table_char i))
              | None => false end) (seq 0 64) = true) by (vm_compute; reflexivity).
  rewrite forallb_forall in H.
  specialize (H (Z.to_nat i)). rewrite Z2Nat.id in H by lia.
  cbv zeta in H.
  assert (Hin : In (Z.to_nat i) (seq 0 64)) by (apply in_seq; lia).
  specialize (H Hin).
  destruct (table_index (table_char i)) as [j|]; [|done].
  apply andb_true_iff in H as [H1 H2].
  apply Z.eqb_eq in H1. apply negb_true_iff in H2. by subst.
Qed.

Lemma group3 a b c :
  0 <= a < 256 -> 0 <= b < 256 -> 0 <= c < 256 ->
  let n := a * 65536 + b * 256 + c in
  let s1 := n / 262144 in let s2 := n / 4096 mod 64 in
  let s3 := n / 64 mod 64 in let s4 := n mod 64 in
  (0 <= s1 < 64 /\ 0 <= s2 < 64 /\ 0 <= s3 < 64 /\ 0 <= s4 < 64) /\
  ((s1 * 64 + s2) * 64 + s3) * 64 + s4 = n.
Proof.
  intros Ha Hb Hc n s1 s2 s3 s4. subst n s1 s2 s3 s4.
  Z.div_mod_to_equations; lia.
Qed.


Lemma byte_range c : 0 <= byte c < 256.
Proof.
  unfold byte. pose proof (N_ascii_bounded c). lia.
Qed.

Lemma chr_byte c : chr (byte c) = c.
Proof. unfold chr, byte. by rewrite N2Z.id, ascii_N_embedding. Qed.

Lemma decode_pad1 c1 c2 s1 s2 :
  table_index c1 = Some s1 -> table_index c2 = Some s2 ->
  decode (String c1 (String c2 "==")) =
    Some (String (chr ((s1 * 64 + s2) / 16)) EmptyString).
Proof. intros H1 H2. cbn [decode]. rewrite H1, H2. reflexivity. Qed.

Lemma decode_pad2 c1 c2 c3 s1 s2 s3 :
  table_index c1 = Some s1 -> table_index c2 = Some s2 ->
  table_index c3 = Some s3 -> is_pad c3 = false ->
  decode (String c1 (String c2 (String c3 "="))) =
    Some (String (chr (((s1 * 64 + s2) * 64 + s3) / 1024))
            (String (chr (((s1 * 64 + s2) * 64 + s3) / 4 mod 256)) EmptyString)).
Proof.
  intros H1 H2 H3 Hp. cbn [decode]. rewrite H1, H2, H3, Hp. reflexivity.
Qed.

Lemma decode_full c1 c2 c3 c4 rest s1 s2 s3 s4 tail :
  table_index c1 = Some s1 -> table_index c2 = Some s2 ->
  table_index c3 = Some s3 -> table_index c4 = Some s4 ->
  is_pad c4 = false -> decode rest = Some tail ->
  decode (String c1 (String c2 (String c3 (String c4 rest)))) =
    Some (String (chr ((((s1 * 64 + s2) * 64 + s3) * 64 + s4) / 65536))
            (String (chr ((((s1 * 64 + s2) * 64 + s3) * 64 + s4) / 256 mod 256))
               (String (chr ((((s1 * 64 + s2) * 64 + s3) * 64 + s4) mod 256)) tail))).
Proof.
  intros H1 H2 H3 H4 Hp Hr. cbn [decode]. fold decode.
  rewrite H1, H2, H3, H4, Hp, Hr. reflexivity.
Qed.

Lemma decode_encode_upto (n : nat) :
  forall data, (String.length data <= n)%nat -> decode (encode data) = Some data.
Proof.
  induction n as [n IH] using lt_wf_ind. intros data Hlen.
  destruct data as [|a [|b [|c rest]]].
  - reflexivity.
  - cbn [encode]. cbv zeta.
    pose proof (byte_range a) as Ha.
    set (x := byte a) in *.
    assert (H1 : 0 <= x * 65536 / 262144 < 64) by (Z.div_mod_to_equations; lia).
    assert (H2 : 0 <= x * 65536 / 4096 mod 64 < 64) by (Z.div_mod_to_equations; lia).
    destruct (table_roundtrip _ H1) as [T1 _].
    destruct (table_roundtrip _ H2) as [T2 _].
    rewrite (decode_pad1 _ _ _ _ T1 T2).
    replace ((x * 65536 / 262144 * 64 + x * 65536 / 4096 mod 64) / 16) with x
      by (Z.div_mod_to_equations; lia).
    unfold x. by rewrite chr_byte.
  - cbn [encode]. cbv zeta.
    pose proof (byte_range a) as Ha. pose proof (byte_range b) as Hb.
    set (x := byte a) in *. set (y := byte b) in *.
    set (v := x * 65536 + y * 256).
    assert (H1 : 0 <= v / 262144 < 64) by (unfold v; Z.div_mod_to_equations; lia).
    assert (H2 : 0 <= v / 4096 mod 64 < 64) by (Z.div_mod_to_equations; lia).
    assert (H3 : 0 <= v / 64 mod 64 < 64) by (Z.div_mod_to_equations; lia).
    destruct (table_roundtrip _ H1) as [T1 _].
    destruct (table_roundtrip _ H2) as [T2 _].
    destruct (table_roundtrip _ H3) as [T3 P3].
    rewrite (decode_pad2 _ _ _ _ _ _ T1 T2 T3 P3).
    replace (((v / 262144 * 64 + v / 4096 mod 64) * 64 + v / 64 mod 64) / 1024) with x
      by (unfold v; Z.div_mod_to_equations; lia).
    replace (((v / 262144 * 64 + v / 4096 mod 64) * 64 + v / 64 mod 64) / 4 mod 256) with y
      by (unfold v; Z.div_mod_to_equations; lia).
    unfold x, y. by rewrite !chr_byte.
  - cbn [encode]. cbv zeta.
    pose proof (byte_range a) as Ha. pose proof (byte_range b) as Hb.
    pose proof (byte_range c) as Hc.
    set (x := byte a) in *. set (y := byte b) in *. set (z := byte c) in *.
    destruct (group3 x y z Ha Hb Hc) as ((H1 & H2 & H3 & H4) & Hjoin).
    cbv zeta in *.
    set (v := x * 65536 + y * 256 + z) in *.
    destruct (table_roundtrip _ H1) as [T1 _].
    destruct (table_roundtrip _ H2) as [T2 _].
    destruct (table_roundtrip _ H3) as [T3 _].
    destruct (table_roundtrip _ H4) as [T4 P4].
    assert (Hrest : decode (encode rest) = Some rest).
    { apply (IH (String.length rest)); simpl in *; lia. }
    rewrite (decode_full _ _ _ _ _ _ _ _ _ _ T1 T2 T3 T4 P4 Hrest).
    rewrite Hjoin.
    replace (v / 65536) with x by (unfold v; Z.div_mod_to_equations; lia).
    replace (v / 256 mod 256) with y by (unfold v; Z.div_mod_to_equations; lia).
    replace (v mod 256) with z by (unfold v; Z.div_mod_to_equations; lia).
    unfold x, y, z. by rewrite !chr_byte.
Qed.

(** Decoding an encoded text gives the text back. *)
Lemma decode_encode data : decode (encode data) = Some data.
Proof. by apply (decode_encode_upto (String.length data)). Qed.

End Base64Facts.

Module LedgerFacts.
Import MyNFT Ledger.

Lemma _mint_eq to tokenId s :
  _mint to tokenId s =
    if to =? address0 then Revert "ERC721: mint to the zero address"
    else if _exists s tokenId then Revert "ERC721: token already minted"
    else Ok tt (minted to tokenId s).
Proof.
  evm_unfold. destruct (to =? address0); simpl; [done|].
  destruct (_exists s tokenId); simpl; done.
Qed.

Lemma mint_eq msg_sender block_timestamp s :
  mint msg_sender block_timestamp s =
    if msg_sender =? address0 then Revert "ERC721: mint to the zero address"
    else if _exists s (nextNftId s) then Revert "ERC721: token already minted"
    else if nextNftId s + 1 <=? uint256_max
         then Ok (nextNftId s) (mint_post msg_sender block_timestamp s)
         else Revert "panic: arithmetic overflow".
Proof.
  unfold mint. unfold bind at 1. unfold gets at 1. unfold bind at 1.
  rewrite _mint_eq.
  destruct (msg_sender =? address0); [done|].
  destruct (_exists s (nextNftId s)); [done|].
  evm_unfold. simpl.
  destruct (nextNftId s + 1 <=? uint256_max); done.
Qed.

Lemma bridge_eq msg_sender accepted _destChainId _recipient _nftId s :
  bridge msg_sender accepted _destChainId _recipient _nftId s =
    if negb (isAuthorized s _destChainId)
    then Revert "MessageClient: destination chain not active"
    else if _ownerOf s _nftId =? address0 then Revert "ERC721: invalid token ID"
    else if negb (_ownerOf s _nftId =? msg_sender)
         then Revert "MyNFT: caller is not the owner of the NFT"
    else if negb accepted then Revert "MessageV3: send failed"
    else Ok tt (bridge_post msg_sender _destChainId _recipient _nftId s).
Proof.
  evm_unfold.
  destruct (isAuthorized s _destChainId); simpl; [|done].
  destruct (_ownerOf s _nftId =? address0) eqn:E0; simpl; [done|].
  destruct (_ownerOf s _nftId =? msg_sender); simpl; [|done].
  rewrite E0. simpl.
  destruct accepted; simpl; done.
Qed.

Lemma _processMessage_eq _sourceChainId _data s :
  _processMessage _sourceChainId _data s =
    if p_recipient _data =? address0 then Revert "ERC721: mint to the zero address"
    else if _exists s (p_nftId _data) then Revert "ERC721: token already minted"
    else Ok tt (process_post _sourceChainId _data s).
Proof.
  unfold _processMessage, bind at 1. rewrite _mint_eq.
  destruct (p_recipient _data =? address0); [done|].
  destruct (_exists s (p_nftId _data)); done.
Qed.

Lemma messageProcess_eq _sourceChainId _data s :
  messageProcess _sourceChainId _data s =
    if negb (isAuthorized s _sourceChainId) then Revert "MessageClient: not authorized"
    else _processMessage _sourceChainId _data s.
Proof.
  unfold messageProcess, bind, gets, require, ret, revert.
  destruct (isAuthorized s _sourceChainId); done.
Qed.

Lemma constructor_eq chain deployer :
  constructor chain deployer =
    if chain * 10 ^ 4 <=? uint256_max
    then Ok tt (mkState chain ∅ ∅ (chain * 10 ^ 4) ∅ ∅ deployer [] [])
    else Revert "panic: arithmetic overflow".
Proof.
  unfold constructor. evm_unfold.
  destruct (chain * 10 ^ 4 <=? uint256_max); done.
Qed.

Lemma configureClient_eq msg_sender chain endpoint s :
  configureClient msg_sender chain endpoint s =
    if msg_sender =? MESSAGE_OWNER s then Ok tt (set_chain chain endpoint s)
    else Revert "MessageClient: not authorized".
Proof.
  evm_unfold. destruct (msg_sender =? MESSAGE_OWNER s); done.
Qed.

Lemma _exists_true s tokenId : _exists s tokenId = true <-> _ownerOf s tokenId ≠ address0.
Proof.
  unfold _exists. rewrite negb_true_iff, Z.eqb_neq. done.
Qed.

Lemma _exists_false s tokenId : _exists s tokenId = false <-> _ownerOf s tokenId = address0.
Proof.
  unfold _exists. rewrite negb_false_iff, Z.eqb_eq. done.
Qed.

End LedgerFacts.

Module HistoryFacts.
Import MyNFT Ledger LedgerFacts History.

Lemma call_chainid c s : block_chainid (fst (call c s)) = block_chainid s.
Proof.
  destruct c; simpl; unfold transact.
  - rewrite mint_eq. repeat case_match; simplify_eq; done.
  - rewrite bridge_eq. repeat case_match; simplify_eq; done.
  - rewrite messageProcess_eq, _processMessage_eq.
    repeat case_match; simplify_eq; done.
  - rewrite configureClient_eq. repeat case_match; simplify_eq; done.
Qed.

Lemma call_nextNftId c s :
  nextNftId (fst (call c s)) =
    nextNftId s + (if is_mint c && snd (call c s) then 1 else 0).
Proof.
  destruct c; simpl; unfold transact, succeeds.
  - rewrite mint_eq. repeat case_match; simplify_eq; simpl; lia.
  - rewrite bridge_eq. repeat case_match; simplify_eq; simpl; lia.
  - rewrite messageProcess_eq, _processMessage_eq.
    repeat case_match; simplify_eq; simpl; lia.
  - rewrite configureClient_eq. repeat case_match; simplify_eq; simpl; lia.
Qed.

Lemma run_chainid cs s : block_chainid (run cs s) = block_chainid s.
Proof.
  revert s. induction cs as [|c cs IH]; intros s; simpl; [done|].
  rewrite IH. apply call_chainid.
Qed.

Lemma run_nextNftId cs s : nextNftId (run cs s) = nextNftId s + mints_ok cs s.
Proof.
  revert s. induction cs as [|c cs IH]; intros s; simpl; [lia|].
  rewrite IH, call_nextNftId. lia.
Qed.

Lemma mints_ok_nonneg cs s : 0 <= mints_ok cs s.
Proof.
  revert s. induction cs as [|c cs IH]; intros s; simpl; [lia|].
  specialize (IH (fst (call c s))). case_match; lia.
Qed.

End HistoryFacts.

Module MintFacts.
Import MyNFT Ledger LedgerFacts History HistoryFacts Samples.

Lemma constructor_Ok c d s0 :
  constructor c d = Ok tt s0 ->
  s0 = mkState c ∅ ∅ (c * 10 ^ 4) ∅ ∅ d [] [].
Proof.
  rewrite constructor_eq. case_match; intros; simplify_eq. done.
Qed.

Lemma mint_Ok a t s id s' :
  mint a t s = Ok id s' ->
  a ≠ address0 /\ _exists s (nextNftId s) = false /\
  id = nextNftId s /\ s' = mint_post a t s.
Proof.
  rewrite mint_eq. destruct (a =? address0) eqn:Ea; [done|].
  destruct (_exists s (nextNftId s)); [done|].
  case_match; intros; simplify_eq.
  apply Z.eqb_neq in Ea. done.
Qed.

Lemma ownerOf_minted to tokenId s : _ownerOf (minted to tokenId s) tokenId = to.
Proof.
  unfold _ownerOf, minted. simpl. by rewrite lookup_insert_eq.
Qed.

Lemma ownerOf_mint_post a t s : _ownerOf (mint_post a t s) (nextNftId s) = a.
Proof.
  unfold _ownerOf, mint_post, minted. simpl. by rewrite lookup_insert_eq.
Qed.

Lemma metadata_mint_post a t s :
  metadata_of (mint_post a t s) (nextNftId s) =
    mint_metadata (nextNftId s) (block_chainid s) t.
Proof.
  unfold metadata_of, mint_post, minted. simpl. by rewrite lookup_insert_eq.
Qed.

(** After any history of calls, the next id of a ledger deployed on chain
    [c] is [c * 10^4] plus the number of mints that went through. *)
Lemma nextNftId_after c d s0 cs :
  constructor c d = Ok tt s0 ->
  nextNftId (run cs s0) = c * 10 ^ 4 + mints_ok cs s0 /\
  block_chainid (run cs s0) = c.
Proof.
  intros H%constructor_Ok. subst s0.
  rewrite run_nextNftId, run_chainid. done.
Qed.

(** C4. On a ledger deployed on chain [c], a [mint()] that succeeds after a
    history containing [n] successful mints returns [c * 10^4 + n], makes
    the caller its owner and stores the metadata of that id; the first mint
    on chain 43113 returns 431130000; and two mints on different chains, each
    among the first [10^4] of its chain, never return the same id. *)
Theorem mint_assigns_chain_partitioned_id :
  (forall c d s0 cs a t id s',
      constructor c d = Ok tt s0 ->
      mint a t (run cs s0) = Ok id s' ->
      id = c * 10 ^ 4 + mints_ok cs s0 /\
      _ownerOf s' id = a /\
      metadata_of s' id = mint_metadata id c t /\
      nextNftId s' = c * 10 ^ 4 + (mints_ok cs s0 + 1)) /\
  (forall d a t,
      a ≠ address0 ->
      exists s0 s1,
        constructor 43113 d = Ok tt s0 /\ mint a t s0 = Ok 431130000 s1) /\
  (forall c1 c2 d1 d2 s1 s2 cs1 cs2 a1 t1 a2 t2 id1 id2 s1' s2',
      c1 ≠ c2 ->
      constructor c1 d1 = Ok tt s1 ->
      constructor c2 d2 = Ok tt s2 ->
      mints_ok cs1 s1 < 10 ^ 4 ->
      mints_ok cs2 s2 < 10 ^ 4 ->
      mint a1 t1 (run cs1 s1) = Ok id1 s1' ->
      mint a2 t2 (run cs2 s2) = Ok id2 s2' ->
      id1 ≠ id2).
Proof.
  assert (Hnth : forall c d s0 cs a t id s',
             constructor c d = Ok tt s0 ->
             mint a t (run cs s0) = Ok id s' ->
             id = c * 10 ^ 4 + mints_ok cs s0 /\
             _ownerOf s' id = a /\
             metadata_of s' id = mint_metadata id c t /\
             nextNftId s' = c * 10 ^ 4 + (mints_ok cs s0 + 1)).
  { intros c d s0 cs a t id s' Hc Hm.
    destruct (nextNftId_after c d s0 cs Hc) as [Hn Hch].
    apply mint_Ok in Hm as (_ & _ & -> & ->).
    rewrite ownerOf_mint_post, metadata_mint_post, Hch, Hn.
    repeat split; try done. simpl. lia. }
  split; [exact Hnth|]. split.
  - intros d a t Ha.
    exists (mkState 43113 ∅ ∅ 431130000 ∅ ∅ d [] []).
    eexists. split; [reflexivity|].
    rewrite mint_eq. apply Z.eqb_neq in Ha. rewrite Ha.
    reflexivity.
  - intros c1 c2 d1 d2 s1 s2 cs1 cs2 a1 t1 a2 t2 id1 id2 s1' s2'
           Hne HC1 HC2 Hn1 Hn2 Hm1 Hm2.
    destruct (Hnth _ _ _ _ _ _ _ _ HC1 Hm1) as (-> & _).
    destruct (Hnth _ _ _ _ _ _ _ _ HC2 Hm2) as (-> & _).
    pose proof (mints_ok_nonneg cs1 s1). pose proof (mints_ok_nonneg cs2 s2).
    lia.
Qed.

Lemma mint_assigns_chain_partitioned_id_witness :
  exists s0 s',
    constructor 43113 1 = Ok tt s0 /\
    mint 9 1700000300 (run sample_history s0) = Ok 431130002 s' /\
    431130002 = 43113 * 10 ^ 4 + mints_ok sample_history s0 /\
    _ownerOf s' 431130002 = 9.
Proof.
  exists (mkState 43113 ∅ ∅ 431130000 ∅ ∅ 1 [] []).
  eexists.
  assert (Hc : constructor 43113 1 =
               Ok tt (mkState 43113 ∅ ∅ 431130000 ∅ ∅ 1 [] [])) by reflexivity.
  assert (Hm : mint 9 1700000300
                 (run sample_history (mkState 43113 ∅ ∅ 431130000 ∅ ∅ 1 [] [])) =
               Ok 431130002
                 (mint_post 9 1700000300
                    (run sample_history (mkState 43113 ∅ ∅ 431130000 ∅ ∅ 1 [] []))))
    by (vm_compute; reflexivity).
  destruct (proj1 mint_assigns_chain_partitioned_id _ _ _ _ _ _ _ _ Hc Hm)
    as (Hid & Hown & _).
  split; [exact Hc|]. split; [exact Hm|]. split; [exact Hid|exact Hown].
Defined.

End MintFacts.

Module BridgeFacts.
Import MyNFT Ledger LedgerFacts History HistoryFacts Samples.

Lemma transact_Revert {S A} (m : EVM S A) (s : S) reason :
  m s = Revert reason -> transact m s = (s, None).
Proof. unfold transact. by intros ->. Qed.

Lemma transact_Ok {S A} (m : EVM S A) (s s' : S) (a : A) :
  m s = Ok a s' -> transact m s = (s', Some a).
Proof. unfold transact. by intros ->. Qed.

Lemma bridge_Ok a acc d r i s s' :
  bridge a acc d r i s = Ok tt s' ->
  isAuthorized s d = true /\ _ownerOf s i = a /\ a ≠ address0 /\
  acc = true /\ s' = bridge_post a d r i s.
Proof.
  rewrite bridge_eq.
  destruct (isAuthorized s d); simpl; [|done].
  destruct (_ownerOf s i =? address0) eqn:E0; [done|].
  destruct (_ownerOf s i =? a) eqn:Ea; simpl; [|done].
  destruct acc; simpl; [|done].
  intros; simplify_eq.
  apply Z.eqb_eq in Ea. apply Z.eqb_neq in E0. subst a. done.
Qed.

Lemma ownerOf_burned i s : _ownerOf (burned i s) i = address0.
Proof. unfold _ownerOf, burned. simpl. by rewrite lookup_delete_eq. Qed.

Lemma ownerOf_bridge_post a d r i s : _ownerOf (bridge_post a d r i s) i = address0.
Proof. unfold _ownerOf, bridge_post, burned. simpl. by rewrite lookup_delete_eq. Qed.

(** C2. [bridge] is all-or-nothing. A call by somebody who is not the
    owner of the token, or to a destination that is not an active peer, or
    whose message the gateway refuses, reverts, and the transaction leaves
    the whole state as it was, so the owner and the stored metadata of the
    token are what they were. Whenever the token is burned the message has
    been appended to the gateway's log in the same transaction. *)
Theorem bridge_all_or_nothing :
  forall s a acc d r i,
    (_ownerOf s i ≠ a \/ isAuthorized s d = false \/ acc = false ->
     (exists reason, bridge a acc d r i s = Revert reason) /\
     transact (bridge a acc d r i) s = (s, None) /\
     _ownerOf (fst (transact (bridge a acc d r i) s)) i = _ownerOf s i /\
     metadata_of (fst (transact (bridge a acc d r i) s)) i = metadata_of s i) /\
    (forall s',
        bridge a acc d r i s = Ok tt s' ->
        acc = true /\
        _ownerOf s' i = address0 /\
        outbox s' =
          outbox s ++ [mkPacket (block_chainid s) d (mkPayload r i (metadata_of s i))]) /\
    (fst (transact (bridge a acc d r i) s) = s \/
     exists s', bridge a acc d r i s = Ok tt s').
Proof.
  intros s a acc d r i. split; [|split].
  - intros Hpre.
    assert (Hrev : exists reason, bridge a acc d r i s = Revert reason).
    { rewrite bridge_eq.
      destruct (isAuthorized s d) eqn:Eauth; simpl; [|eauto].
      destruct (_ownerOf s i =? address0) eqn:E0; [eauto|].
      destruct (_ownerOf s i =? a) eqn:Ea; simpl; [|eauto].
      destruct acc; simpl; [|eauto].
      apply Z.eqb_eq in Ea. destruct Hpre as [H|[H|H]]; congruence. }
    destruct Hrev as [reason Hrev].
    rewrite (transact_Revert _ _ _ Hrev). simpl. eauto.
  - intros s' Hok. apply bridge_Ok in Hok as (_ & _ & _ & -> & ->).
    rewrite ownerOf_bridge_post. done.
  - unfold transact. destruct (bridge a acc d r i s) as [[] s'|reason] eqn:E.
    + right. eauto.
    + left. done.
Qed.

(** C10. An inbound message for an id that already exists on the receiving
    ledger makes the handler revert, through the gateway's entry point as
    well, and the transaction leaves the state, hence the owner and the
    metadata of that id, as they were. *)
Theorem duplicate_delivery_reverts :
  forall s src data,
    _exists s (p_nftId data) = true ->
    (exists reason, _processMessage src data s = Revert reason) /\
    (p_recipient data ≠ address0 ->
     _processMessage src data s = Revert "ERC721: token already minted") /\
    (exists reason, messageProcess src data s = Revert reason) /\
    transact (messageProcess src data) s = (s, None) /\
    _ownerOf (fst (transact (messageProcess src data) s)) (p_nftId data) =
      _ownerOf s (p_nftId data) /\
    metadata_of (fst (transact (messageProcess src data) s)) (p_nftId data) =
      metadata_of s (p_nftId data).
Proof.
  intros s src data Hex.
  assert (H1 : exists reason, _processMessage src data s = Revert reason).
  { rewrite _processMessage_eq, Hex. case_match; eauto. }
  assert (H2 : exists reason, messageProcess src data s = Revert reason).
  { rewrite messageProcess_eq. case_match; eauto. }
  split; [exact H1|]. split.
  { intros Hr. rewrite _processMessage_eq, Hex.
    apply Z.eqb_neq in Hr. by rewrite Hr. }
  split; [exact H2|].
  destruct H2 as [reason H2]. rewrite (transact_Revert _ _ _ H2). done.
Qed.

Lemma bridge_all_or_nothing_witness :
  transact (bridge 8 true 84532 8 431130000) fuji_one_token = (fuji_one_token, None) /\
  _ownerOf fuji_one_token 431130000 = 7.
Proof.
  split; [|reflexivity].
  apply (proj1 (bridge_all_or_nothing fuji_one_token 8 true 84532 8 431130000)).
  left. vm_compute. discriminate.
Defined.

Lemma duplicate_delivery_reverts_witness :
  transact (messageProcess 84532 (mkPayload 8 431130000 empty_metadata)) fuji_one_token =
    (fuji_one_token, None).
Proof.
  apply (duplicate_delivery_reverts fuji_one_token 84532
           (mkPayload 8 431130000 empty_metadata)).
  reflexivity.
Defined.

End BridgeFacts.

Module RoundTrip.
Import MyNFT Ledger LedgerFacts History HistoryFacts Samples MintFacts BridgeFacts Moves.

Lemma messageProcess_Ok src data s s' :
  messageProcess src data s = Ok tt s' ->
  isAuthorized s src = true /\ p_recipient data ≠ address0 /\
  _exists s (p_nftId data) = false /\ s' = process_post src data s.
Proof.
  rewrite messageProcess_eq, _processMessage_eq.
  destruct (isAuthorized s src); simpl; [|done].
  destruct (p_recipient data =? address0) eqn:Er; [done|].
  destruct (_exists s (p_nftId data)); [done|].
  intros; simplify_eq. apply Z.eqb_neq in Er. done.
Qed.

Lemma metadata_process_post src data s :
  metadata_of (process_post src data s) (p_nftId data) = p_metadata data.
Proof. unfold metadata_of, process_post. simpl. by rewrite lookup_insert_eq. Qed.

Lemma ownerOf_process_post src data s :
  _ownerOf (process_post src data s) (p_nftId data) = p_recipient data.
Proof. unfold _ownerOf, process_post, minted. simpl. by rewrite lookup_insert_eq. Qed.

Lemma outbox_bridge_post a d r i s :
  outbox (bridge_post a d r i s) =
    outbox s ++ [mkPacket (block_chainid s) d (mkPayload r i (metadata_of s i))].
Proof. reflexivity. Qed.

(** A call that is not a bridge of token [i] leaves an existing token [i]
    with its owner and its metadata. *)
Lemma call_keeps_token c s i :
  _exists s i = true -> bridges i c = false ->
  _ownerOf (fst (call c s)) i = _ownerOf s i /\
  metadata_of (fst (call c s)) i = metadata_of s i.
Proof.
  intros Hex Hnb. destruct c as [a t|a acc d r j|src data|a ch e]; simpl.
  - unfold transact. destruct (mint a t s) as [id s'|] eqn:E; simpl; [|done].
    apply mint_Ok in E as (_ & Hfree & -> & ->).
    assert (nextNftId s ≠ i) by congruence.
    unfold _ownerOf, metadata_of, mint_post, minted. simpl.
    by rewrite !lookup_insert_ne.
  - unfold transact.
    destruct (bridge a acc d r j s) as [[] s'|] eqn:E; simpl; [|done].
    apply bridge_Ok in E as (_ & _ & _ & _ & ->).
    simpl in Hnb. apply Z.eqb_neq in Hnb.
    unfold _ownerOf, metadata_of, bridge_post, burned. simpl.
    by rewrite lookup_delete_ne.
  - unfold transact.
    destruct (messageProcess src data s) as [[] s'|] eqn:E; simpl; [|done].
    apply messageProcess_Ok in E as (_ & _ & Hfree & ->).
    assert (p_nftId data ≠ i) by congruence.
    unfold _ownerOf, metadata_of, process_post, minted. simpl.
    by rewrite !lookup_insert_ne.
  - unfold transact. rewrite configureClient_eq.
    destruct (a =? MESSAGE_OWNER s); done.
Qed.

Lemma run_keeps_token cs s i :
  _exists s i = true -> forallb (fun c => negb (bridges i c)) cs = true ->
  _ownerOf (run cs s) i = _ownerOf s i /\
  metadata_of (run cs s) i = metadata_of s i.
Proof.
  revert s. induction cs as [|c cs IH]; intros s Hex Hall; simpl; [done|].
  simpl in Hall. apply andb_true_iff in Hall as [Hc Hall].
  apply negb_true_iff in Hc.
  destruct (call_keeps_token c s i Hex Hc) as [Ho Hm].
  destruct (IH (fst (call c s))) as [Ho' Hm']; [|done|].
  - apply _exists_true. rewrite Ho. by apply _exists_true.
  - split; congruence.
Qed.

(** C3. Round trip. Token [i] is bridged out of ledger [sA]; the message
    the bridge left in A's outbox is delivered to ledger [sB]; after any
    calls on B that do not bridge [i], B's owner bridges it back; the message
    B left is delivered to A, whatever A did in the meantime. Then A holds
    token [i] again with the metadata it had before the first bridge, and B
    held it in between with the same metadata, [chainId] (the origin chain)
    included. *)
Theorem bridge_round_trip :
  forall sA sB a acc1 cB r i sA1 p1 sB1 csB acc2 cA r' sB2 p2 csA sA2 b,
    bridge a acc1 cB r i sA = Ok tt sA1 ->
    last (outbox sA1) = Some p1 ->
    messageProcess (pk_source p1) (pk_data p1) sB = Ok tt sB1 ->
    forallb (fun c => negb (bridges i c)) csB = true ->
    bridge b acc2 cA r' i (run csB sB1) = Ok tt sB2 ->
    last (outbox sB2) = Some p2 ->
    messageProcess (pk_source p2) (pk_data p2) (run csA sA1) = Ok tt sA2 ->
    p_nftId (pk_data p1) = i /\ p_nftId (pk_data p2) = i /\
    _ownerOf sA1 i = address0 /\
    _ownerOf sB1 i = r /\
    metadata_of sB1 i = metadata_of sA i /\
    metadata_of (run csB sB1) i = metadata_of sA i /\
    chainId (metadata_of (run csB sB1) i) = chainId (metadata_of sA i) /\
    _ownerOf sB2 i = address0 /\
    _ownerOf sA2 i = r' /\
    metadata_of sA2 i = metadata_of sA i.
Proof.
  intros sA sB a acc1 cB r i sA1 p1 sB1 csB acc2 cA r' sB2 p2 csA sA2 b
         Hb1 Hp1 Hd1 HcsB Hb2 Hp2 Hd2.
  apply bridge_Ok in Hb1 as (_ & _ & _ & _ & ->).
  rewrite outbox_bridge_post, last_snoc in Hp1. simplify_eq. simpl in *.
  apply messageProcess_Ok in Hd1 as (_ & Hr & _ & ->).
  set (data1 := mkPayload r i (metadata_of sA i)) in *.
  set (sB1 := process_post (block_chainid sA) data1 sB) in *.
  assert (HexB : _exists sB1 i = true).
  { apply _exists_true. unfold sB1.
    change i with (p_nftId data1). by rewrite ownerOf_process_post. }
  destruct (run_keeps_token csB sB1 i HexB HcsB) as [HoB HmB].
  assert (HmB1 : metadata_of sB1 i = metadata_of sA i).
  { unfold sB1. change i with (p_nftId data1) at 1.
    by rewrite metadata_process_post. }
  assert (HoB1 : _ownerOf sB1 i = r).
  { unfold sB1. change i with (p_nftId data1) at 1.
    by rewrite ownerOf_process_post. }
  apply bridge_Ok in Hb2 as (_ & _ & _ & _ & ->).
  rewrite outbox_bridge_post, last_snoc in Hp2. simplify_eq. simpl in *.
  apply messageProcess_Ok in Hd2 as (_ & _ & _ & ->).
  rewrite ownerOf_bridge_post.
  set (data2 := mkPayload r' i (metadata_of (run csB sB1) i)) in *.
  change i with (p_nftId data2) at 10 11.
  rewrite ownerOf_process_post, metadata_process_post. simpl.
  rewrite ownerOf_bridge_post, HmB, HmB1.
  repeat split; done.
Qed.

Lemma bridge_round_trip_witness :
  metadata_of fuji_after_back 431130000 = metadata_of fuji_one_token 431130000 /\
  _ownerOf fuji_after_back 431130000 = 7 /\
  chainId (metadata_of fuji_one_token 431130000) = 43113.
Proof.
  assert (H1 : bridge 7 true 84532 7 431130000 fuji_one_token = Ok tt fuji_after_out)
    by (vm_compute; reflexivity).
  assert (H2 : last (outbox fuji_after_out) =
               Some (mkPacket 43113 84532
                       (mkPayload 7 431130000 (metadata_of fuji_one_token 431130000))))
    by (vm_compute; reflexivity).
  assert (H3 : messageProcess 43113
                 (mkPayload 7 431130000 (metadata_of fuji_one_token 431130000))
                 base_fresh = Ok tt base_after_in)
    by (vm_compute; reflexivity).
  assert (H4 : forallb (fun c => negb (bridges 431130000 c)) [Mint 9 1700000200] = true)
    by reflexivity.
  assert (H5 : bridge 7 true 43113 7 431130000 (run [Mint 9 1700000200] base_after_in) =
               Ok tt base_after_out)
    by (vm_compute; reflexivity).
  assert (H6 : last (outbox base_after_out) =
               Some (mkPacket 84532 43113
                       (mkPayload 7 431130000 (metadata_of base_after_in 431130000))))
    by (vm_compute; reflexivity).
  assert (H7 : messageProcess 84532
                 (mkPayload 7 431130000 (metadata_of base_after_in 431130000))
                 (run [Mint 7 1700000300] fuji_after_out) = Ok tt fuji_after_back)
    by (vm_compute; reflexivity).
  destruct (bridge_round_trip _ _ _ _ _ _ _ _ _ _ _ _ _ _ _ _ _ _ _
              H1 H2 H3 H4 H5 H6 H7) as (_ & _ & _ & _ & _ & _ & _ & _ & Ho & Hm).
  split; [exact Hm|]. split; [exact Ho|]. reflexivity.
Defined.

End RoundTrip.

Module NetworkFacts.
Import MyNFT Ledger LedgerFacts History HistoryFacts MintFacts BridgeFacts RoundTrip.
Import Network.

Lemma exec_snoc steps st sys : exec (steps ++ [st]) sys = step st (exec steps sys).
Proof. unfold exec. by rewrite fold_left_app. Qed.

Lemma exec_app steps1 steps2 sys :
  exec (steps1 ++ steps2) sys = exec steps2 (exec steps1 sys).
Proof. unfold exec. by rewrite fold_left_app. Qed.

(** *** Which ids exist after each successful call *)

Lemma exists_minted to tokenId s id :
  to ≠ address0 ->
  _exists (minted to tokenId s) id = true <-> id = tokenId \/ _exists s id = true.
Proof.
  intros Hto. rewrite !_exists_true. unfold _ownerOf, minted. simpl.
  destruct (decide (tokenId = id)) as [->|Hne].
  - rewrite lookup_insert_eq. simpl. split; auto.
  - rewrite lookup_insert_ne by done. split; [auto|]. intros [?|?]; congruence.
Qed.

Lemma exists_mint_post a t s id :
  a ≠ address0 ->
  _exists (mint_post a t s) id = true <-> id = nextNftId s \/ _exists s id = true.
Proof. intros Ha. apply (exists_minted a (nextNftId s) s id Ha). Qed.

Lemma exists_process_post src data s id :
  p_recipient data ≠ address0 ->
  _exists (process_post src data s) id = true <->
  id = p_nftId data \/ _exists s id = true.
Proof. intros Hr. apply (exists_minted _ _ s id Hr). Qed.

Lemma exists_bridge_post a d r i s id :
  _exists (bridge_post a d r i s) id = true <-> id ≠ i /\ _exists s id = true.
Proof.
  rewrite !_exists_true. unfold _ownerOf, bridge_post, burned. simpl.
  destruct (decide (i = id)) as [->|Hne].
  - rewrite lookup_delete_eq. simpl. split; [done|]. intros [? _]; done.
  - rewrite lookup_delete_ne by done. split; [auto|]. intros [_ ?]; done.
Qed.

Lemma call_has_effect c s : call_effect s c (fst (call c s)).
Proof.
  destruct c as [a t|a acc d r i|src data|a ch e]; simpl; unfold transact.
  - destruct (mint a t s) as [id s'|] eqn:E; simpl; [|constructor].
    apply mint_Ok in E as (? & ? & -> & ->). by constructor.
  - destruct (bridge a acc d r i s) as [[] s'|] eqn:E; simpl; [|constructor].
    apply bridge_Ok in E as (_ & Ho & Ha & -> & ->). constructor.
    apply _exists_true. congruence.
  - destruct (messageProcess src data s) as [[] s'|] eqn:E; simpl; [|constructor].
    apply messageProcess_Ok in E as (_ & ? & ? & ->). by constructor.
  - rewrite configureClient_eq. destruct (a =? MESSAGE_OWNER s); constructor.
Qed.

Lemma new_packets_same s : new_packets s s = [].
Proof. unfold new_packets. by rewrite drop_all. Qed.

Lemma new_packets_bridge a d r i s :
  new_packets s (bridge_post a d r i s) =
    [mkPacket (block_chainid s) d (mkPayload r i (metadata_of s i))].
Proof.
  unfold new_packets. rewrite outbox_bridge_post.
  by rewrite drop_app_length.
Qed.

(** *** The invariant *)

Lemma owns_insert L F c s' c' id :
  owns (mkSystem (<[c := s']> L) F) c' id =
    if decide (c = c') then _exists s' id else owns (mkSystem L F) c' id.
Proof.
  unfold owns. simpl. case_decide as Hc.
  - subst. by rewrite lookup_insert_eq.
  - by rewrite lookup_insert_ne.
Qed.

Lemma owns_inflight L F F' c id :
  owns (mkSystem L F) c id = owns (mkSystem L F') c id.
Proof. reflexivity. Qed.

Lemma owns_Some sys c s id :
  ledgers sys !! c = Some s -> owns sys c id = _exists s id.
Proof. unfold owns. by intros ->. Qed.

Lemma consistent_init : consistent init.
Proof.
  split; unfold owns, flight_ids, issued; simpl.
  - intros c s H. by rewrite lookup_empty in H.
  - intros c id. by rewrite lookup_empty.
  - intros id H. by apply elem_of_nil in H.
  - intros id c1 c2. by rewrite lookup_empty.
  - intros id c. by rewrite lookup_empty.
  - constructor.
Qed.

(** Ids stay issued when every ledger stays and no counter goes back. *)
Lemma issued_mono sys sys' id :
  (forall c s, ledgers sys !! c = Some s ->
               exists s', ledgers sys' !! c = Some s' /\ nextNftId s <= nextNftId s') ->
  issued sys id -> issued sys' id.
Proof.
  intros Hmono (c & s & Hc & Hr).
  destruct (Hmono c s Hc) as (s' & Hc' & Hle).
  exists c, s'. split; [done|lia].
Qed.

(** Replacing the ledger of chain [c] by one with the same chain id and a
    counter that did not go back keeps the ledgers in step. *)
Lemma ledgers_mono_insert L F F' c s s' :
  L !! c = Some s -> nextNftId s <= nextNftId s' ->
  forall c0 s0, ledgers (mkSystem L F) !! c0 = Some s0 ->
    exists s0', ledgers (mkSystem (<[c := s']> L) F') !! c0 = Some s0' /\
                nextNftId s0 <= nextNftId s0'.
Proof.
  intros Hc Hle c0 s0 H0. simpl in *.
  destruct (decide (c = c0)) as [->|Hne].
  - rewrite lookup_insert_eq. exists s'. split; [done|]. congruence.
  - rewrite lookup_insert_ne by done. exists s0. split; [done|lia].
Qed.

Lemma deploy_consistent sys c d :
  consistent sys -> consistent (step (Deploy c d) sys).
Proof.
  intros Hc. simpl.
  destruct (ledgers sys !! c) eqn:Hl; [done|].
  destruct (constructor c d) as [[] s0|] eqn:Hk; [|done].
  apply constructor_Ok in Hk. subst s0.
  destruct sys as [L F]. simpl in *.
  assert (Hmono : forall c0 s0, ledgers (mkSystem L F) !! c0 = Some s0 ->
            exists s0', ledgers (mkSystem (<[c := mkState c ∅ ∅ (c * 10 ^ 4) ∅ ∅ d [] []]> L) F)
                          !! c0 = Some s0' /\ nextNftId s0 <= nextNftId s0').
  { intros c0 s0 H0. simpl in *. exists s0. split; [|lia].
    rewrite lookup_insert_ne; [done|]. intros ->. congruence. }
  assert (Hown : forall c' id,
             owns (mkSystem (<[c := mkState c ∅ ∅ (c * 10 ^ 4) ∅ ∅ d [] []]> L) F) c' id = true ->
             owns (mkSystem L F) c' id = true).
  { intros c' id. rewrite owns_insert. case_decide; [|done].
    unfold _exists, _ownerOf. simpl. rewrite lookup_empty. done. }
  destruct Hc as [H1 H2 H3 H4 H5 H6]. split.
  - intros c0 s0. simpl. destruct (decide (c = c0)) as [->|Hne].
    + rewrite lookup_insert_eq. intros [= <-]. simpl. lia.
    + rewrite lookup_insert_ne by done. apply H1.
  - intros c' id Ho. eapply issued_mono; [exact Hmono|]. eapply H2, Hown, Ho.
  - intros id Hi. eapply issued_mono; [exact Hmono|]. by apply H3.
  - intros id c1 c2 Ho1 Ho2. eapply H4; eapply Hown; eauto.
  - intros id c' Hi. destruct (owns _ c' id) eqn:E; [|done].
    apply Hown in E. rewrite (H5 id c' Hi) in E. done.
  - exact H6.
Qed.

Lemma NoDup_delete_notin {A} (l : list A) k x :
  NoDup l -> l !! k = Some x -> x ∉ delete k l.
Proof.
  revert k. induction l as [|y l IH]; intros k Hnd Hk; [done|].
  apply NoDup_cons in Hnd as [Hy Hnd].
  destruct k as [|k]; simpl in *.
  - by simplify_eq.
  - intros [->|Hin]%elem_of_cons.
    + apply Hy. eapply list_elem_of_lookup_2. exact Hk.
    + by eapply IH.
Qed.

Lemma NoDup_delete {A} (l : list A) k : NoDup l -> NoDup (delete k l).
Proof. intros H. eapply sublist_NoDup; [exact H|apply sublist_delete]. Qed.

Lemma mint_consistent L F c s a t :
  consistent (mkSystem L F) ->
  L !! c = Some s ->
  a ≠ address0 ->
  within_namespace (mkSystem (<[c := mint_post a t s]> L) F) ->
  consistent (mkSystem (<[c := mint_post a t s]> L) F).
Proof.
  intros [H1 H2 H3 H4 H5 H6] Hc Ha Hns.
  pose proof (ledgers_mono_insert L F F c s (mint_post a t s) Hc) as Hmono.
  specialize (Hmono ltac:(simpl; lia)).
  destruct (H1 c s Hc) as [Hch Hlo].
  assert (Hhi : nextNftId s + 1 <= (c + 1) * 10 ^ 4).
  { specialize (Hns c (mint_post a t s)). simpl in Hns.
    rewrite lookup_insert_eq in Hns. by apply Hns. }
  assert (Hfresh : ~ issued (mkSystem L F) (nextNftId s)).
  { intros (c0 & s0 & Hc0 & Hr0). simpl in Hc0.
    destruct (decide (c0 = c)) as [->|Hne].
    - simplify_eq. lia.
    - specialize (Hns c0 s0). simpl in Hns.
      rewrite lookup_insert_ne in Hns by done. specialize (Hns Hc0). nia. }
  assert (Hown : forall c' id,
             owns (mkSystem (<[c := mint_post a t s]> L) F) c' id = true ->
             (c' = c /\ id = nextNftId s) \/ owns (mkSystem L F) c' id = true).
  { intros c' id. rewrite owns_insert. case_decide as Hd; [|auto].
    subst c'. rewrite exists_mint_post by done. intros [->|Hex]; [auto|].
    right. by rewrite (owns_Some (mkSystem L F) c s id Hc). }
  split.
  - intros c0 s0. simpl. destruct (decide (c = c0)) as [->|Hne].
    + rewrite lookup_insert_eq. intros [= <-]. simpl. split; [done|lia].
    + rewrite lookup_insert_ne by done. apply H1.
  - intros c' id [[-> ->]|Ho]%Hown.
    + exists c, (mint_post a t s). simpl. rewrite lookup_insert_eq.
      split; [done|lia].
    + eapply issued_mono; [exact Hmono|]. by eapply H2.
  - intros id Hi. eapply issued_mono; [exact Hmono|]. by apply H3.
  - intros id c1 c2 [[-> ->]|Ho1]%Hown [[-> Hid]|Ho2]%Hown; try done.
    + exfalso. apply Hfresh. by eapply H2.
    + exfalso. apply Hfresh. subst id. by eapply H2.
    + by eapply H4.
  - intros id c' Hi.
    destruct (owns _ c' id) eqn:E; [|done].
    apply Hown in E as [[-> ->]|Ho].
    + exfalso. apply Hfresh. by apply H3.
    + rewrite (H5 id c' Hi) in Ho. done.
  - exact H6.
Qed.

Lemma bridge_consistent L F c s a d r i :
  consistent (mkSystem L F) ->
  L !! c = Some s ->
  _exists s i = true ->
  consistent
    (mkSystem (<[c := bridge_post a d r i s]> L)
              (F ++ [mkPacket (block_chainid s) d (mkPayload r i (metadata_of s i))])).
Proof.
  intros [H1 H2 H3 H4 H5 H6] Hc Hex.
  set (pkt := mkPacket (block_chainid s) d (mkPayload r i (metadata_of s i))).
  pose proof (ledgers_mono_insert L F (F ++ [pkt]) c s (bridge_post a d r i s) Hc)
    as Hmono.
  specialize (Hmono ltac:(simpl; lia)).
  assert (Hci : owns (mkSystem L F) c i = true)
    by (by rewrite (owns_Some (mkSystem L F) c s i Hc)).
  assert (Hown : forall c' id,
             owns (mkSystem (<[c := bridge_post a d r i s]> L) (F ++ [pkt])) c' id = true ->
             owns (mkSystem L F) c' id = true /\ (c' = c -> id ≠ i)).
  { intros c' id. rewrite owns_insert. case_decide as Hd.
    - subst c'. rewrite exists_bridge_post. intros [Hne Hex'].
      split; [|done]. by rewrite (owns_Some (mkSystem L F) c s id Hc).
    - intros Ho. split; [done|]. intros ->. done. }
  assert (Hids : flight_ids (mkSystem (<[c := bridge_post a d r i s]> L) (F ++ [pkt])) =
                 flight_ids (mkSystem L F) ++ [i]).
  { unfold flight_ids. simpl. by rewrite fmap_app. }
  split.
  - intros c0 s0. simpl. destruct (decide (c = c0)) as [->|Hne].
    + rewrite lookup_insert_eq. intros [= <-]. simpl. by apply H1.
    + rewrite lookup_insert_ne by done. apply H1.
  - intros c' id [Ho _]%Hown. eapply issued_mono; [exact Hmono|]. by eapply H2.
  - intros id. rewrite Hids. intros [Hi|Hi]%elem_of_app.
    + eapply issued_mono; [exact Hmono|]. by apply H3.
    + apply list_elem_of_singleton in Hi as ->.
      eapply issued_mono; [exact Hmono|]. by eapply H2.
  - intros id c1 c2 [Ho1 _]%Hown [Ho2 _]%Hown. by eapply H4.
  - intros id c'. rewrite Hids. intros Hi.
    destruct (owns _ c' id) eqn:E; [|done].
    apply Hown in E as [Ho Hne].
    apply elem_of_app in Hi as [Hi|Hi].
    + rewrite (H5 id c' Hi) in Ho. done.
    + apply list_elem_of_singleton in Hi as ->.
      assert (c' = c) by (by eapply H4). exfalso. by apply Hne.
  - rewrite Hids. apply NoDup_app. split; [done|]. split.
    + intros x Hx ->%list_elem_of_singleton.
      rewrite (H5 i c Hx) in Hci. done.
    + apply NoDup_singleton.
Qed.

Lemma configure_consistent L F c s ch e :
  consistent (mkSystem L F) ->
  L !! c = Some s ->
  consistent (mkSystem (<[c := set_chain ch e s]> L) F).
Proof.
  intros [H1 H2 H3 H4 H5 H6] Hc.
  pose proof (ledgers_mono_insert L F F c s (set_chain ch e s) Hc) as Hmono.
  specialize (Hmono ltac:(simpl; lia)).
  assert (Hown : forall c' id,
             owns (mkSystem (<[c := set_chain ch e s]> L) F) c' id =
             owns (mkSystem L F) c' id).
  { intros c' id. rewrite owns_insert. case_decide as Hd; [|done].
    subst c'. by rewrite (owns_Some (mkSystem L F) c s id Hc). }
  split.
  - intros c0 s0. simpl. destruct (decide (c = c0)) as [->|Hne].
    + rewrite lookup_insert_eq. intros [= <-]. simpl. by apply H1.
    + rewrite lookup_insert_ne by done. apply H1.
  - intros c' id. rewrite Hown. intros Ho.
    eapply issued_mono; [exact Hmono|]. by eapply H2.
  - intros id Hi. eapply issued_mono; [exact Hmono|]. by apply H3.
  - intros id c1 c2. rewrite !Hown. apply H4.
  - intros id c' Hi. rewrite Hown. by apply H5.
  - exact H6.
Qed.

Lemma receive_consistent L F k p s :
  consistent (mkSystem L F) ->
  F !! k = Some p ->
  L !! pk_dest p = Some s ->
  p_recipient (pk_data p) ≠ address0 ->
  consistent
    (mkSystem (<[pk_dest p := process_post (pk_source p) (pk_data p) s]> L) (delete k F)).
Proof.
  intros [H1 H2 H3 H4 H5 H6] Hk Hd Hr.
  set (i := p_nftId (pk_data p)).
  set (s' := process_post (pk_source p) (pk_data p) s).
  pose proof (ledgers_mono_insert L F (delete k F) (pk_dest p) s s' Hd) as Hmono.
  specialize (Hmono ltac:(simpl; lia)).
  assert (Hi : i ∈ flight_ids (mkSystem L F)).
  { unfold flight_ids. simpl. apply list_elem_of_fmap. exists p. split; [done|].
    eapply list_elem_of_lookup_2. exact Hk. }
  assert (Hik : flight_ids (mkSystem L F) !! k = Some i).
  { unfold flight_ids. simpl. by rewrite list_lookup_fmap, Hk. }
  assert (Hids : flight_ids (mkSystem (<[pk_dest p := s']> L) (delete k F)) =
                 delete k (flight_ids (mkSystem L F))).
  { unfold flight_ids. simpl. by rewrite list_fmap_delete. }
  assert (Hown : forall c' id,
             owns (mkSystem (<[pk_dest p := s']> L) (delete k F)) c' id = true ->
             (c' = pk_dest p /\ id = i) \/ owns (mkSystem L F) c' id = true).
  { intros c' id. rewrite owns_insert. case_decide as Hc; [|auto].
    subst c'. unfold s'. rewrite exists_process_post by done.
    intros [->|Hex]; [auto|]. right.
    by rewrite (owns_Some (mkSystem L F) (pk_dest p) s id Hd). }
  split.
  - intros c0 s0. simpl. destruct (decide (pk_dest p = c0)) as [<-|Hne].
    + rewrite lookup_insert_eq. intros [= <-]. simpl. by apply H1.
    + rewrite lookup_insert_ne by done. apply H1.
  - intros c' id [[-> ->]|Ho]%Hown.
    + eapply issued_mono; [exact Hmono|]. by apply H3.
    + eapply issued_mono; [exact Hmono|]. by eapply H2.
  - intros id. rewrite Hids. intros Hin%list_elem_of_delete_inv.
    eapply issued_mono; [exact Hmono|]. by apply H3.
  - intros id c1 c2 [[-> ->]|Ho1]%Hown [[-> Hid]|Ho2]%Hown; try done.
    + rewrite (H5 i c2 Hi) in Ho2. done.
    + subst id. rewrite (H5 i c1 Hi) in Ho1. done.
    + by eapply H4.
  - intros id c'. rewrite Hids. intros Hin.
    destruct (owns _ c' id) eqn:E; [|done].
    apply Hown in E as [[-> ->]|Ho].
    + exfalso. by eapply (NoDup_delete_notin _ k i H6 Hik).
    + apply list_elem_of_delete_inv in Hin. rewrite (H5 id c' Hin) in Ho. done.
  - rewrite Hids. by apply NoDup_delete.
Qed.

Lemma drop_consistent L F k :
  consistent (mkSystem L F) -> consistent (mkSystem L (delete k F)).
Proof.
  intros [H1 H2 H3 H4 H5 H6].
  assert (Hids : flight_ids (mkSystem L (delete k F)) =
                 delete k (flight_ids (mkSystem L F))).
  { unfold flight_ids. simpl. by rewrite list_fmap_delete. }
  split; try done.
  - intros id. rewrite Hids. intros Hin%list_elem_of_delete_inv.
    destruct (H3 id Hin) as (c & s & ? & ?). by exists c, s.
  - intros id c'. rewrite Hids. intros Hin%list_elem_of_delete_inv.
    by apply (H5 id c').
  - rewrite Hids. by apply NoDup_delete.
Qed.

Lemma new_packets_mint a t s : new_packets s (mint_post a t s) = [].
Proof. unfold new_packets. simpl. by rewrite drop_all. Qed.

Lemma new_packets_configure ch e s : new_packets s (set_chain ch e s) = [].
Proof. unfold new_packets. simpl. by rewrite drop_all. Qed.

Lemma invoke_consistent L F c cl s :
  consistent (mkSystem L F) ->
  L !! c = Some s ->
  within_namespace
    (mkSystem (<[c := fst (call cl s)]> L) (F ++ new_packets s (fst (call cl s)))) ->
  (forall src data, cl ≠ Receive src data) ->
  consistent
    (mkSystem (<[c := fst (call cl s)]> L) (F ++ new_packets s (fst (call cl s)))).
Proof.
  intros Hcons Hc Hns Hcl.
  pose proof (call_has_effect cl s) as Heff.
  destruct Heff as [cl|a t Ha Hfree|a d r i Hex|src data Hr Hfree|a ch e].
  - rewrite insert_id by done. by rewrite new_packets_same, app_nil_r.
  - rewrite new_packets_mint, app_nil_r in *. by apply mint_consistent.
  - rewrite new_packets_bridge. by apply bridge_consistent.
  - by destruct (Hcl src data).
  - rewrite new_packets_configure, app_nil_r. by apply configure_consistent.
Qed.

Lemma step_invoke c cl sys s :
  (forall src data, cl ≠ Receive src data) ->
  ledgers sys !! c = Some s ->
  step (Invoke c cl) sys =
    mkSystem (<[c := fst (call cl s)]> (ledgers sys))
             (inflight sys ++ new_packets s (fst (call cl s))).
Proof.
  intros Hcl Hc. destruct cl as [a t|a acc d r i|src data|a ch e];
    try (unfold step; rewrite Hc; reflexivity).
  by destruct (Hcl src data).
Qed.

(** One step keeps the invariant as long as it keeps the ledgers within
    their id ranges. *)
Lemma step_consistent st sys :
  consistent sys -> within_namespace (step st sys) -> consistent (step st sys).
Proof.
  intros Hcons Hns. destruct sys as [L F].
  destruct st as [c d|c cl|k retry].
  - by apply deploy_consistent.
  - destruct (L !! c) as [s|] eqn:Hc.
    + destruct cl as [a t|a acc d r i|src data|a ch e]; [| |done|];
        rewrite (step_invoke c _ (mkSystem L F) s) in * by done;
        apply invoke_consistent; done.
    + destruct cl; simpl; rewrite ?Hc; done.
  - simpl in *. destruct (F !! k) as [p|] eqn:Hk; [|done].
    destruct (L !! pk_dest p) as [s|] eqn:Hd; [|done].
    destruct (messageProcess (pk_source p) (pk_data p) s) as [[] s'|] eqn:Hm.
    + apply messageProcess_Ok in Hm as (_ & Hr & _ & ->).
      by apply receive_consistent.
    + destruct retry; [done|]. by apply drop_consistent.
Qed.

(** No step removes a ledger or turns a counter back. *)
Lemma step_mono st sys c s :
  ledgers sys !! c = Some s ->
  exists s', ledgers (step st sys) !! c = Some s' /\ nextNftId s <= nextNftId s'.
Proof.
  intros Hc. destruct sys as [L F]. simpl in Hc.
  assert (Hsame : exists s', L !! c = Some s' /\ nextNftId s <= nextNftId s')
    by (exists s; split; [done|lia]).
  destruct st as [c0 d|c0 cl|k retry]; simpl.
  - destruct (L !! c0) eqn:H0; [done|].
    destruct (constructor c0 d) as [[] s0|]; [|done]. simpl.
    exists s. split; [|lia]. rewrite lookup_insert_ne; [done|]. congruence.
  - assert (Hgen : exists s',
               ledgers (match L !! c0 with
                        | Some s1 =>
                            mkSystem (<[c0 := fst (call cl s1)]> L)
                                     (F ++ new_packets s1 (fst (call cl s1)))
                        | None => mkSystem L F
                        end) !! c = Some s' /\ nextNftId s <= nextNftId s').
    { destruct (L !! c0) as [s1|] eqn:H0; [|done]. simpl.
      destruct (decide (c0 = c)) as [->|Hne].
      - rewrite lookup_insert_eq. eexists. split; [done|]. simplify_eq.
        rewrite call_nextNftId. case_match; lia.
      - rewrite lookup_insert_ne by done. done. }
    destruct cl; done.
  - destruct (F !! k) as [p|]; [|done].
    destruct (L !! pk_dest p) as [s1|] eqn:Hd; [|done].
    destruct (messageProcess (pk_source p) (pk_data p) s1) as [[] s'|] eqn:Hm.
    + simpl. apply messageProcess_Ok in Hm as (_ & _ & _ & ->).
      destruct (decide (pk_dest p = c)) as [Heq|Hne].
      * rewrite Heq in *. rewrite lookup_insert_eq. eexists. split; [done|].
        simplify_eq. simpl. lia.
      * rewrite lookup_insert_ne by done. done.
    + destruct retry; done.
Qed.

Lemma within_namespace_back st sys :
  within_namespace (step st sys) -> within_namespace sys.
Proof.
  intros Hns c s Hc.
  destruct (step_mono st sys c s Hc) as (s' & Hc' & Hle).
  specialize (Hns c s' Hc'). lia.
Qed.

Lemma reachable_consistent steps :
  within_namespace (exec steps init) -> consistent (exec steps init).
Proof.
  induction steps as [|st steps IH] using rev_ind; intros Hns.
  - apply consistent_init.
  - rewrite exec_snoc in *. apply step_consistent; [|done].
    apply IH. by eapply within_namespace_back.
Qed.

Lemma carried_true sys id : carried sys id = true <-> id ∈ flight_ids sys.
Proof. unfold carried. apply bool_decide_eq_true. Qed.

(** A successful bridge puts the token in flight. *)
Lemma bridge_puts_in_flight sys c s a d r i s' :
  ledgers sys !! c = Some s ->
  bridge a true d r i s = Ok tt s' ->
  carried (step (Invoke c (Bridge a true d r i)) sys) i = true /\
  owns (step (Invoke c (Bridge a true d r i)) sys) c i = false.
Proof.
  intros Hc Hb. simpl. rewrite Hc. unfold transact. rewrite Hb. simpl.
  apply bridge_Ok in Hb as (_ & _ & _ & _ & ->).
  split.
  - apply carried_true. unfold flight_ids. simpl.
    rewrite new_packets_bridge, fmap_app. apply elem_of_app. right.
    simpl. apply list_elem_of_singleton. done.
  - unfold owns. simpl. rewrite lookup_insert_eq.
    apply _exists_false, ownerOf_bridge_post.
Qed.

(** C1, as far as it holds. In every state the system reaches by
    deployments, mints, bridges, peer configuration and message deliveries,
    and in which no ledger has handed out more than the [10^4] ids of its
    chain, a token id has an owner on at most one network, and an id that
    travels in a pending message has an owner on no network. A bridge that
    goes through leaves its token in flight and without owner on the source. *)
Theorem one_owner_within_namespace :
  forall steps,
    within_namespace (exec steps init) ->
    (forall id c1 c2,
        owns (exec steps init) c1 id = true ->
        owns (exec steps init) c2 id = true -> c1 = c2) /\
    (forall id c, carried (exec steps init) id = true ->
                  owns (exec steps init) c id = false) /\
    (forall c s a d r i s',
        ledgers (exec steps init) !! c = Some s ->
        bridge a true d r i s = Ok tt s' ->
        carried (exec (steps ++ [Invoke c (Bridge a true d r i)]) init) i = true /\
        forall c', owns (exec (steps ++ [Invoke c (Bridge a true d r i)]) init) c' i = false).
Proof.
  intros steps Hns.
  pose proof (reachable_consistent steps Hns) as Hcons.
  split; [|split].
  - apply (cons_one_owner _ Hcons).
  - intros id c Hcar. apply (cons_flight _ Hcons). by apply carried_true.
  - intros c s a d r i s' Hc Hb.
    destruct (bridge_puts_in_flight _ c s a d r i s' Hc Hb) as [Hcar Hno].
    rewrite exec_snoc. split; [done|].
    intros c'.
    assert (Hns' : within_namespace (step (Invoke c (Bridge a true d r i)) (exec steps init))).
    { intros c0 s0 H0. rewrite (step_invoke c _ _ s) in H0 by done.
      cbn [ledgers] in H0.
      destruct (decide (c = c0)) as [->|Hne].
      - rewrite lookup_insert_eq in H0. injection H0 as <-.
        change (transact (bridge a true d r i) s).1
          with (call (Bridge a true d r i) s).1.
        rewrite call_nextNftId. specialize (Hns c0 s Hc). simpl. lia.
      - rewrite lookup_insert_ne in H0 by done. by apply Hns. }
    pose proof (step_consistent _ _ Hcons Hns') as Hcons'.
    apply (cons_flight _ Hcons'). by apply carried_true.
Qed.

(** *** Leaving the id range of a chain *)

Lemma exec_cons st steps sys : exec (st :: steps) sys = exec steps (step st sys).
Proof. reflexivity. Qed.

(** [n] mints in a row on a ledger whose ids from the counter upwards are
    all free: every one goes through. *)
Lemma mint_many n :
  forall sys c s a t,
    a ≠ address0 ->
    ledgers sys !! c = Some s ->
    (forall id, nextNftId s <= id -> _exists s id = false) ->
    nextNftId s + Z.of_nat n <= uint256_max ->
    exists s',
      ledgers (exec (repeat (Invoke c (Mint a t)) n) sys) !! c = Some s' /\
      nextNftId s' = nextNftId s + Z.of_nat n /\
      (forall id, nextNftId s <= id < nextNftId s + Z.of_nat n -> _exists s' id = true) /\
      (forall id, _exists s id = true -> _exists s' id = true) /\
      (forall id, nextNftId s' <= id -> _exists s' id = false) /\
      (forall c', c' ≠ c ->
         ledgers (exec (repeat (Invoke c (Mint a t)) n) sys) !! c' = ledgers sys !! c').
Proof.
  induction n as [|n IH]; intros sys c s a t Ha Hc Hfree Hmax.
  - exists s. simpl. repeat split; try done; [lia|intros; lia].
  - cbn [repeat]. rewrite exec_cons.
    assert (Hm : mint a t s = Ok (nextNftId s) (mint_post a t s)).
    { rewrite mint_eq. apply Z.eqb_neq in Ha. rewrite Ha.
      rewrite (Hfree (nextNftId s)) by lia.
      destruct (nextNftId s + 1 <=? uint256_max) eqn:E; [done|].
      apply Z.leb_gt in E. lia. }
    assert (Hstep : step (Invoke c (Mint a t)) sys =
                    mkSystem (<[c := mint_post a t s]> (ledgers sys)) (inflight sys)).
    { rewrite (step_invoke c _ sys s) by done.
      simpl. unfold transact. rewrite Hm. simpl.
      by rewrite new_packets_mint, app_nil_r. }
    rewrite Hstep.
    apply Z.eqb_neq in Ha as Ha'.
    destruct (IH (mkSystem (<[c := mint_post a t s]> (ledgers sys)) (inflight sys))
                c (mint_post a t s) a t) as (s' & H1 & H2 & H3 & H4 & H5 & H6).
    + done.
    + simpl. by rewrite lookup_insert_eq.
    + intros id Hid. simpl in Hid.
      destruct (_exists (mint_post a t s) id) eqn:E; [|done].
      apply exists_mint_post in E; [|done].
      destruct E as [->|E]; [lia|].
      rewrite Hfree in E by lia. done.
    + simpl. lia.
    + exists s'. simpl in *. split; [done|]. split; [lia|]. split; [|split; [|split]].
      * intros id Hid. destruct (decide (id = nextNftId s)) as [->|Hne].
        -- apply H4. apply exists_mint_post; auto.
        -- apply H3. lia.
      * intros id Hex. apply H4. apply exists_mint_post; auto.
      * done.
      * intros c' Hc'. rewrite H6 by done. by rewrite lookup_insert_ne.
Qed.

(** C1, counterexample. Once a ledger leaves the id range of its chain
    two networks can own the same id:
    after 10001 mints on chain 1 and one mint on chain 2, token 20000 has an
    owner on both. *)
Lemma two_owners_after_overflow :
  owns (exec overflow_trace init) 1 20000 = true /\
  owns (exec overflow_trace init) 2 20000 = true.
Proof.
  unfold overflow_trace. rewrite !exec_app.
  set (sys0 := exec [Deploy 1 9; Deploy 2 9] init).
  assert (H1 : ledgers sys0 !! 1 = Some (Samples.deployed 1 9)) by reflexivity.
  assert (H2 : ledgers sys0 !! 2 = Some (Samples.deployed 2 9)) by reflexivity.
  clearbody sys0.
  assert (Hn : Z.of_nat (Z.to_nat 10001) = 10001) by lia.
  destruct (mint_many (Z.to_nat 10001) sys0 1 (Samples.deployed 1 9) 7 1700000000)
    as (s1 & Hs1 & Hnext & Hex & _ & _ & Hother).
  - done.
  - exact H1.
  - intros id _. reflexivity.
  - rewrite Hn. vm_compute. discriminate.
  - rewrite Hn in *.
    set (sys1 := exec (repeat (Invoke 1 (Mint 7 1700000000)) (Z.to_nat 10001)) sys0) in *.
    assert (Hs2 : ledgers sys1 !! 2 = Some (Samples.deployed 2 9))
      by (rewrite Hother by done; exact H2).
    clearbody sys1.
    unfold exec. cbn [fold_left].
    rewrite (step_invoke 2 _ sys1 (Samples.deployed 2 9)) by done.
    unfold owns. cbn [ledgers]. split.
    + rewrite lookup_insert_ne by done. rewrite Hs1.
      apply Hex. simpl. lia.
    + rewrite lookup_insert_eq. reflexivity.
Qed.

Lemma within_namespace_b_true sys :
  within_namespace_b sys = true -> within_namespace sys.
Proof. unfold within_namespace_b. intros H%bool_decide_eq_true. exact H. Qed.

Lemma one_owner_within_namespace_witness :
  owns (exec sample_steps init) 84532 431130000 = true /\
  owns (exec sample_steps init) 43113 431130000 = false /\
  forall c, owns (exec sample_steps init) c 431130000 = true -> c = 84532.
Proof.
  assert (Hns : within_namespace (exec sample_steps init))
    by (apply within_namespace_b_true; vm_compute; reflexivity).
  destruct (one_owner_within_namespace sample_steps Hns) as (Hone & _ & _).
  assert (Ho : owns (exec sample_steps init) 84532 431130000 = true)
    by (vm_compute; reflexivity).
  split; [exact Ho|]. split; [vm_compute; reflexivity|].
  intros c Hc. exact (Hone 431130000 c 84532 Hc Ho).
Defined.

End NetworkFacts.

Module NftCacheFacts.
Import MyNFT NftCache CacheSamples.


(** The time a fetch records is the time read when the call began. *)
Lemma fetch_records_its_start :
  lastFetchTime fetched_once !! 43113 = Some 50000 /\
  rpc fetched_once = [RpcTokensByOwner 43113 "0xabc"; RpcTokenMetadata 43113 431130000].
Proof. vm_compute. done. Qed.

End NftCacheFacts.

Module BridgeScriptFacts.
Import BridgeScript ScriptSamples.

Lemma run_watch_snoc evs e w : run_watch (evs ++ [e]) w = handle e (run_watch evs w).
Proof. unfold run_watch. by rewrite fold_left_app. Qed.

Lemma resolve_promise v w :
  promise (resolve v w) =
    match promise w with Pending => Resolved v | p => p end.
Proof. unfold resolve. destruct (promise w) eqn:E; simpl; congruence. Qed.

Lemma resolve_fields v w :
  timeoutId (resolve v w) = timeoutId w /\
  intervalId (resolve v w) = intervalId w /\
  awaiting_metadata (resolve v w) = awaiting_metadata w /\
  exited (resolve v w) = exited w /\
  recipientAddress (resolve v w) = recipientAddress w.
Proof. unfold resolve. by destruct (promise w). Qed.

(** No handler rejects the promise. *)
Lemma handle_not_rejected e w : promise w ≠ Rejected -> promise (handle e w) ≠ Rejected.
Proof.
  intros Hw. unfold handle. destruct (exited w); [done|].
  destruct e as [now|owner now| | |].
  - destruct (intervalId w); done.
  - destruct (awaiting_owner w); [done|]. unfold after_ownerOf.
    destruct (is_recipient _ _); [done|].
    destruct (_ >? _); [|done].
    rewrite resolve_promise. simpl. by destruct (promise w).
  - destruct (awaiting_metadata w); [done|]. unfold after_metadata.
    rewrite resolve_promise. simpl. by destruct (promise w).
  - destruct (timeoutId w); [|done].
    rewrite resolve_promise. simpl. by destruct (promise w).
  - simpl. rewrite resolve_promise. simpl. by destruct (promise w).
Qed.

Lemma run_not_rejected evs w : promise w ≠ Rejected -> promise (run_watch evs w) ≠ Rejected.
Proof.
  induction evs as [|e evs IH] using rev_ind; intros Hw; [done|].
  rewrite run_watch_snoc. by apply handle_not_rejected, IH.
Qed.

(** A settled promise stays as it is. *)
Lemma handle_keeps_resolved e w v :
  promise w = Resolved v -> promise (handle e w) = Resolved v.
Proof.
  intros Hw. unfold handle. destruct (exited w); [done|].
  destruct e as [now|owner now| | |].
  - by destruct (intervalId w).
  - destruct (awaiting_owner w); [done|]. unfold after_ownerOf.
    destruct (is_recipient _ _); [done|].
    destruct (_ >? _); [|done].
    rewrite resolve_promise. simpl. by rewrite Hw.
  - destruct (awaiting_metadata w); [done|]. unfold after_metadata.
    rewrite resolve_promise. simpl. by rewrite Hw.
  - destruct (timeoutId w); [|done].
    rewrite resolve_promise. simpl. by rewrite Hw.
  - simpl. rewrite resolve_promise. simpl. by rewrite Hw.
Qed.

Lemma handle_undecided e w :
  undecided w ->
  (forall owner now, e = OwnerOfReturns (Some owner) now ->
                     toLowerCase owner ≠ toLowerCase (recipientAddress w)) ->
  undecided (handle e w) /\
  recipientAddress (handle e w) = recipientAddress w /\
  (e = TimeoutFires -> promise (handle e w) = Resolved None).
Proof.
  intros Hu Hne.
  destruct w as [rcp i st tmo p iv tv calls ao am ex].
  unfold undecided in *. simpl in *. destruct Hu as [-> Hst].
  unfold handle. simpl.
  destruct ex as [code|].
  { simpl. destruct Hst as [(_ & _ & ?)| ->]; [done|]. repeat split; first [done|by auto]. }
  destruct e as [now|owner now| | |]; simpl.
  - destruct iv; simpl; repeat split; first [done|by auto].
  - destruct ao as [|ao]; simpl; [repeat split; first [done|by auto]|].
    unfold after_ownerOf.
    assert (Hnot : is_recipient
                     (owner_returned (mkWatch rcp i st tmo p iv tv calls (S ao) 0 None))
                     owner = false).
    { destruct owner as [o|]; [|done]. simpl.
      apply bool_decide_eq_false. by eapply Hne. }
    rewrite Hnot.
    simpl. destruct (now - st >? tmo); simpl; [|repeat split; first [done|by auto]].
    unfold resolve. simpl.
    destruct Hst as [(-> & -> & _)| ->]; simpl; repeat split; first [done|by auto].
  - repeat split; first [done|by auto].
  - destruct tv; simpl.
    + unfold resolve. simpl. destruct Hst as [(-> & _)| ->]; simpl; repeat split; first [done|by auto].
    + destruct Hst as [(_ & ? & _)| ->]; [done|]. repeat split; first [done|by auto].
  - unfold resolve. simpl. destruct Hst as [(-> & _)| ->]; simpl; repeat split; first [done|by auto].
Qed.

Lemma never_recipient_app recipient evs1 evs2 :
  never_recipient recipient (evs1 ++ evs2) ->
  never_recipient recipient evs1 /\ never_recipient recipient evs2.
Proof.
  intros H. split; intros owner now Hin; apply (H owner now), in_or_app; auto.
Qed.

Lemma run_undecided evs w :
  undecided w ->
  never_recipient (recipientAddress w) evs ->
  undecided (run_watch evs w) /\
  recipientAddress (run_watch evs w) = recipientAddress w /\
  (In TimeoutFires evs -> promise (run_watch evs w) = Resolved None).
Proof.
  induction evs as [|e evs IH] using rev_ind; intros Hw Hnever.
  - split; [done|]. split; [done|]. intros [].
  - apply never_recipient_app in Hnever as [Hn1 Hn2].
    destruct (IH Hw Hn1) as (Hu & Hr & Ht).
    rewrite run_watch_snoc.
    destruct (handle_undecided e (run_watch evs w) Hu) as (Hu' & Hr' & Ht').
    { intros owner now ->. rewrite Hr. apply (Hn2 owner now). by left. }
    split; [done|]. split; [congruence|].
    intros [Hin|[He|[]]]%in_app_or.
    + by apply handle_keeps_resolved, Ht.
    + by apply Ht'.
Qed.

End BridgeScriptFacts.

Module WatchFacts.
Import BridgeScript ScriptSamples BridgeScriptFacts.

Lemma start_undecided recipient id timeout_ms now :
  undecided (waitForNFTReceived recipient id timeout_ms now).
Proof. split; [done|]. left. done. Qed.

Lemma bridge_returns r src dst :
  reaches_watch r src dst = true -> bridge r src dst true = inr tt.
Proof.
  unfold reaches_watch, bridge. intros H.
  repeat (apply andb_true_iff in H as [H ?]).
  destruct (getContract r src); [|done].
  destruct (getContract r dst); [|done].
  destruct (source_ownerOf r) as [owner|]; [|done].
  destruct (bool_decide _); [|done].
  destruct (bridge_tx r); [|done].
  destruct (tx_wait r); done.
Qed.

(** C7. The promise of [waitForNFTReceived] is never rejected. When no
    reply of the destination names the recipient, the promise is pending or
    resolved with [null] at every moment, and it is resolved with [null]
    once the timeout timer has fired. A command-line run that got as far as
    the watch exits with status 0 whatever the watch resolved with. *)
Theorem timed_out_watch_resolves_null :
  forall recipient id timeout_ms now evs,
    let w := run_watch evs (waitForNFTReceived recipient id timeout_ms now) in
    promise w ≠ Rejected /\
    (never_recipient recipient evs ->
     (promise w = Pending \/ promise w = Resolved None) /\
     (In TimeoutFires evs -> promise w = Resolved None)) /\
    (forall r src dst tok,
        networks r src = true -> networks r dst = true ->
        reaches_watch r src dst = true ->
        main r (Some src) (Some dst) (Some tok) = 0).
Proof.
  intros recipient id timeout_ms now evs w. split; [|split].
  - apply run_not_rejected. done.
  - intros Hnever.
    destruct (run_undecided evs (waitForNFTReceived recipient id timeout_ms now))
      as ([_ Hst] & _ & Ht).
    + apply start_undecided.
    + exact Hnever.
    + split; [|exact Ht]. destruct Hst as [(? & _)|?]; auto.
  - intros r src dst tok Hs Hd Hreach. unfold main.
    rewrite Hs, Hd. simpl. by rewrite (bridge_returns r src dst Hreach).
Qed.

Lemma timed_out_watch_resolves_null_witness :
  promise (run_watch timed_out_events sample_watch) = Resolved None /\
  main sample_run (Some "avalanche-testnet") (Some "base-testnet") (Some "431130000") = 0.
Proof.
  destruct (timed_out_watch_resolves_null
              "0x00000000000000000000000000000000000000bb" "431130000"
              (5 * 60 * 1000) 0 timed_out_events) as (_ & Hnull & Hexit).
  split.
  - apply Hnull.
    + intros owner now Hin. simpl in Hin.
      repeat (destruct Hin as [Hin|Hin]; [try discriminate|]); [|done].
      injection Hin as <- _. vm_compute. discriminate.
    + simpl. auto 10.
  - apply Hexit; reflexivity.
Defined.


End WatchFacts.

Module BridgeModalFacts.
Import BridgeModal.

Lemma run_modal_snoc evs e m : run_modal (evs ++ [e]) m = handle e (run_modal evs m).
Proof. unfold run_modal. by rewrite fold_left_app. Qed.


End BridgeModalFacts.

Module ReconcilerFacts.
Import MyNFT Ledger LedgerFacts MintFacts Reconciler.

Section Run.

Variable deployer : address.
Variable deploy_address : Z -> nat -> address.
Variable compiled_abi : string.
Variable now : Z.

Local Abbreviation reconcile_one :=
  (reconcile_one deployer deploy_address compiled_abi now).
Local Abbreviation deploy_missing :=
  (deploy_missing deployer deploy_address compiled_abi now).
Local Abbreviation reconcile := (reconcile deployer deploy_address compiled_abi now).
Local Abbreviation configure_instance := (configure_instance deployer).
Local Abbreviation configure_step := (configure_step deployer).
Local Abbreviation configure_all := (configure_all deployer).
Local Abbreviation settled := (settled deployer).

Lemma reconcile_one_keeps w d c r :
  records w !! c = Some r -> records (reconcile_one w d) !! c = Some r.
Proof.
  intros Hc. unfold Reconciler.reconcile_one.
  destruct (records w !! d_chainId d) eqn:Hd; [done|].
  destruct (constructor _ _) as [[] s0|]; [|done]. simpl.
  rewrite lookup_insert_ne; [done|]. congruence.
Qed.

Lemma deploy_missing_keeps targets w c r :
  records w !! c = Some r -> records (deploy_missing w targets) !! c = Some r.
Proof.
  revert w. induction targets as [|d ts IH]; intros w Hc; [done|].
  simpl. apply IH. by apply reconcile_one_keeps.
Qed.

Lemma reconcile_one_settles w d : settled (records (reconcile_one w d)) d.
Proof.
  unfold Reconciler.settled, Reconciler.reconcile_one.
  destruct (records w !! d_chainId d) eqn:Hd; [left; by rewrite Hd|].
  destruct (constructor _ _) as [[] s0|reason] eqn:Hk; [|right; eauto].
  left. simpl. by rewrite lookup_insert_eq.
Qed.

Lemma settled_mono recs recs' d :
  (forall c r, recs !! c = Some r -> recs' !! c = Some r) ->
  settled recs d -> settled recs' d.
Proof.
  intros Hsub [[r Hr]|Hrev]; [left|by right].
  rewrite (Hsub _ _ Hr). done.
Qed.

Lemma deploy_missing_settles targets w d :
  In d targets -> settled (records (deploy_missing w targets)) d.
Proof.
  revert w. induction targets as [|d' ts IH]; intros w; [intros []|].
  intros [->|Hin]; simpl; [|by apply IH].
  eapply settled_mono; [|apply reconcile_one_settles].
  intros c r. apply deploy_missing_keeps.
Qed.

Lemma reconcile_one_settled w d : settled (records w) d -> reconcile_one w d = w.
Proof.
  unfold Reconciler.reconcile_one. intros [[r Hr]|[reason Hrev]].
  - by rewrite Hr.
  - rewrite Hrev. by destruct (records w !! d_chainId d).
Qed.

Lemma deploy_missing_settled targets w :
  (forall d, In d targets -> settled (records w) d) -> deploy_missing w targets = w.
Proof.
  induction targets as [|d ts IH]; intros Hall; [done|].
  simpl. rewrite reconcile_one_settled by (apply Hall; by left).
  apply IH. intros d' Hd'. apply Hall. by right.
Qed.

(** *** Peer configuration *)

Lemma set_chain_same c e s : CHAINS s !! c = Some e -> set_chain c e s = s.
Proof.
  intros H. destruct s. unfold set_chain. simpl in *. f_equal. by apply insert_id.
Qed.

Lemma configure_step_owner a s br : MESSAGE_OWNER (configure_step a s br) = MESSAGE_OWNER s.
Proof.
  unfold Reconciler.configure_step. case_decide; [done|].
  unfold transact. rewrite configureClient_eq.
  by destruct (deployer =? MESSAGE_OWNER s).
Qed.

Lemma configure_step_lookup a s br b :
  b ≠ fst br -> CHAINS (configure_step a s br) !! b = CHAINS s !! b.
Proof.
  intros Hb. unfold Reconciler.configure_step. case_decide; [done|].
  unfold transact. rewrite configureClient_eq.
  destruct (deployer =? MESSAGE_OWNER s); [|done].
  simpl. by rewrite lookup_insert_ne.
Qed.

Lemma configure_step_sets a s b r :
  MESSAGE_OWNER s = deployer -> b ≠ a ->
  CHAINS (configure_step a s (b, r)) !! b = Some (contractAddress r).
Proof.
  intros Ho Hb. unfold Reconciler.configure_step. simpl. rewrite decide_False by done.
  unfold transact. rewrite configureClient_eq, Ho, Z.eqb_refl. simpl.
  by rewrite lookup_insert_eq.
Qed.

Lemma configure_step_id a s br :
  (fst br ≠ a -> MESSAGE_OWNER s = deployer ->
   CHAINS s !! fst br = Some (contractAddress (snd br))) ->
  configure_step a s br = s.
Proof.
  intros H. unfold Reconciler.configure_step. case_decide as Ha; [done|].
  unfold transact. rewrite configureClient_eq.
  destruct (deployer =? MESSAGE_OWNER s) eqn:E; [|done]. simpl.
  apply Z.eqb_eq in E. apply set_chain_same. apply H; done.
Qed.

Lemma fold_configure_owner a l s :
  MESSAGE_OWNER (fold_left (configure_step a) l s) = MESSAGE_OWNER s.
Proof.
  revert s. induction l as [|br l IH]; intros s; [done|].
  simpl. by rewrite IH, configure_step_owner.
Qed.

Lemma fold_configure_other a l s b :
  b ∉ l.*1 -> CHAINS (fold_left (configure_step a) l s) !! b = CHAINS s !! b.
Proof.
  revert s. induction l as [|br l IH]; intros s Hb; [done|].
  simpl in *. apply not_elem_of_cons in Hb as [Hne Hb].
  rewrite IH by done. by apply configure_step_lookup.
Qed.

Lemma fold_configure_sets a l s b r :
  MESSAGE_OWNER s = deployer -> NoDup l.*1 -> (b, r) ∈ l -> b ≠ a ->
  CHAINS (fold_left (configure_step a) l s) !! b = Some (contractAddress r).
Proof.
  revert s. induction l as [|br l IH]; intros s Ho Hnd Hin Hb.
  - by apply elem_of_nil in Hin.
  - simpl in *. apply NoDup_cons in Hnd as [Hfresh Hnd].
    apply elem_of_cons in Hin as [<-|Hin].
    + rewrite fold_configure_other by done. by apply configure_step_sets.
    + apply IH; try done. by rewrite configure_step_owner.
Qed.

Lemma fold_configure_id a l s :
  (forall br, br ∈ l -> fst br ≠ a -> MESSAGE_OWNER s = deployer ->
              CHAINS s !! fst br = Some (contractAddress (snd br))) ->
  fold_left (configure_step a) l s = s.
Proof.
  induction l as [|br l IH]; intros H; [done|].
  simpl. rewrite configure_step_id.
  - apply IH. intros br' Hin. apply H. by right.
  - apply H. by left.
Qed.

Lemma configure_instance_fold recs a s :
  configure_instance recs a s = fold_left (configure_step a) (map_to_list recs) s.
Proof. reflexivity. Qed.

Lemma configure_instance_lookup recs a s b r :
  MESSAGE_OWNER s = deployer -> recs !! b = Some r -> b ≠ a ->
  CHAINS (configure_instance recs a s) !! b = Some (contractAddress r).
Proof.
  intros Ho Hb Hne. rewrite configure_instance_fold.
  apply fold_configure_sets; try done.
  - apply NoDup_fst_map_to_list.
  - by apply elem_of_map_to_list.
Qed.

(** Configuring an instance that is configured changes nothing. *)
Lemma configure_instance_idem recs a s :
  configure_instance recs a (configure_instance recs a s) = configure_instance recs a s.
Proof.
  rewrite (configure_instance_fold recs a (configure_instance recs a s)).
  apply fold_configure_id. intros [b r] Hin Hne Ho. simpl in *.
  rewrite configure_instance_fold, fold_configure_owner in Ho.
  apply configure_instance_lookup; try done.
  by apply elem_of_map_to_list.
Qed.

Lemma configure_all_idem w : configure_all (configure_all w) = configure_all w.
Proof.
  unfold Reconciler.configure_all. simpl. f_equal.
  apply map_eq. intros a. rewrite !map_lookup_imap.
  destruct (instances w !! a) as [s|]; simpl; [|done].
  by rewrite configure_instance_idem.
Qed.

Lemma reconcile_one_operated w d :
  (forall c n, deploy_address c n ≠ address0) ->
  operated deployer w -> operated deployer (reconcile_one w d).
Proof.
  intros Haddr Hop. unfold Reconciler.reconcile_one.
  destruct (records w !! d_chainId d) eqn:Hd; [done|].
  destruct (constructor _ _) as [[] s0|] eqn:Hk; [|done].
  apply constructor_Ok in Hk. subst s0.
  intros c r. simpl. destruct (decide (d_chainId d = c)) as [<-|Hne].
  - rewrite !lookup_insert_eq. intros [= <-]. simpl. split; [apply Haddr|].
    eexists. split; [done|].
    unfold transact.
    destruct (mint deployer now _) as [id s'|] eqn:E; simpl; [|done].
    apply mint_Ok in E as (_ & _ & _ & ->). done.
  - rewrite !lookup_insert_ne by done. apply Hop.
Qed.

Lemma deploy_missing_operated targets w :
  (forall c n, deploy_address c n ≠ address0) ->
  operated deployer w -> operated deployer (deploy_missing w targets).
Proof.
  intros Haddr. revert w. induction targets as [|d ts IH]; intros w Hop; [done|].
  simpl. by apply IH, reconcile_one_operated.
Qed.

Lemma configure_all_complete w :
  operated deployer w -> complete (configure_all w).
Proof.
  intros Hop a b [ra Ha]%elem_of_dom [rb Hb]%elem_of_dom Hne. simpl in *.
  destruct (Hop a ra Ha) as (_ & s & Hs & Ho).
  destruct (Hop b rb Hb) as (Hnz & _).
  exists (configure_instance (records w) a s). split.
  - simpl. rewrite map_lookup_imap, Hs. done.
  - unfold isAuthorized.
    rewrite (configure_instance_lookup (records w) a s b rb) by done.
    simpl. apply negb_true_iff, Z.eqb_neq. done.
Qed.

(** C5. Running the reconciler a second time with the same targets
    deploys nothing, leaves every record (its contract address included) and
    every instance, hence every trust edge, as the first run left them; the
    first run itself keeps the records it found. When the operator owns the
    recorded instances and addresses are non-zero, the trust graph after
    either run is complete. *)
Theorem reconcile_twice :
  forall w targets,
    let w1 := reconcile w targets in
    let w2 := reconcile w1 targets in
    deployed w2 = [] /\
    records w2 = records w1 /\
    instances w2 = instances w1 /\
    nonce w2 = nonce w1 /\
    (forall c r, records w !! c = Some r -> records w1 !! c = Some r) /\
    (forall a b, trusts w2 a b <-> trusts w1 a b) /\
    ((forall c n, deploy_address c n ≠ address0) -> operated deployer w ->
     complete w1 /\ complete w2).
Proof.
  intros w targets w1 w2.
  set (wd := deploy_missing (start_run w) targets).
  assert (H1 : w1 = configure_all wd) by reflexivity.
  assert (Hsettled : forall d, In d targets -> settled (records (start_run w1)) d).
  { intros d Hd. rewrite H1. simpl. by apply deploy_missing_settles. }
  assert (H2 : w2 = configure_all (start_run w1)).
  { unfold w2, Reconciler.reconcile.
    by rewrite (deploy_missing_settled targets (start_run w1) Hsettled). }
  assert (Hrec : records w2 = records w1) by (by rewrite H2).
  assert (Hinst : instances w2 = instances w1).
  { rewrite H2, H1. exact (f_equal instances (configure_all_idem wd)). }
  split; [by rewrite H2|]. split; [exact Hrec|]. split; [exact Hinst|].
  split; [by rewrite H2|]. split; [|split].
  - intros c r Hc. rewrite H1. simpl. by apply deploy_missing_keeps.
  - intros a b. unfold trusts. by rewrite Hinst.
  - intros Haddr Hop.
    assert (Hc1 : complete w1).
    { rewrite H1. apply configure_all_complete.
      by apply deploy_missing_operated. }
    split; [exact Hc1|].
    intros a b Ha Hb Hne. unfold trusts. rewrite Hinst.
    rewrite Hrec in Ha, Hb. by apply Hc1.
Qed.

End Run.

End ReconcilerFacts.

Module ReconcilerExamples.
Import MyNFT Reconciler ReconcilerSamples.

Lemma first_run_deploys_both : deployed first_run = [43113; 84532].
Proof. reflexivity. Qed.

Lemma reconcile_twice_witness :
  deployed second_run = [] /\
  records second_run = records first_run /\
  complete first_run /\ complete second_run.
Proof.
  destruct (ReconcilerFacts.reconcile_twice 1 sample_address "[]" 1700000000
              empty_world sample_targets)
    as (Hd & Hr & _ & _ & _ & _ & Hc).
  split; [exact Hd|]. split; [exact Hr|].
  apply Hc.
  - intros c n. unfold sample_address, address0. lia.
  - intros c r Hc'. simpl in Hc'. by rewrite lookup_empty in Hc'.
Defined.

End ReconcilerExamples.

Module JsonFacts.
Import MyNFT Json.

Lemma string_app_assoc (a b c : string) : (a +:+ b) +:+ c = a +:+ (b +:+ c).
Proof.
  induction a as [|x a IH]; [done|].
  change (String x ((a +:+ b) +:+ c) = String x (a +:+ (b +:+ c))).
  by rewrite IH.
Qed.

Lemma app_cons x (a b : string) : String x a +:+ b = String x (a +:+ b).
Proof. reflexivity. Qed.

Lemma app_nil (b : string) : EmptyString +:+ b = b.
Proof. reflexivity. Qed.

Lemma escape_char_plain c : plain_char c = true -> escape_char c = String c EmptyString.
Proof.
  unfold plain_char, escape_char.
  intros [[H1 H2]%andb_true_iff H3]%andb_true_iff.
  apply negb_true_iff in H1, H2, H3. by rewrite H1, H2, H3.
Qed.

(** A plain string is its own escape. *)
Lemma escape_plain s : plain s = true -> escape s = s.
Proof.
  induction s as [|c s IH]; simpl; [done|].
  intros [Hc Hs]%andb_true_iff. rewrite escape_char_plain, IH by done.
  reflexivity.
Qed.

Lemma plain_digits d : plain (NilEmpty.string_of_uint d) = true.
Proof. induction d; simpl; done. Qed.

(** Decimal strings are plain. *)
Lemma plain_toString v : plain (toString v) = true.
Proof.
  unfold toString, NilZero.string_of_uint.
  destruct (N.to_uint (Z.to_N v)); try apply plain_digits. done.
Qed.

Lemma plain_app a b : plain (a +:+ b) = plain a && plain b.
Proof.
  induction a as [|c a IH]; [done|].
  rewrite app_cons. simpl. by rewrite IH, andb_assoc.
Qed.

(** The metadata [mint] writes is plain. *)
Lemma plain_mint_metadata tokenId chain timestamp :
  plain_metadata (mint_metadata tokenId chain timestamp) = true.
Proof.
  unfold plain_metadata, mint_metadata. simpl name. simpl description. simpl image.
  rewrite plain_app, plain_toString. reflexivity.
Qed.

(** For plain metadata the text [tokenURI] encodes is the compact JSON text
    of the document the specification describes. *)
Lemma tokenURI_document_is_json metadata :
  plain_metadata metadata = true ->
  tokenURI_document metadata = render (metadata_document metadata).
Proof.
  unfold plain_metadata.
  intros [[Hn Hd]%andb_true_iff Hi]%andb_true_iff.
  unfold tokenURI_document, metadata_document.
  cbn [render map join fst snd]. unfold quoted.
  rewrite !escape_plain by (first [reflexivity | assumption | apply plain_toString]).
  repeat (first [rewrite string_app_assoc | rewrite app_cons | rewrite app_nil]).
  reflexivity.
Qed.

End JsonFacts.

Module TokenUriFacts.
Import MyNFT Ledger LedgerFacts History HistoryFacts MintFacts BridgeFacts RoundTrip.
Import Network NetworkFacts Json JsonFacts.

Lemma tokenURI_eq tokenId s :
  tokenURI tokenId s =
    if _exists s tokenId
    then Ok ("data:application/json;base64," +:+
             Base64.encode (tokenURI_document (metadata_of s tokenId))) s
    else Revert "ERC721Metadata: URI query for nonexistent token".
Proof.
  unfold tokenURI, bind, gets, require, ret, revert.
  destruct (_exists s tokenId); done.
Qed.

Lemma metadata_of_plain s id : stored_plain s -> plain_metadata (metadata_of s id) = true.
Proof.
  intros Hs. unfold metadata_of.
  destruct (_tokenMetadata s !! id) as [md|] eqn:E; simpl; [by eapply Hs|done].
Qed.

Lemma stored_plain_insert s id md s' :
  stored_plain s -> plain_metadata md = true ->
  _tokenMetadata s' = <[id := md]> (_tokenMetadata s) ->
  stored_plain s'.
Proof.
  intros Hs Hmd Heq id' md'. rewrite Heq.
  destruct (decide (id = id')) as [->|Hne].
  - rewrite lookup_insert_eq. by intros [= <-].
  - rewrite lookup_insert_ne by done. apply Hs.
Qed.

(** A call keeps the stored metadata plain; a message a bridge sends
    carries plain metadata. *)
Lemma call_effect_plain s cl s' :
  call_effect s cl s' ->
  stored_plain s ->
  (forall src data, cl = Receive src data -> plain_metadata (p_metadata data) = true) ->
  stored_plain s' /\
  (forall p, p ∈ new_packets s s' -> plain_metadata (p_metadata (pk_data p)) = true).
Proof.
  intros Heff Hs Hrecv.
  destruct Heff as [cl|a t Ha Hfree|a d r i Hex|src data Hr Hfree|a ch e].
  - split; [done|]. rewrite new_packets_same. by intros p ?%elem_of_nil.
  - split.
    + eapply stored_plain_insert; [exact Hs|apply plain_mint_metadata|reflexivity].
    + rewrite new_packets_mint. by intros p ?%elem_of_nil.
  - split; [exact Hs|].
    rewrite new_packets_bridge. intros p ->%list_elem_of_singleton. simpl.
    by apply metadata_of_plain.
  - split.
    + eapply stored_plain_insert; [exact Hs|by eapply Hrecv|reflexivity].
    + unfold new_packets. simpl. rewrite drop_all. by intros p ?%elem_of_nil.
  - split; [exact Hs|]. rewrite new_packets_configure. by intros p ?%elem_of_nil.
Qed.

Lemma all_plain_insert L F F' c s' :
  all_plain (mkSystem L F) -> stored_plain s' ->
  (forall p, p ∈ F' -> plain_metadata (p_metadata (pk_data p)) = true) ->
  all_plain (mkSystem (<[c := s']> L) F').
Proof.
  intros [HL HF] Hs' HF'. split; [|exact HF'].
  intros c0 s0. simpl. destruct (decide (c = c0)) as [->|Hne].
  - rewrite lookup_insert_eq. by intros [= <-].
  - rewrite lookup_insert_ne by done. apply HL.
Qed.

Lemma invoke_plain L F c cl s :
  all_plain (mkSystem L F) ->
  L !! c = Some s ->
  (forall src data, cl ≠ Receive src data) ->
  all_plain (mkSystem (<[c := fst (call cl s)]> L)
                      (F ++ new_packets s (fst (call cl s)))).
Proof.
  intros [HL HF] Hc Hcl.
  destruct (call_effect_plain s cl _ (call_has_effect cl s) (HL c s Hc)) as [Hs' Hp].
  { intros src data ->. by destruct (Hcl src data). }
  apply (all_plain_insert L F); [done|done|].
  intros p [Hin|Hin]%elem_of_app; [by apply HF|by apply Hp].
Qed.

Lemma step_plain st sys : all_plain sys -> all_plain (step st sys).
Proof.
  intros Hall. destruct sys as [L F]. pose proof Hall as [HL HF].
  destruct st as [c d|c cl|k retry].
  - simpl. destruct (L !! c) eqn:Hc; [done|].
    destruct (constructor c d) as [[] s0|] eqn:Hk; [|done].
    apply constructor_Ok in Hk. subst s0.
    apply (all_plain_insert L F); [done| |done].
    intros id md. simpl. by rewrite lookup_empty.
  - destruct (L !! c) as [s|] eqn:Hc.
    + destruct cl as [a t|a acc d r i|src data|a ch e]; [| |done|];
        rewrite (step_invoke c _ (mkSystem L F) s) by done; by apply invoke_plain.
    + destruct cl; simpl; rewrite ?Hc; done.
  - simpl. destruct (F !! k) as [p|] eqn:Hk; [|done].
    destruct (L !! pk_dest p) as [s|] eqn:Hd; [|done].
    assert (Hdel : forall q, q ∈ delete k F ->
                             plain_metadata (p_metadata (pk_data q)) = true).
    { intros q Hq%list_elem_of_delete_inv. by apply HF. }
    destruct (messageProcess (pk_source p) (pk_data p) s) as [[] s'|] eqn:Hm.
    + apply messageProcess_Ok in Hm as (_ & Hr & _ & ->).
      apply (all_plain_insert L F); [done| |done].
      eapply stored_plain_insert; [by eapply HL| |reflexivity].
      apply HF. eapply list_elem_of_lookup_2. exact Hk.
    + destruct retry; [done|]. split; [exact HL|exact Hdel].
Qed.

Lemma reachable_plain steps : all_plain (exec steps init).
Proof.
  induction steps as [|st steps IH] using rev_ind.
  - split; simpl.
    + intros c s. by rewrite lookup_empty.
    + by intros p ?%elem_of_nil.
  - rewrite exec_snoc. by apply step_plain.
Qed.

(** C6. On every ledger the system reaches, [tokenURI] of an existing
    token returns "data:application/json;base64," followed by the Base64
    encoding of the JSON object with the token's name, description and
    image and an attributes array of exactly two entries, "Origin Chain" and
    "Minted At", whose values are the stored chain id and mint time in
    decimal; decoding the Base64 text gives that JSON text back. For an id
    without owner the call reverts. *)
Theorem tokenURI_is_base64_json :
  forall steps c s tokenId,
    ledgers (exec steps init) !! c = Some s ->
    (_exists s tokenId = true ->
     tokenURI tokenId s =
       Ok ("data:application/json;base64," +:+
           Base64.encode (render (metadata_document (metadata_of s tokenId)))) s /\
     Base64.decode (Base64.encode (render (metadata_document (metadata_of s tokenId)))) =
       Some (render (metadata_document (metadata_of s tokenId)))) /\
    (_exists s tokenId = false ->
     tokenURI tokenId s = Revert "ERC721Metadata: URI query for nonexistent token").
Proof.
  intros steps c s tokenId Hc. split.
  - intros Hex. rewrite tokenURI_eq, Hex.
    destruct (reachable_plain steps) as [HL _].
    rewrite (tokenURI_document_is_json (metadata_of s tokenId))
      by (apply metadata_of_plain; by eapply HL).
    split; [done|]. apply Base64Facts.decode_encode.
  - intros Hex. by rewrite tokenURI_eq, Hex.
Qed.

Lemma tokenURI_is_base64_json_witness :
  _exists base_with_token 431130000 = true /\
  tokenURI 431130000 base_with_token =
    Ok ("data:application/json;base64," +:+
        Base64.encode (render (metadata_document (metadata_of base_with_token 431130000))))
       base_with_token /\
  tokenURI 431130001 base_with_token =
    Revert "ERC721Metadata: URI query for nonexistent token".
Proof.
  assert (Hc : ledgers (exec sample_steps init) !! 84532 = Some base_with_token)
    by (vm_compute; reflexivity).
  assert (Hex : _exists base_with_token 431130000 = true) by (vm_compute; reflexivity).
  split; [exact Hex|]. split.
  - exact (proj1 (proj1 (tokenURI_is_base64_json sample_steps 84532 base_with_token
                           431130000 Hc) Hex)).
  - apply (proj2 (tokenURI_is_base64_json sample_steps 84532 base_with_token
                    431130001 Hc)).
    vm_compute. reflexivity.
Defined.

End TokenUriFacts.

Module TokenLifeFacts.
Import MyNFT Ledger LedgerFacts History HistoryFacts Samples MintFacts BridgeFacts.
Import RoundTrip Moves TokenUriFacts Enumerable MoreSamples.

Lemma getTokenMetadata_eq i s :
  getTokenMetadata i s =
    if _exists s i then Ok (metadata_of s i) s
    else Revert "MyNFT: token does not exist".
Proof. evm_unfold. destruct (_exists s i); done. Qed.

Lemma ownerOf_eq i s :
  ownerOf i s =
    if _exists s i then Ok (_ownerOf s i) s else Revert "ERC721: invalid token ID".
Proof.
  evm_unfold. unfold _exists. destruct (_ownerOf s i =? address0); done.
Qed.

Lemma exists_bridged a d r i s : _exists (bridge_post a d r i s) i = false.
Proof. apply _exists_false, ownerOf_bridge_post. Qed.

(** X1. Once [bridge] has gone through, the token cannot be read on the
    source ledger any more: [ownerOf], [getTokenMetadata] and [tokenURI]
    revert for its id, although the metadata mapping still holds the
    record, which [bridge] does not delete. *)
Theorem bridged_token_is_unreadable :
  forall s a acc d r i s',
    bridge a acc d r i s = Ok tt s' ->
    ownerOf i s' = Revert "ERC721: invalid token ID" /\
    getTokenMetadata i s' = Revert "MyNFT: token does not exist" /\
    tokenURI i s' = Revert "ERC721Metadata: URI query for nonexistent token" /\
    _tokenMetadata s' = _tokenMetadata s.
Proof.
  intros s a acc d r i s' H. apply bridge_Ok in H as (_ & _ & _ & _ & ->).
  rewrite ownerOf_eq, getTokenMetadata_eq, tokenURI_eq, exists_bridged. done.
Qed.

Lemma bridged_token_is_unreadable_witness :
  getTokenMetadata 431130000 fuji_after_out = Revert "MyNFT: token does not exist" /\
  _tokenMetadata fuji_after_out !! 431130000 =
    Some (mint_metadata 431130000 43113 1700000000).
Proof.
  assert (H : bridge 7 true 84532 7 431130000 fuji_one_token = Ok tt fuji_after_out)
    by (vm_compute; reflexivity).
  destruct (bridged_token_is_unreadable _ _ _ _ _ _ _ H) as (_ & Hm & _ & Hs).
  split; [exact Hm|]. rewrite Hs. vm_compute. reflexivity.
Defined.

(** X2. [bridge] does not look at the recipient. A bridge to the zero
    address goes through on the source ledger, which burns the token, and
    the message it leaves is refused by the handler of every ledger in
    every state: the token has no owner anywhere afterwards. *)
Theorem bridge_to_zero_address_is_lost :
  forall s a acc d i s',
    bridge a acc d address0 i s = Ok tt s' ->
    _ownerOf s' i = address0 /\
    exists p,
      last (outbox s') = Some p /\
      pk_dest p = d /\ p_nftId (pk_data p) = i /\
      forall sB src,
        _processMessage src (pk_data p) sB = Revert "ERC721: mint to the zero address" /\
        (exists reason, messageProcess src (pk_data p) sB = Revert reason) /\
        fst (transact (messageProcess src (pk_data p)) sB) = sB.
Proof.
  intros s a acc d i s' H. apply bridge_Ok in H as (_ & _ & _ & _ & ->).
  split; [apply ownerOf_bridge_post|].
  eexists. split; [rewrite outbox_bridge_post; apply last_snoc|].
  simpl. split; [done|]. split; [done|].
  intros sB src.
  assert (Hp : _processMessage src (mkPayload address0 i (metadata_of s i)) sB =
               Revert "ERC721: mint to the zero address").
  { rewrite _processMessage_eq. done. }
  assert (Hm : exists reason,
             messageProcess src (mkPayload address0 i (metadata_of s i)) sB = Revert reason).
  { rewrite messageProcess_eq, Hp. case_match; eauto. }
  split; [exact Hp|]. split; [exact Hm|].
  destruct Hm as [reason Hm]. by rewrite (transact_Revert _ _ _ Hm).
Qed.

Lemma bridge_to_zero_address_is_lost_witness :
  bridge 7 true 84532 address0 431130000 fuji_one_token = Ok tt fuji_after_zero_bridge /\
  _ownerOf fuji_after_zero_bridge 431130000 = address0.
Proof.
  assert (H : bridge 7 true 84532 address0 431130000 fuji_one_token =
              Ok tt fuji_after_zero_bridge)
    by (vm_compute; reflexivity).
  split; [exact H|].
  exact (proj1 (bridge_to_zero_address_is_lost _ _ _ _ _ _ H)).
Defined.

Lemma mint_blocked a t s :
  _exists s (nextNftId s) = true -> succeeds (mint a t) s = false.
Proof.
  intros H. unfold succeeds. rewrite mint_eq, H. by destruct (a =? address0).
Qed.

Lemma call_blocked c s :
  _exists s (nextNftId s) = true -> bridges (nextNftId s) c = false ->
  nextNftId (fst (call c s)) = nextNftId s /\
  _exists (fst (call c s)) (nextNftId s) = true.
Proof.
  intros Hex Hnb. split.
  - rewrite call_nextNftId.
    destruct c; simpl; try lia. rewrite (mint_blocked _ _ _ Hex). simpl. lia.
  - apply _exists_true.
    rewrite (proj1 (call_keeps_token c s _ Hex Hnb)). by apply _exists_true.
Qed.

Lemma run_blocked cs s :
  _exists s (nextNftId s) = true ->
  forallb (fun c => negb (bridges (nextNftId s) c)) cs = true ->
  nextNftId (run cs s) = nextNftId s /\
  _exists (run cs s) (nextNftId s) = true.
Proof.
  revert s. induction cs as [|c cs IH]; intros s Hex Hall; simpl; [done|].
  simpl in Hall. apply andb_true_iff in Hall as [Hc Hall].
  apply negb_true_iff in Hc.
  destruct (call_blocked c s Hex Hc) as [Hn Hex'].
  destruct (IH (fst (call c s))) as [Hn' Hex''].
  - by rewrite Hn.
  - by rewrite Hn.
  - rewrite Hn in Hn', Hex''. done.
Qed.

(** X3. [mint] does not skip an id that is taken. While the id
    [nextNftId] has an owner on a ledger (it arrived in a message), every
    [mint] reverts and [nextNftId] stays where it is, through any calls that
    do not bridge that id away. *)
Theorem taken_next_id_blocks_every_mint :
  forall s cs a t,
    _exists s (nextNftId s) = true ->
    forallb (fun c => negb (bridges (nextNftId s) c)) cs = true ->
    (exists reason, mint a t (run cs s) = Revert reason) /\
    (a ≠ address0 -> mint a t (run cs s) = Revert "ERC721: token already minted") /\
    nextNftId (run cs s) = nextNftId s /\
    mints_ok cs s = 0.
Proof.
  intros s cs a t Hex Hall.
  destruct (run_blocked cs s Hex Hall) as [Hn Hex'].
  rewrite <- Hn in Hex'.
  assert (Hrev : exists reason, mint a t (run cs s) = Revert reason).
  { rewrite mint_eq, Hex'. destruct (a =? address0); eauto. }
  split; [exact Hrev|]. split; [|split; [exact Hn|]].
  - intros Ha. apply Z.eqb_neq in Ha. by rewrite mint_eq, Hex', Ha.
  - pose proof (run_nextNftId cs s). lia.
Qed.

Lemma taken_next_id_blocks_every_mint_witness :
  nextNftId chain2_with_foreign_first_id = 20000 /\
  mint 8 1700000050 (run [Mint 8 1700000001; Configure 9 3 501] chain2_with_foreign_first_id) =
    Revert "ERC721: token already minted".
Proof.
  split; [reflexivity|].
  apply (taken_next_id_blocks_every_mint chain2_with_foreign_first_id
           [Mint 8 1700000001; Configure 9 3 501] 8 1700000050).
  - vm_compute. reflexivity.
  - vm_compute. reflexivity.
  - vm_compute. discriminate.
Defined.

(** X4. A ledger never hands out an id twice: the id a [mint] returns is
    greater than the id any earlier [mint] on the same ledger returned,
    whatever was called in between. *)
Theorem minted_ids_strictly_increase :
  forall s a t id s1 cs a' t' id' s2,
    mint a t s = Ok id s1 ->
    mint a' t' (run cs s1) = Ok id' s2 ->
    id < id'.
Proof.
  intros s a t id s1 cs a' t' id' s2 H1 H2.
  apply mint_Ok in H1 as (_ & _ & -> & ->).
  apply mint_Ok in H2 as (_ & _ & -> & _).
  rewrite run_nextNftId.
  pose proof (mints_ok_nonneg cs (mint_post a t s)). simpl. lia.
Qed.

Lemma minted_ids_strictly_increase_witness : 431130000 < 431130001.
Proof.
  assert (H1 : mint 7 1700000000 (deployed 43113 1) =
               Ok 431130000 (mint_post 7 1700000000 (deployed 43113 1)))
    by (vm_compute; reflexivity).
  assert (H2 : mint 8 1700000100
                 (run [Bridge 8 true 84532 8 431130000]
                      (mint_post 7 1700000000 (deployed 43113 1))) =
               Ok 431130001
                  (mint_post 8 1700000100
                     (run [Bridge 8 true 84532 8 431130000]
                          (mint_post 7 1700000000 (deployed 43113 1)))))
    by (vm_compute; reflexivity).
  exact (minted_ids_strictly_increase _ _ _ _ _ _ _ _ _ _ H1 H2).
Defined.

(** X5. The token URI travels with the token: once the message a [bridge]
    left is processed on the destination, [tokenURI] and
    [getTokenMetadata] answer there what they answered on the source before
    the bridge, and the recipient is the owner. *)
Theorem token_uri_travels_with_the_token :
  forall sA sB a acc d r i sA1 p sB1,
    bridge a acc d r i sA = Ok tt sA1 ->
    last (outbox sA1) = Some p ->
    messageProcess (pk_source p) (pk_data p) sB = Ok tt sB1 ->
    answer (tokenURI i sB1) = answer (tokenURI i sA) /\
    answer (getTokenMetadata i sB1) = answer (getTokenMetadata i sA) /\
    answer (getTokenMetadata i sA) = Some (metadata_of sA i) /\
    answer (ownerOf i sB1) = Some r.
Proof.
  intros sA sB a acc d r i sA1 p sB1 Hb Hp Hd.
  apply bridge_Ok in Hb as (_ & Ho & Ha & _ & ->).
  rewrite outbox_bridge_post, last_snoc in Hp. simplify_eq. simpl in *.
  apply messageProcess_Ok in Hd as (_ & Hr & _ & ->).
  set (data := mkPayload r i (metadata_of sA i)) in *.
  assert (HexA : _exists sA i = true) by (by apply _exists_true).
  assert (HoB : _ownerOf (process_post (block_chainid sA) data sB) i = r).
  { change i with (p_nftId data) at 1. by rewrite ownerOf_process_post. }
  assert (HexB : _exists (process_post (block_chainid sA) data sB) i = true).
  { apply _exists_true. by rewrite HoB. }
  assert (Hm : metadata_of (process_post (block_chainid sA) data sB) i = metadata_of sA i).
  { change i with (p_nftId data) at 1. by rewrite metadata_process_post. }
  rewrite !tokenURI_eq, !getTokenMetadata_eq, ownerOf_eq, HexA, HexB, Hm, HoB.
  done.
Qed.

Lemma token_uri_travels_with_the_token_witness :
  answer (tokenURI 431130000 base_after_in) = answer (tokenURI 431130000 fuji_one_token).
Proof.
  assert (H1 : bridge 7 true 84532 7 431130000 fuji_one_token = Ok tt fuji_after_out)
    by (vm_compute; reflexivity).
  assert (H2 : last (outbox fuji_after_out) =
               Some (mkPacket 43113 84532
                       (mkPayload 7 431130000 (metadata_of fuji_one_token 431130000))))
    by (vm_compute; reflexivity).
  assert (H3 : messageProcess 43113
                 (mkPayload 7 431130000 (metadata_of fuji_one_token 431130000))
                 base_fresh = Ok tt base_after_in)
    by (vm_compute; reflexivity).
  exact (proj1 (token_uri_travels_with_the_token _ _ _ _ _ _ _ _ _ _ H1 H2 H3)).
Defined.

End TokenLifeFacts.

Module EnumerableFacts.
Import MyNFT Ledger LedgerFacts Samples Enumerable.

Section Index.

Variable _ownedTokens : State -> address -> Z -> Z.

Lemma balanceOf_view_eq owner s :
  balanceOf_view owner s =
    if owner =? address0 then Revert "ERC721: address zero is not a valid owner"
    else Ok (balanceOf s owner) s.
Proof. unfold balanceOf_view. evm_unfold. destruct (owner =? address0); done. Qed.

Lemma tokenOfOwnerByIndex_eq owner index s :
  owner ≠ address0 -> index < balanceOf s owner ->
  tokenOfOwnerByIndex _ownedTokens owner index s = Ok (_ownedTokens s owner index) s.
Proof.
  intros Ho Hi. unfold tokenOfOwnerByIndex, bind at 1. rewrite balanceOf_view_eq.
  apply Z.eqb_neq in Ho. rewrite Ho. evm_unfold.
  apply Z.ltb_lt in Hi. rewrite Hi. done.
Qed.

Lemma insert_next {A} (filled : list A) (x z : A) (rest : list A) (i : Z) :
  0 <= i -> length filled = Z.to_nat i ->
  <[Z.to_nat i := x]> (filled ++ z :: rest) = (filled ++ [x]) ++ rest.
Proof.
  intros Hi Hl. rewrite <- Hl.
  replace (length filled) with (length filled + 0)%nat by lia.
  rewrite insert_app_r. simpl. by rewrite <- app_assoc.
Qed.

Lemma tokens_loop_eq n owner s : forall i filled,
  owner ≠ address0 -> 0 <= i -> i + Z.of_nat n <= balanceOf s owner ->
  length filled = Z.to_nat i ->
  tokens_loop _ownedTokens n owner i (filled ++ replicate n 0) s =
    Ok (filled ++ (_ownedTokens s owner <$> seqZ i (Z.of_nat n))) s.
Proof.
  induction n as [|n IH]; intros i filled Ho Hi Hb Hl.
  - simpl. done.
  - cbn [tokens_loop replicate]. unfold bind at 1.
    rewrite tokenOfOwnerByIndex_eq by (done || lia).
    rewrite insert_next by done.
    rewrite IH; [|done|lia|lia|rewrite length_app; simpl; lia].
    rewrite Nat2Z.inj_succ, (seqZ_cons i) by lia.
    rewrite <- app_assoc. simpl.
    replace (Z.succ i) with (i + 1) by lia.
    replace (Z.pred (Z.succ (Z.of_nat n))) with (Z.of_nat n) by lia. done.
Qed.

Lemma metadata_loop_eq n owner s : forall i filled,
  owner ≠ address0 -> 0 <= i -> i + Z.of_nat n <= balanceOf s owner ->
  length filled = Z.to_nat i ->
  metadata_loop _ownedTokens n owner i
                (filled ++ replicate n 0)
                ((metadata_of s <$> filled) ++ replicate n empty_metadata) s =
    Ok (filled ++ (_ownedTokens s owner <$> seqZ i (Z.of_nat n)),
        metadata_of s <$> (filled ++ (_ownedTokens s owner <$> seqZ i (Z.of_nat n)))) s.
Proof.
  induction n as [|n IH]; intros i filled Ho Hi Hb Hl.
  - simpl. rewrite !app_nil_r. done.
  - cbn [metadata_loop replicate]. unfold bind at 1.
    rewrite tokenOfOwnerByIndex_eq by (done || lia).
    unfold bind at 1, gets at 1.
    rewrite !insert_next by (done || by rewrite length_fmap).
    replace ((metadata_of s <$> filled) ++ [metadata_of s (_ownedTokens s owner i)])
      with (metadata_of s <$> (filled ++ [_ownedTokens s owner i]))
      by (by rewrite fmap_app).
    rewrite IH; [|done|lia|lia|rewrite length_app; simpl; lia].
    rewrite Nat2Z.inj_succ, (seqZ_cons i) by lia.
    rewrite <- !app_assoc. simpl.
    replace (Z.succ i) with (i + 1) by lia.
    replace (Z.pred (Z.succ (Z.of_nat n))) with (Z.of_nat n) by lia. done.
Qed.

Lemma getTokensByOwner_eq owner s :
  owner ≠ address0 ->
  getTokensByOwner _ownedTokens owner s =
    Ok (_ownedTokens s owner <$> seqZ 0 (balanceOf s owner)) s.
Proof.
  intros Ho. unfold getTokensByOwner, bind. rewrite balanceOf_view_eq.
  apply Z.eqb_neq in Ho as Ho'. rewrite Ho'.
  destruct (balanceOf s owner =? 0) eqn:E0.
  - apply Z.eqb_eq in E0. rewrite E0. done.
  - apply Z.eqb_neq in E0.
    destruct (Z.lt_ge_cases 0 (balanceOf s owner)) as [Hn|Hn].
    + pose proof (tokens_loop_eq (Z.to_nat (balanceOf s owner)) owner s 0 [] Ho) as H.
      rewrite !app_nil_l in H. rewrite H; [|lia|lia|done].
      by rewrite Z2Nat.id by lia.
    + replace (Z.to_nat (balanceOf s owner)) with 0%nat by lia.
      rewrite seqZ_nil by lia. done.
Qed.

Lemma getTokensWithMetadata_eq owner s :
  owner ≠ address0 ->
  getTokensWithMetadata _ownedTokens owner s =
    Ok (_ownedTokens s owner <$> seqZ 0 (balanceOf s owner),
        metadata_of s <$> (_ownedTokens s owner <$> seqZ 0 (balanceOf s owner))) s.
Proof.
  intros Ho. unfold getTokensWithMetadata, bind. rewrite balanceOf_view_eq.
  apply Z.eqb_neq in Ho as Ho'. rewrite Ho'.
  destruct (Z.lt_ge_cases 0 (balanceOf s owner)) as [Hn|Hn].
  - pose proof (metadata_loop_eq (Z.to_nat (balanceOf s owner)) owner s 0 [] Ho) as H.
    rewrite fmap_nil, !app_nil_l in H. rewrite H; [|lia|lia|done].
    by rewrite Z2Nat.id by lia.
  - replace (Z.to_nat (balanceOf s owner)) with 0%nat by lia.
    rewrite seqZ_nil by lia. done.
Qed.

Lemma listing_zero_address s :
  answer (getTokensByOwner _ownedTokens address0 s) = None /\
  answer (getTokensWithMetadata _ownedTokens address0 s) = None.
Proof.
  unfold getTokensByOwner, getTokensWithMetadata, bind.
  rewrite balanceOf_view_eq. done.
Qed.

End Index.

(** X6. The two listing queries agree. For an owner other than the zero
    address neither reverts; [getTokensByOwner] returns the ids at the
    positions [0 .. balanceOf - 1] of the owner's index, in that order and
    with no array slot left unfilled, and [getTokensWithMetadata] returns
    the same ids together with the stored metadata record of each, slot by
    slot. For the zero address both revert. *)
Theorem listing_queries_agree :
  forall (_ownedTokens : State -> address -> Z -> Z) s _owner,
    (_owner ≠ address0 ->
     let ids := _ownedTokens s _owner <$> seqZ 0 (balanceOf s _owner) in
     getTokensByOwner _ownedTokens _owner s = Ok ids s /\
     getTokensWithMetadata _ownedTokens _owner s = Ok (ids, metadata_of s <$> ids) s /\
     length ids = Z.to_nat (balanceOf s _owner)) /\
    (_owner = address0 ->
     answer (getTokensByOwner _ownedTokens _owner s) = None /\
     answer (getTokensWithMetadata _ownedTokens _owner s) = None).
Proof.
  intros idx s owner. split.
  - intros Ho ids. split; [by apply getTokensByOwner_eq|].
    split; [by apply getTokensWithMetadata_eq|].
    unfold ids. rewrite length_fmap, length_seqZ. done.
  - intros ->. apply listing_zero_address.
Qed.

Lemma listing_queries_agree_witness :
  getTokensWithMetadata sample_index 7 fuji_one_token =
    Ok ([431130000], [mint_metadata 431130000 43113 1700000000]) fuji_one_token.
Proof.
  assert (H : (7 : Z) ≠ address0) by (vm_compute; discriminate).
  exact (proj1 (proj2 (proj1 (listing_queries_agree sample_index fuji_one_token 7) H))).
Defined.

End EnumerableFacts.

Module SettledFacts.
Import BridgeScript ScriptSamples MoreScriptSamples BridgeScriptFacts.

Lemma run_watch_app evs1 evs2 w :
  run_watch (evs1 ++ evs2) w = run_watch evs2 (run_watch evs1 w).
Proof. unfold run_watch. by rewrite fold_left_app. Qed.

Lemma run_keeps_resolved evs w v :
  promise w = Resolved v -> promise (run_watch evs w) = Resolved v.
Proof.
  induction evs as [|e evs IH] using rev_ind; intros Hw; [done|].
  rewrite run_watch_snoc. by apply handle_keeps_resolved, IH.
Qed.

Ltac watch_cases w e :=
  destruct w as [rcp i st tmo p iv tv calls ao am ex];
  unfold handle, after_ownerOf, after_metadata, resolve; simpl;
  destruct ex as [code|]; simpl;
  [|destruct e as [now|owner now| | |]; simpl;
    [destruct iv
    |destruct ao as [|ao]; simpl;
     [|destruct (is_recipient _ owner); simpl;
       [|destruct (now - st >? tmo); simpl]]
    |destruct am as [|am]; simpl
    |destruct tv; simpl
    |]];
  simpl; try (destruct p; simpl).

(** Whoever settles the promise stops the interval first. *)
Lemma handle_settled_stops e w :
  (promise w ≠ Pending -> intervalId w = false \/ exited w ≠ None) ->
  promise (handle e w) ≠ Pending ->
  intervalId (handle e w) = false \/ exited (handle e w) ≠ None.
Proof.
  watch_cases w e; intros H1 H2; try (by auto); try (by apply H1).
Qed.

(** A watch whose interval is cleared, or whose process has exited, calls
    [ownerOf] no more. *)
Lemma handle_silent e w :
  intervalId w = false \/ exited w ≠ None ->
  ownerOf_calls (handle e w) = ownerOf_calls w /\
  (intervalId (handle e w) = false \/ exited (handle e w) ≠ None).
Proof.
  watch_cases w e; intros [H|H]; simplify_eq; auto.
Qed.

Lemma run_settled_stops evs w :
  (promise w ≠ Pending -> intervalId w = false \/ exited w ≠ None) ->
  promise (run_watch evs w) ≠ Pending ->
  intervalId (run_watch evs w) = false \/ exited (run_watch evs w) ≠ None.
Proof.
  induction evs as [|e evs IH] using rev_ind; intros Hw; [done|].
  rewrite run_watch_snoc. by apply handle_settled_stops, IH.
Qed.

Lemma run_silent evs w :
  intervalId w = false \/ exited w ≠ None ->
  ownerOf_calls (run_watch evs w) = ownerOf_calls w /\
  (intervalId (run_watch evs w) = false \/ exited (run_watch evs w) ≠ None).
Proof.
  induction evs as [|e evs IH] using rev_ind; intros Hw; [done|].
  rewrite run_watch_snoc. destruct (IH Hw) as [Hc Hq].
  destruct (handle_silent e _ Hq) as [Hc' Hq']. split; [congruence|done].
Qed.

(** X7. The watch of the bridge script settles once. As soon as its
    promise is settled, whatever happens later (a reply that was under way,
    the timeout timer, SIGINT) leaves the value of the promise as it is, and
    the destination is never asked for the owner again. *)
Theorem settled_watch_stays_settled :
  forall recipient id timeout_ms now evs1 evs2,
    let w1 := run_watch evs1 (waitForNFTReceived recipient id timeout_ms now) in
    let w2 := run_watch (evs1 ++ evs2) (waitForNFTReceived recipient id timeout_ms now) in
    promise w1 ≠ Pending ->
    promise w2 = promise w1 /\
    ownerOf_calls w2 = ownerOf_calls w1.
Proof.
  intros recipient id timeout_ms now evs1 evs2 w1 w2 Hs.
  unfold w2. rewrite run_watch_app. fold w1. split.
  - destruct (promise w1) as [|v|] eqn:E; [done| |].
    + by apply run_keeps_resolved.
    + exfalso. revert E. apply run_not_rejected. done.
  - apply run_silent. apply run_settled_stops; [|done]. simpl. done.
Qed.

Lemma settled_watch_stays_settled_witness :
  promise (run_watch (timed_out_events ++ late_success_events) sample_watch) =
    Resolved None /\
  ownerOf_calls (run_watch (timed_out_events ++ late_success_events) sample_watch) =
    [0; 10000; 20000].
Proof.
  destruct (settled_watch_stays_settled
              "0x00000000000000000000000000000000000000bb" "431130000"
              (5 * 60 * 1000) 0 timed_out_events late_success_events) as [Hp Hc].
  - vm_compute. discriminate.
  - split; [etrans; [exact Hp|]|etrans; [exact Hc|]]; vm_compute; reflexivity.
Defined.

Lemma handle_success e w (seen : Prop) recipient id :
  recipientAddress w = recipient -> nftId w = id ->
  (forall r, promise w = Resolved (Some r) ->
             r = mkReceived recipient id /\ intervalId w = false /\ timeoutId w = false) ->
  (awaiting_metadata w ≠ 0%nat \/ (exists r, promise w = Resolved (Some r)) -> seen) ->
  (forall owner t, e = OwnerOfReturns (Some owner) t ->
                   toLowerCase owner = toLowerCase recipient -> seen) ->
  recipientAddress (handle e w) = recipient /\ nftId (handle e w) = id /\
  (forall r, promise (handle e w) = Resolved (Some r) ->
             r = mkReceived recipient id /\
             intervalId (handle e w) = false /\ timeoutId (handle e w) = false) /\
  (awaiting_metadata (handle e w) ≠ 0%nat \/
   (exists r, promise (handle e w) = Resolved (Some r)) -> seen).
Proof.
  intros Hr Hi Hres Hseen Hev.
  destruct w as [rcp i st tmo p iv tv calls ao am ex]. simpl in *. subst rcp i.
  unfold handle. simpl. destruct ex as [code|]; [done|].
  destruct e as [now|owner now| | |]; simpl.
  - destruct iv; simpl; done.
  - destruct ao as [|ao]; simpl; [done|].
    unfold after_ownerOf.
    destruct (is_recipient _ owner) eqn:Eo; simpl.
    + assert (Hs : seen).
      { destruct owner as [o|]; [|done]. simpl in Eo.
        apply bool_decide_eq_true in Eo. by eapply Hev. }
      done.
    + destruct (now - st >? tmo); simpl; [|done].
      unfold resolve; simpl. destruct p as [|v|]; simpl.
      * split; [done|]. split; [done|]. split; [intros r [=]|].
        intros [?|[r [=]]]. apply Hseen. by left.
      * split; [done|]. split; [done|]. split; [|done].
        intros r Hp. destruct (Hres r Hp) as (? & ? & ?). repeat split; done.
      * split; [done|]. split; [done|]. split; [intros r [=]|done].
  - destruct am as [|am]; simpl; [done|].
    assert (Hs : seen) by (apply Hseen; left; done).
    unfold after_metadata, resolve; simpl. destruct p as [|v|]; simpl.
    + split; [done|]. split; [done|]. split; [by intros r [= <-]|done].
    + split; [done|]. split; [done|]. split; [|done].
        intros r Hp. destruct (Hres r Hp) as (? & ? & ?). repeat split; done.
    + split; [done|]. split; [done|]. split; [intros r [=]|done].
  - destruct tv; simpl; [|done].
    unfold resolve; simpl. destruct p as [|v|]; simpl.
    + split; [done|]. split; [done|]. split; [intros r [=]|].
      intros [?|[r [=]]]. apply Hseen. by left.
    + split; [done|]. split; [done|]. split; [|done].
        intros r Hp. destruct (Hres r Hp) as (? & ? & ?). repeat split; done.
    + split; [done|]. split; [done|]. split; [intros r [=]|done].
  - unfold resolve; simpl. destruct p as [|v|]; simpl.
    + split; [done|]. split; [done|]. split; [intros r [=]|].
      intros [?|[r [=]]]. apply Hseen. by left.
    + split; [done|]. split; [done|]. split; [|done].
        intros r Hp. destruct (Hres r Hp) as (? & ? & ?). repeat split; done.
    + split; [done|]. split; [done|]. split; [intros r [=]|done].
Qed.

(** X8. The watch reports success only for a reason. When its promise is
    resolved with an object, the object names the recipient and the id the
    watch was started with, some reply of the destination named the
    recipient as owner (compared without regard to case), and both timers
    are cleared. *)
Theorem watch_success_is_sound :
  forall recipient id timeout_ms now evs r,
    let w := run_watch evs (waitForNFTReceived recipient id timeout_ms now) in
    promise w = Resolved (Some r) ->
    r = mkReceived recipient id /\
    intervalId w = false /\ timeoutId w = false /\
    exists owner t,
      In (OwnerOfReturns (Some owner) t) evs /\
      toLowerCase owner = toLowerCase recipient.
Proof.
  intros recipient id timeout_ms now evs r w.
  set (seen := fun evs : list Event =>
                 exists owner t, In (OwnerOfReturns (Some owner) t) evs /\
                                 toLowerCase owner = toLowerCase recipient).
  assert (Hinv : forall evs,
             let w := run_watch evs (waitForNFTReceived recipient id timeout_ms now) in
             recipientAddress w = recipient /\ nftId w = id /\
             (forall r, promise w = Resolved (Some r) ->
                        r = mkReceived recipient id /\
                        intervalId w = false /\ timeoutId w = false) /\
             (awaiting_metadata w ≠ 0%nat \/
              (exists r, promise w = Resolved (Some r)) -> seen evs)).
  { clear evs r w. induction evs as [|e evs IH] using rev_ind.
    - simpl. repeat split; try done. intros [?|[r ?]]; done.
    - destruct IH as (H1 & H2 & H3 & H4). cbn zeta. rewrite run_watch_snoc.
      apply (handle_success e _ (seen (evs ++ [e]))); try done.
      + intros H. destruct (H4 H) as (owner & t & Hin & Hl).
        exists owner, t. split; [|done]. apply in_or_app. by left.
      + intros owner t -> Hl. exists owner, t. split; [|done].
        apply in_or_app. right. by left. }
  intros Hp. destruct (Hinv evs) as (_ & _ & H3 & H4). fold w in H3, H4.
  destruct (H3 r Hp) as (-> & Hi & Ht).
  split; [done|]. split; [done|]. split; [done|].
  apply H4. right. eauto.
Qed.

Lemma watch_success_is_sound_witness :
  promise (run_watch received_events sample_watch) =
    Resolved (Some (mkReceived "0x00000000000000000000000000000000000000bb" "431130000")) /\
  timeoutId (run_watch received_events sample_watch) = false.
Proof.
  assert (H : promise (run_watch received_events sample_watch) =
              Resolved (Some (mkReceived "0x00000000000000000000000000000000000000bb"
                                         "431130000")))
    by (vm_compute; reflexivity).
  split; [exact H|].
  exact (proj1 (proj2 (proj2 (watch_success_is_sound _ _ _ _ _ _ H)))).
Defined.

(** X9. The exit status of a bridge command. With all three arguments
    given (none of them the empty string) and both networks known, the
    script exits with status 0 exactly
    when both contracts could be loaded, the source contract names the
    wallet as owner of the token, and the bridge transaction was sent and
    confirmed; in every other case the status is 1. What the completion
    watch resolved with makes no difference. *)
Theorem bridge_command_exit_status :
  forall r src dst tok,
    src ≠ EmptyString -> dst ≠ EmptyString -> tok ≠ EmptyString ->
    networks r src = true -> networks r dst = true ->
    (main r (Some src) (Some dst) (Some tok) = 0 <-> reaches_watch r src dst = true) /\
    (main r (Some src) (Some dst) (Some tok) = 1 <-> reaches_watch r src dst = false) /\
    (forall v,
        main (mkRun (networks r) (getContract r) (source_ownerOf r) (wallet r)
                    (bridge_tx r) (tx_wait r) v)
             (Some src) (Some dst) (Some tok) =
        main r (Some src) (Some dst) (Some tok)).
Proof.
  intros r src dst tok _ _ _ Hs Hd. unfold main, bridge, reaches_watch. simpl.
  rewrite !Hs, !Hd. simpl.
  destruct (getContract r src), (getContract r dst); simpl;
    try (by repeat split; intros; (done || discriminate)).
  destruct (source_ownerOf r) as [owner|]; simpl;
    [|by repeat split; intros; (done || discriminate)].
  destruct (bool_decide _); simpl;
    [|by repeat split; intros; (done || discriminate)].
  destruct (bridge_tx r), (tx_wait r); simpl;
    by repeat split; intros; (done || discriminate).
Qed.

Lemma bridge_command_exit_status_witness :
  main foreign_run (Some "avalanche-testnet") (Some "base-testnet") (Some "431130000") = 1.
Proof.
  assert (Hne : forall a s, String a s ≠ EmptyString) by (intros a s; discriminate).
  apply (proj1 (proj2 (bridge_command_exit_status foreign_run "avalanche-testnet"
                         "base-testnet" "431130000" (Hne _ _) (Hne _ _) (Hne _ _)
                         eq_refl eq_refl))).
  vm_compute. reflexivity.
Defined.

End SettledFacts.

Module NftListFacts.
Import MyNFT NftCache CacheSamples NftList MoreCacheSamples ListScript.

(** What the metadata loop returns and what it leaves of the state. *)
Lemma fetch_metadata_spec w chain tokenIds : forall acc u,
  (fetch_metadata w chain tokenIds acc u).1 = acc ++ readable_items w chain tokenIds /\
  rpc (fetch_metadata w chain tokenIds acc u).2 =
    rpc u ++ (RpcTokenMetadata chain <$> tokenIds) /\
  nfts (fetch_metadata w chain tokenIds acc u).2 = nfts u /\
  lastFetchTime (fetch_metadata w chain tokenIds acc u).2 = lastFetchTime u /\
  isLoadingNFTs (fetch_metadata w chain tokenIds acc u).2 = isLoadingNFTs u /\
  providerCache (fetch_metadata w chain tokenIds acc u).2 = providerCache u.
Proof.
  unfold readable_items.
  induction tokenIds as [|id rest IH]; intros acc u; simpl.
  - by rewrite !app_nil_r.
  - destruct (getTokenMetadata w chain id) as [md|]; simpl.
    + destruct (IH (acc ++ [format_item id md]) (call_rpc (RpcTokenMetadata chain id) u))
        as (-> & -> & -> & -> & -> & ->).
      simpl. rewrite <- !app_assoc. done.
    + destruct (IH acc (log (LogMetadataError id) (call_rpc (RpcTokenMetadata chain id) u)))
        as (-> & -> & -> & -> & -> & ->).
      simpl. rewrite <- !app_assoc. done.
Qed.

Lemma starts_true w address target cur lft now :
  starts w address target cur lft now = true ->
  exists deployment,
    getDeploymentByChainId w target = Some deployment /\
    (negb (truthy_string address) || negb (truthy_number target)
     || negb (deploymentsExist w)) = false /\
    (target =? Number cur) = false /\
    (now - default 0 (lft !! target) <? 10000) = false.
Proof.
  unfold starts. intros H.
  apply andb_true_iff in H as [H Hd]. apply andb_true_iff in H as [H Ht].
  apply andb_true_iff in H as [H Hc]. apply andb_true_iff in H as [H He].
  apply andb_true_iff in H as [Ha Hn].
  apply bool_decide_eq_true in Hd as [deployment Hd].
  exists deployment. split; [done|].
  rewrite Ha, Hn, He. simpl.
  split; [done|]. split; by apply negb_true_iff.
Qed.

(** The result of [fetchNFTsForChain] once it is past its early returns. *)
Lemma fetch_started w address target cur lft now u :
  starts w address target cur lft now = true ->
  fetchNFTsForChain w address target cur lft now u =
    setIsLoadingNFTs target false
      match fetch_body w address target now (setIsLoadingNFTs target true u) with
      | (Some stored, _) => stored
      | (None, failed) => setNFTs target [] (log (LogFetchError target) failed)
      end.
Proof.
  intros (deployment & Hd & Hg & Hc & Ht)%starts_true.
  unfold fetchNFTsForChain. rewrite Hg, Hc, Ht, Hd. done.
Qed.

Lemma fetch_body_success w address target now u ids :
  has_provider w target u = true ->
  getTokensByOwner w target address = Some ids ->
  exists stored rest,
    fetch_body w address target now u = (Some stored, rest) /\
    nfts stored = <[target := readable_items w target ids]> (nfts u) /\
    lastFetchTime stored = <[target := now]> (lastFetchTime u) /\
    isLoadingNFTs stored = isLoadingNFTs u /\
    rpc stored = rpc u ++ RpcTokensByOwner target address :: (RpcTokenMetadata target <$> ids).
Proof.
  intros Hp Hids. unfold fetch_body, has_provider in *.
  assert (Hstep : exists u1,
             (if bool_decide (target ∈ providerCache u) then Some u
              else match rpcUrl w target with
                   | Some url => if truthy_string url then Some (cacheProvider target u)
                                 else None
                   | None => None
                   end) = Some u1 /\
             nfts u1 = nfts u /\ lastFetchTime u1 = lastFetchTime u /\
             isLoadingNFTs u1 = isLoadingNFTs u /\ rpc u1 = rpc u).
  { destruct (bool_decide (target ∈ providerCache u)); [by exists u|].
    simpl in Hp. destruct (rpcUrl w target) as [url|]; [|done].
    rewrite Hp. by eexists. }
  destruct Hstep as (u1 & -> & Hn & Hl & Hi & Hr).
  rewrite Hids. destruct ids as [|id rest].
  - do 2 eexists. split; [done|]. simpl. rewrite Hn, Hl, Hi, Hr. done.
  - set (ids := id :: rest).
    pose proof (fetch_metadata_spec w target ids []
                  (call_rpc (RpcTokensByOwner target address) u1)) as Hspec.
    destruct (fetch_metadata w target ids []
                (call_rpc (RpcTokensByOwner target address) u1)) as [items u3].
    simpl in Hspec. destruct Hspec as (-> & H1 & H2 & H3 & H4 & _).
    do 2 eexists. split; [done|]. simpl.
    rewrite H1, H2, H3, H4, Hn, Hl, Hi, Hr, <- app_assoc. done.
Qed.

Lemma fetch_body_failure w address target now u :
  has_provider w target u = false \/ getTokensByOwner w target address = None ->
  exists failed,
    fetch_body w address target now u = (None, failed) /\
    nfts failed = nfts u /\ lastFetchTime failed = lastFetchTime u /\
    isLoadingNFTs failed = isLoadingNFTs u.
Proof.
  intros H. unfold fetch_body, has_provider in *.
  destruct (bool_decide (target ∈ providerCache u)); simpl in *.
  - destruct H as [H|H]; [done|]. rewrite H. by eexists.
  - destruct (rpcUrl w target) as [url|]; [|by eexists].
    destruct (truthy_string url); [|by eexists].
    destruct H as [H|H]; [done|]. rewrite H. by eexists.
Qed.

Lemma fetch_body_frame w address target now u c :
  c ≠ target ->
  forall r, r = fetch_body w address target now u ->
  (forall stored, r.1 = Some stored ->
     nfts stored !! c = nfts u !! c /\ lastFetchTime stored !! c = lastFetchTime u !! c /\
     isLoadingNFTs stored = isLoadingNFTs u) /\
  nfts r.2 = nfts u /\ lastFetchTime r.2 = lastFetchTime u /\
  isLoadingNFTs r.2 = isLoadingNFTs u.
Proof.
  intros Hc r ->. unfold fetch_body.
  set (step := if bool_decide (target ∈ providerCache u) then Some u else _).
  assert (Hstep : step = None \/
                  exists u1, step = Some u1 /\ nfts u1 = nfts u /\
                             lastFetchTime u1 = lastFetchTime u /\
                             isLoadingNFTs u1 = isLoadingNFTs u).
  { unfold step. destruct (bool_decide _); [right; by exists u|].
    destruct (rpcUrl w target) as [url|]; [|by left].
    destruct (truthy_string url); [right; by eexists|by left]. }
  destruct Hstep as [->|(u1 & -> & Hn & Hl & Hi)]; [done|].
  destruct (getTokensByOwner w target address) as [ids|]; [|simpl; done].
  destruct ids as [|id rest].
  - simpl. split; [|done]. intros stored [= <-]. simpl.
    rewrite !lookup_insert_ne by done. rewrite Hn, Hl, Hi. done.
  - set (ids := id :: rest).
    pose proof (fetch_metadata_spec w target ids []
                  (call_rpc (RpcTokensByOwner target address) u1)) as Hspec.
    destruct (fetch_metadata w target ids []
                (call_rpc (RpcTokensByOwner target address) u1)) as [items u3].
    simpl in Hspec. destruct Hspec as (_ & _ & H2 & H3 & H4 & _).
    simpl. split; [|by rewrite H2, H3, H4, Hn, Hl, Hi].
    intros stored [= <-]. simpl. rewrite !lookup_insert_ne by done.
    by rewrite H2, H3, H4, Hn, Hl, Hi.
Qed.

(** X10. [fetchNFTsForChain] touches the target chain only, and it never
    leaves the loading flag raised. Whatever the arguments and the
    replies, the cached list, the last-fetch time and the loading flag of
    every other chain are what they were; the loading flag of the target is
    either untouched (the call returned early) or lowered. *)
Theorem fetch_touches_the_target_only :
  forall w address targetChainId currentChainId lastFetchTime_arg now u,
    let u' := fetchNFTsForChain w address targetChainId currentChainId
                                lastFetchTime_arg now u in
    (forall c, c ≠ targetChainId ->
       nfts u' !! c = nfts u !! c /\
       lastFetchTime u' !! c = lastFetchTime u !! c /\
       isLoadingNFTs u' !! c = isLoadingNFTs u !! c) /\
    (isLoadingNFTs u' = isLoadingNFTs u \/
     isLoadingNFTs u' !! targetChainId = Some false).
Proof.
  intros w address target cur lft now u u'. subst u'. unfold fetchNFTsForChain.
  destruct (_ || _); [split; [done|by left]|].
  destruct (target =? Number cur); [split; [done|by left]|].
  destruct (_ <? _); [split; [done|by left]|].
  destruct (getDeploymentByChainId w target) as [deployment|]; [|split; [done|by left]].
  split; [|right; simpl; by rewrite lookup_insert_eq].
  intros c Hc.
  destruct (fetch_body_frame w address target now (setIsLoadingNFTs target true u) c Hc
              _ eq_refl) as (Hdone & Hn & Hl & Hi).
  destruct (fetch_body w address target now (setIsLoadingNFTs target true u))
    as [[stored|] failed]; simpl in *.
  - destruct (Hdone stored eq_refl) as (-> & -> & Hi').
    rewrite !lookup_insert_ne by done. rewrite Hi'. simpl.
    by rewrite lookup_insert_ne.
  - rewrite !lookup_insert_ne by done. rewrite Hn, Hl, Hi. simpl.
    by rewrite lookup_insert_ne.
Qed.

(** X11. A fetch that goes through. When the call is past its early
    returns, a provider is at hand and the listing call returns the ids
    [ids], the cached list of the target becomes the entries of those ids
    whose metadata call returned, in the order of [ids]; the time recorded
    is [now]; the loading flag is lowered; and the remote calls made are the
    listing call followed by one metadata call per id. *)
Theorem fetch_that_goes_through :
  forall w address targetChainId currentChainId lastFetchTime_arg now u ids,
    starts w address targetChainId currentChainId lastFetchTime_arg now = true ->
    has_provider w targetChainId u = true ->
    getTokensByOwner w targetChainId address = Some ids ->
    let u' := fetchNFTsForChain w address targetChainId currentChainId
                                lastFetchTime_arg now u in
    nfts u' !! targetChainId = Some (readable_items w targetChainId ids) /\
    lastFetchTime u' !! targetChainId = Some now /\
    isLoadingNFTs u' !! targetChainId = Some false /\
    rpc u' = rpc u ++ RpcTokensByOwner targetChainId address
                   :: (RpcTokenMetadata targetChainId <$> ids).
Proof.
  intros w address target cur lft now u ids Hs Hp Hids u'. subst u'.
  rewrite fetch_started by done.
  destruct (fetch_body_success w address target now (setIsLoadingNFTs target true u) ids)
    as (stored & rest & -> & Hn & Hl & Hi & Hr); [done|done|].
  simpl. rewrite Hn, Hl, Hr, !lookup_insert_eq. done.
Qed.

Lemma fetch_that_goes_through_witness :
  nfts fetched_once !! 43113 =
    Some [format_item 431130000 (mint_metadata 431130000 43113 1700000000)] /\
  lastFetchTime fetched_once !! 43113 = Some 50000.
Proof.
  destruct (fetch_that_goes_through sample_world "0xabc" 43113 (Some 84532) ∅ 50000
              empty_ui [431130000]) as (Hn & Hl & _).
  - vm_compute. reflexivity.
  - vm_compute. reflexivity.
  - reflexivity.
  - split; [exact Hn|exact Hl].
Defined.

(** X12. A fetch that fails is not counted. When the call is past its
    early returns and no provider can be had or the listing call throws,
    the cached list of the target is replaced by the empty list, whatever
    it held, while the last-fetch times stay as they were: the failure does
    not hold back the next fetch. *)
Theorem failed_fetch_is_not_recorded :
  forall w address targetChainId currentChainId lastFetchTime_arg now u,
    starts w address targetChainId currentChainId lastFetchTime_arg now = true ->
    has_provider w targetChainId u = false \/
    getTokensByOwner w targetChainId address = None ->
    let u' := fetchNFTsForChain w address targetChainId currentChainId
                                lastFetchTime_arg now u in
    nfts u' !! targetChainId = Some [] /\
    lastFetchTime u' = lastFetchTime u /\
    isLoadingNFTs u' !! targetChainId = Some false /\
    (lastFetchTime_arg = lastFetchTime u ->
     forall later, now <= later ->
       starts w address targetChainId currentChainId (lastFetchTime u') later = true).
Proof.
  intros w address target cur lft now u Hs Hf u'. subst u'.
  rewrite fetch_started by done.
  destruct (fetch_body_failure w address target now (setIsLoadingNFTs target true u) Hf)
    as (failed & -> & Hn & Hl & Hi).
  simpl. rewrite Hl, !lookup_insert_eq. simpl.
  split; [done|]. split; [done|]. split; [done|].
  intros <- later Hlater. unfold starts in *.
  apply andb_true_iff in Hs as [Hs Hd]. apply andb_true_iff in Hs as [Hs Ht].
  rewrite Hs, Hd. simpl. rewrite andb_true_r.
  apply negb_true_iff, Z.ltb_ge in Ht.
  apply negb_true_iff, Z.ltb_ge. lia.
Qed.

Lemma failed_fetch_is_not_recorded_witness :
  nfts (fetchNFTsForChain silent_world "0xabc" 43113 (Some 84532)
          (lastFetchTime fetched_once) 70000 fetched_once) !! 43113 = Some [] /\
  lastFetchTime (fetchNFTsForChain silent_world "0xabc" 43113 (Some 84532)
                   (lastFetchTime fetched_once) 70000 fetched_once) !! 43113 = Some 50000.
Proof.
  destruct (failed_fetch_is_not_recorded silent_world "0xabc" 43113 (Some 84532)
              (lastFetchTime fetched_once) 70000 fetched_once) as (Hn & Hl & _).
  - vm_compute. reflexivity.
  - right. reflexivity.
  - split; [exact Hn|]. rewrite Hl. vm_compute. reflexivity.
Defined.

Lemma list_loop_spec ans ids : forall acc,
  list_loop ans ids acc = acc ++ (list_entry ans <$> ids).
Proof.
  induction ids as [|id rest IH]; intros acc; simpl.
  - by rewrite app_nil_r.
  - rewrite IH, <- app_assoc. done.
Qed.

Lemma list_entry_id ans id : l_id (list_entry ans id) = toString id.
Proof.
  unfold list_entry. destruct (ans id) as [md|]; [|done].
  destruct (date_printable _); done.
Qed.

(** X13. The two listings treat an unreadable token differently. For the
    same ids and the same replies of [getTokenMetadata], [listNFTs] of the
    bridge script returns one entry per id, in order, an id whose metadata
    cannot be read included; the loop of [fetchNFTsForChain] leaves such
    an id out of the list the browser shows. *)
Theorem unreadable_token_listed_by_script_only :
  forall w chain ids u,
    l_id <$> listNFTs (Some ids) (getTokenMetadata w chain) = toString <$> ids /\
    item_id <$> (fetch_metadata w chain ids [] u).1 =
      toString <$> filter (fun id => is_Some (getTokenMetadata w chain id)) ids.
Proof.
  intros w chain ids u. split.
  - unfold listNFTs. destruct ids as [|id rest]; [done|].
    rewrite list_loop_spec. simpl. rewrite list_entry_id. f_equal.
    rewrite <- list_fmap_compose. apply list_fmap_ext. intros ? x _. simpl.
    apply list_entry_id.
  - destruct (fetch_metadata_spec w chain ids [] u) as (-> & _). simpl.
    unfold readable_items.
    induction ids as [|id rest IH]; [done|]. simpl.
    destruct (getTokenMetadata w chain id) as [md|] eqn:E; simpl.
    + rewrite filter_cons_True by (by rewrite E). rewrite fmap_cons.
      f_equal. exact IH.
    + rewrite filter_cons_False by (rewrite E; by intros [? ?]). exact IH.
Qed.

Lemma format_from_spec s ids : forall filled,
  format_from (length filled) ids (filled ++ (metadata_of s <$> ids)) =
    Some ((fun id => format_item id (metadata_of s id)) <$> ids).
Proof.
  induction ids as [|id rest IH]; intros filled; [done|].
  cbn [format_from]. rewrite fmap_cons, list_lookup_middle by done.
  rewrite cons_middle, app_assoc.
  replace (S (length filled)) with (length (filled ++ [metadata_of s id]))
    by (rewrite length_app; simpl; lia).
  rewrite IH. done.
Qed.

Lemma readable_all w chain s ids :
  (forall id, getTokenMetadata w chain id = Enumerable.answer (MyNFT.getTokenMetadata id s)) ->
  Forall (fun id => _exists s id = true) ids ->
  readable_items w chain ids = (fun id => format_item id (metadata_of s id)) <$> ids.
Proof.
  intros Hw Hall. unfold readable_items.
  induction Hall as [|id rest Hid Hrest IH]; [done|].
  rewrite fmap_cons, <- IH. cbn [omap list_omap].
  rewrite Hw, TokenLifeFacts.getTokenMetadata_eq, Hid. done.
Qed.

(** X14. The two ways the browser lists a chain agree. Let the contract
    of a chain answer [getTokensWithMetadata] with the ids [ids] and their
    records, and let every listed id exist on the ledger. Then
    [fetchNFTsForCurrentChain], which formats that one answer, and
    [fetchNFTsForChain], which asks for the ids and then for the metadata
    of each, store the same list for the chain. *)
Theorem both_fetch_paths_store_the_same_list :
  forall (_ownedTokens : State -> address -> Z -> Z) s _owner ids mds
         w address chain currentChainId lastFetchTime_arg now u1 u2,
    Enumerable.getTokensWithMetadata _ownedTokens _owner s = Ok (ids, mds) s ->
    Forall (fun id => _exists s id = true) ids ->
    getTokensByOwner w chain address =
      Enumerable.answer (Enumerable.getTokensByOwner _ownedTokens _owner s) ->
    (forall id, getTokenMetadata w chain id =
                  Enumerable.answer (MyNFT.getTokenMetadata id s)) ->
    truthy_string address = true -> chain ≠ 0 ->
    starts w address chain currentChainId lastFetchTime_arg now = true ->
    has_provider w chain u2 = true ->
    nfts (fetchNFTsForCurrentChain (Some (Some (ids, mds))) address (Some chain) u1) !! chain =
      Some ((fun id => format_item id (metadata_of s id)) <$> ids) /\
    nfts (fetchNFTsForChain w address chain currentChainId lastFetchTime_arg now u2) !! chain =
      Some ((fun id => format_item id (metadata_of s id)) <$> ids).
Proof.
  intros idx s owner ids mds w address chain cur lft now u1 u2
         Hboth Hex Hlist Hmeta Haddr Hchain Hs Hp.
  assert (Ho : owner ≠ address0).
  { intros ->. destruct (EnumerableFacts.listing_zero_address idx s) as [_ H].
    by rewrite Hboth in H. }
  rewrite EnumerableFacts.getTokensWithMetadata_eq in Hboth by done.
  injection Hboth as <- <-.
  rewrite EnumerableFacts.getTokensByOwner_eq in Hlist by done. simpl in Hlist.
  split.
  - unfold fetchNFTsForCurrentChain. rewrite Haddr.
    apply Z.eqb_neq in Hchain. unfold truthy_number. rewrite Hchain. simpl.
    pose proof (format_from_spec s (idx s owner <$> seqZ 0 (balanceOf s owner)) [])
      as Hf.
    simpl in Hf. rewrite Hf. simpl. by rewrite lookup_insert_eq.
  - rewrite fetch_started by done.
    destruct (fetch_body_success w address chain now (setIsLoadingNFTs chain true u2) _
                Hp Hlist) as (stored & rest & -> & Hn & _).
    simpl. rewrite Hn, lookup_insert_eq. f_equal.
    by apply readable_all.
Qed.

Lemma both_fetch_paths_store_the_same_list_witness :
  nfts (fetchNFTsForChain ledger_world "0xabc" 43113 (Some 84532) ∅ 50000 empty_ui)
    !! 43113 =
  nfts (fetchNFTsForCurrentChain
          (Some (Some ([431130000], [mint_metadata 431130000 43113 1700000000])))
          "0xabc" (Some 43113) empty_ui) !! 43113.
Proof.
  assert (H : Enumerable.getTokensWithMetadata Enumerable.sample_index 7
                Samples.fuji_one_token =
              Ok ([431130000], [mint_metadata 431130000 43113 1700000000])
                 Samples.fuji_one_token)
    by (vm_compute; reflexivity).
  destruct (both_fetch_paths_store_the_same_list Enumerable.sample_index
              Samples.fuji_one_token 7 _ _ ledger_world "0xabc" 43113 (Some 84532)
              ∅ 50000 empty_ui empty_ui H) as [H1 H2].
  - repeat constructor.
  - reflexivity.
  - intros id. reflexivity.
  - reflexivity.
  - discriminate.
  - vm_compute. reflexivity.
  - vm_compute. reflexivity.
  - rewrite H1, H2. reflexivity.
Defined.

End NftListFacts.

Module BlockchainFacts.
Import MyNFT Ledger LedgerFacts MintFacts Samples Blockchain.

(** X15. The id [mintNFT] reports is the id the contract assigned. When
    the mint goes through, the function finds the [NFTMinted] event among
    the logs of the receipt, whether or not the [Transfer] log before it can
    be parsed, and returns the decimal form of the id that [mint()]
    returned; the call throws exactly when [mint()] reverts. *)
Theorem mintNFT_reports_the_minted_id :
  forall transfer_parses a t s,
    (forall id s', mint a t s = Ok id s' ->
       mintNFT transfer_parses a t s = Some (s', Some (toString id))) /\
    (forall reason, mint a t s = Revert reason -> mintNFT transfer_parses a t s = None).
Proof.
  intros tp a t s. split.
  - intros id s' H. unfold mintNFT. rewrite H.
    apply mint_Ok in H as (_ & _ & -> & ->).
    unfold receipt_logs, mint_post, minted. simpl.
    rewrite <- app_assoc, drop_app_length. simpl.
    unfold nftId_of_logs. simpl. destruct tp; done.
  - intros reason H. unfold mintNFT. by rewrite H.
Qed.

Lemma mintNFT_reports_the_minted_id_witness :
  mintNFT false 7 1700000000 (deployed 43113 1) =
    Some (mint_post 7 1700000000 (deployed 43113 1), Some "431130000").
Proof.
  assert (H : mint 7 1700000000 (deployed 43113 1) =
              Ok 431130000 (mint_post 7 1700000000 (deployed 43113 1)))
    by (vm_compute; reflexivity).
  exact (proj1 (mintNFT_reports_the_minted_id false 7 1700000000 (deployed 43113 1))
               431130000 _ H).
Defined.


(** *** Hexadecimal chain ids *)

Lemma of_hex_digit (l : Hexadecimal.uint) (k : positive) :
  Z.of_N (N.pos (Pos.of_hex_uint_acc l k)) =
    Z.of_N (N.of_hex_uint l) +
    Z.pos k * 16 ^ Z.of_N (HexadecimalPos.Unsigned.usize l).
Proof.
  rewrite HexadecimalPos.Unsigned.of_uint_acc_rev.
  unfold N.of_hex_uint. rewrite HexadecimalPos.Unsigned.of_uint_alt.
  rewrite N2Z.inj_add, N2Z.inj_mul, N2Z.inj_pow. done.
Qed.

Lemma parse_digits_hex d : forall a,
  parse_digits (HexadecimalString.NilEmpty.string_of_uint d) (Int a) =
    Int (16 ^ Z.of_N (HexadecimalPos.Unsigned.usize d) * a + Z.of_N (N.of_hex_uint d)).
Proof.
  induction d as [|d IH|d IH|d IH|d IH|d IH|d IH|d IH|d IH|d IH|d IH
                  |d IH|d IH|d IH|d IH|d IH|d IH]; intros a;
    [simpl; f_equal; lia|..];
    cbn [HexadecimalString.NilEmpty.string_of_uint parse_digits];
    match goal with
    | |- context [hex_value ?c] =>
        let v := eval vm_compute in (hex_value c) in change (hex_value c) with v
    end;
    cbv iota beta;
    cbn [HexadecimalPos.Unsigned.usize];
    rewrite N2Z.inj_succ, Z.pow_succ_r by lia;
    unfold N.of_hex_uint; cbn [Pos.of_hex_uint];
    try rewrite of_hex_digit;
    rewrite IH; f_equal; unfold N.of_hex_uint; lia.
Qed.

Lemma parse_digits_start d :
  d <> Hexadecimal.Nil ->
  parse_digits (HexadecimalString.NilEmpty.string_of_uint d) NaN =
    parse_digits (HexadecimalString.NilEmpty.string_of_uint d) (Int 0).
Proof. destruct d; done. Qed.

Lemma parse_toString16 n :
  0 <= n -> parse_digits (toString16 n) NaN = Int n.
Proof.
  intros Hn. unfold toString16.
  set (d := N.to_hex_uint (Z.to_N n)).
  assert (Hd : N.of_hex_uint d = Z.to_N n) by apply HexadecimalN.Unsigned.of_to.
  assert (Hnil : d <> Hexadecimal.Nil).
  { unfold d, N.to_hex_uint. destruct (Z.to_N n) as [|p]; [done|].
    intros H. pose proof (HexadecimalPos.Unsigned.of_to p) as Hp.
    rewrite H in Hp. done. }
  replace (HexadecimalString.NilZero.string_of_uint d)
    with (HexadecimalString.NilEmpty.string_of_uint d) by (by destruct d).
  rewrite parse_digits_start, parse_digits_hex, Hd by done.
  f_equal. lia.
Qed.

(** X16. Chain ids survive the trip through the wallet. The hexadecimal
    string [switchNetwork] builds for a chain id, [0x] followed by
    [toString(16)], is read back by [parseInt(_, 16)], as [getChainId] and
    the [chainChanged] listener do, as the same chain id. *)
Theorem chain_id_hex_round_trip :
  forall chainId,
    0 <= chainId < 2 ^ 53 ->
    parseInt16 (chainIdHex chainId) = Int chainId /\
    getChainId (Some (Some (chainIdHex chainId))) = Some (Int chainId).
Proof.
  intros n [Hn _].
  assert (H : parseInt16 (chainIdHex n) = Int n).
  { unfold parseInt16, chainIdHex.
    rewrite !JsonFacts.app_cons, JsonFacts.app_nil. simpl.
    by apply parse_toString16. }
  split; [exact H|]. simpl. by rewrite H.
Qed.

Lemma chain_id_hex_round_trip_witness :
  chainIdHex 43113 = "0xa869" /\ parseInt16 "0xa869" = Int 43113.
Proof.
  split; [reflexivity|].
  apply (proj1 (chain_id_hex_round_trip 43113 ltac:(lia))).
Defined.


(** *** The network tables *)

Lemma obj_set_elem {A} key (value : A) obj k x :
  (k, x) ∈ obj_set key value obj -> (k = key /\ x = value) \/ (k, x) ∈ obj.
Proof.
  induction obj as [|[k0 v0] rest IH]; simpl.
  - intros H%list_elem_of_singleton. injection H as -> ->. by left.
  - destruct (String.eqb_spec k0 key) as [->|Hne].
    + intros [[= -> ->]|H]%elem_of_cons; [by left|].
      right. by apply elem_of_cons; right.
    + intros [[= -> ->]|H]%elem_of_cons; [right; by apply elem_of_cons; left|].
      destruct (IH H) as [?|?]; [by left|right; by apply elem_of_cons; right].
Qed.

Lemma obj_set_keys {A} key (value : A) obj k :
  k ∈ (obj_set key value obj).*1 -> k = key \/ k ∈ obj.*1.
Proof.
  intros ([k' x] & -> & H)%list_elem_of_fmap. simpl.
  destruct (obj_set_elem _ _ _ _ _ H) as [[-> _]|H']; [by left|].
  right. apply list_elem_of_fmap. by exists (k', x).
Qed.

Lemma obj_set_NoDup {A} key (value : A) obj :
  NoDup obj.*1 -> NoDup (obj_set key value obj).*1.
Proof.
  induction obj as [|[k0 v0] rest IH]; simpl; intros Hnd.
  - apply NoDup_singleton.
  - apply NoDup_cons in Hnd as [Hnotin Hnd].
    destruct (String.eqb_spec k0 key) as [->|Hne]; simpl.
    + by apply NoDup_cons.
    + apply NoDup_cons. split; [|by apply IH].
      intros [->|H]%obj_set_keys; done.
Qed.

Lemma obj_get_elem {A} obj k (x : A) :
  NoDup obj.*1 -> (k, x) ∈ obj -> obj_get k obj = Some x.
Proof.
  induction obj as [|[k0 v0] rest IH]; simpl; intros Hnd Hin.
  - by apply elem_of_nil in Hin.
  - apply NoDup_cons in Hnd as [Hnotin Hnd].
    apply elem_of_cons in Hin as [[= -> ->]|Hin].
    + by rewrite String.eqb_refl.
    + destruct (String.eqb_spec k0 k) as [->|Hne]; [|by apply IH].
      exfalso. apply Hnotin, list_elem_of_fmap. by exists (k, x).
Qed.

Lemma obj_set_fresh {A} key (value : A) obj :
  key ∉ obj.*1 -> obj_set key value obj = obj ++ [(key, value)].
Proof.
  induction obj as [|[k0 v0] rest IH]; simpl; intros Hnotin; [done|].
  apply not_elem_of_cons in Hnotin as [Hne Hnotin].
  destruct (String.eqb_spec k0 key) as [->|_]; [done|].
  by rewrite IH.
Qed.

(** What holds of the table [networks] while it is filled. *)
Lemma networks_fold d : forall acc,
  NoDup acc.*1 ->
  (forall k x, (k, x) ∈ acc ->
     n_name x = k /\ exists c dep, x = network_of c dep) ->
  let obj := fold_left (fun networks entry =>
                          obj_set (d_network (snd entry))
                                  (network_of (fst entry) (snd entry)) networks) d acc in
  NoDup obj.*1 /\
  (forall k x, (k, x) ∈ obj ->
     n_name x = k /\
     ((k, x) ∈ acc \/ exists c dep, (c, dep) ∈ d /\ x = network_of c dep)).
Proof.
  induction d as [|[c dep] d IH]; intros acc Hnd Hacc; simpl.
  - split; [done|]. intros k x Hin. split; [by apply Hacc|by left].
  - destruct (IH (obj_set (d_network dep) (network_of c dep) acc)) as [Hnd' Hall].
    + by apply obj_set_NoDup.
    + intros k x [[-> ->]|Hin]%obj_set_elem; [split; [done|eauto]|by apply Hacc].
    + split; [done|]. intros k x Hin.
      destruct (Hall k x Hin) as [Hname [Hold|(c' & dep' & Hd & ->)]].
      * split; [done|]. apply obj_set_elem in Hold as [[-> ->]|Hold]; [|by left].
        right. exists c, dep. split; [by apply elem_of_cons; left|done].
      * split; [done|]. right. exists c', dep'.
        split; [by apply elem_of_cons; right|done].
Qed.

Lemma networks_spec d :
  NoDup (networks d).*1 /\
  (forall k x, (k, x) ∈ networks d ->
     n_name x = k /\ exists c dep, (c, dep) ∈ d /\ x = network_of c dep).
Proof.
  destruct (networks_fold d []) as [Hnd Hall].
  - apply NoDup_nil_2.
  - intros k x Hin. by apply elem_of_nil in Hin.
  - split; [exact Hnd|]. intros k x Hin.
    destruct (Hall k x Hin) as [Hname [Hnil|H]]; [by apply elem_of_nil in Hnil|done].
Qed.

Lemma byId_fold l : forall (table : gmap Z (NetworkConfig * string)) c n key,
  fold_left (fun table entry => <[n_chainId (snd entry) := (snd entry, fst entry)]> table)
            l table !! c = Some (n, key) ->
  ((key, n) ∈ l /\ n_chainId n = c) \/ table !! c = Some (n, key).
Proof.
  induction l as [|[k x] l IH]; intros table c n key; simpl; [by right|].
  intros [[Hin Hc]|H]%IH.
  - left. split; [by apply elem_of_cons; right|done].
  - destruct (decide (n_chainId x = c)) as [<-|Hne].
    + rewrite lookup_insert_eq in H. injection H as -> ->.
      left. split; [by apply elem_of_cons; left|done].
    + rewrite lookup_insert_ne in H by done. by right.
Qed.

(** X17. The two network tables agree. Whatever the deployment file
    holds, a network that [getNetworkByChainId] returns for a chain id has
    that chain id, is the entry the table [networks] holds under the key
    returned with it, which is its name, and was built from the
    deployment entry of that chain id. *)
Theorem network_lookup_is_sound :
  forall deploymentsJson chainId n key,
    getNetworkByChainId deploymentsJson (Some chainId) = Some (n, key) ->
    chainId ≠ 0 /\
    n_chainId n = chainId /\
    key = n_name n /\
    obj_get key (networks deploymentsJson) = Some n /\
    exists deployment,
      (chainId, deployment) ∈ deploymentsJson /\ n = network_of chainId deployment.
Proof.
  intros d c n key. unfold getNetworkByChainId.
  destruct (c =? 0) eqn:E0; [done|]. apply Z.eqb_neq in E0.
  unfold networksByChainId. intros [[Hin Hc]|H]%byId_fold; [|done].
  destruct (networks_spec d) as [Hnd Hall].
  destruct (Hall key n Hin) as (Hname & c' & dep & Hd & ->).
  simpl in Hc. subst c'.
  split; [done|]. split; [done|]. split; [done|].
  split; [by apply obj_get_elem|]. by exists dep.
Qed.

Lemma network_lookup_is_sound_witness :
  getNetworkByChainId sample_deployments (Some 84532) =
    Some (mkNetwork "base-testnet" 84532 EmptyString EmptyString, "base-testnet") /\
  obj_get "base-testnet" (networks sample_deployments) =
    Some (mkNetwork "base-testnet" 84532 EmptyString EmptyString).
Proof.
  assert (H : getNetworkByChainId sample_deployments (Some 84532) =
              Some (mkNetwork "base-testnet" 84532 EmptyString EmptyString,
                    "base-testnet"))
    by (vm_compute; reflexivity).
  split; [exact H|].
  exact (proj1 (proj2 (proj2 (proj2 (network_lookup_is_sound _ _ _ _ H))))).
Defined.

Lemma networks_distinct d : forall acc,
  NoDup (acc.*1 ++ (d_network <$> d.*2)) ->
  fold_left (fun networks entry =>
               obj_set (d_network (snd entry)) (network_of (fst entry) (snd entry)) networks)
            d acc =
    acc ++ ((fun entry => (d_network (snd entry), network_of (fst entry) (snd entry))) <$> d).
Proof.
  induction d as [|[c dep] d IH]; intros acc Hnd; simpl.
  - by rewrite app_nil_r.
  - simpl in Hnd. apply NoDup_app in Hnd as (Hacc & Hdisj & Hd).
    apply NoDup_cons in Hd as [Hfresh Hd].
    rewrite obj_set_fresh.
    + rewrite IH; [by rewrite <- app_assoc|].
      rewrite fmap_app. simpl. rewrite <- app_assoc. simpl.
      apply NoDup_app. split; [done|]. split; [|by apply NoDup_cons].
      intros k Hk. by apply Hdisj.
    + intros Hin. apply (Hdisj _ Hin). by apply elem_of_cons; left.
Qed.

Lemma byId_skip l : forall (table : gmap Z (NetworkConfig * string)) c,
  c ∉ (n_chainId <$> l.*2) ->
  fold_left (fun table entry => <[n_chainId (snd entry) := (snd entry, fst entry)]> table)
            l table !! c = table !! c.
Proof.
  induction l as [|[k x] l IH]; intros table c Hc; simpl; [done|].
  simpl in Hc. apply not_elem_of_cons in Hc as [Hne Hc].
  rewrite IH by done. by rewrite lookup_insert_ne.
Qed.

Lemma byId_found l : forall (table : gmap Z (NetworkConfig * string)) key n,
  NoDup (n_chainId <$> l.*2) -> (key, n) ∈ l ->
  fold_left (fun table entry => <[n_chainId (snd entry) := (snd entry, fst entry)]> table)
            l table !! n_chainId n = Some (n, key).
Proof.
  induction l as [|[k x] l IH]; intros table key n Hnd Hin; simpl.
  - by apply elem_of_nil in Hin.
  - simpl in Hnd. apply NoDup_cons in Hnd as [Hfresh Hnd].
    apply elem_of_cons in Hin as [[= -> ->]|Hin].
    + rewrite byId_skip by done. by rewrite lookup_insert_eq.
    + by apply IH.
Qed.

(** X18. Every deployed network is found, as long as no two deployments
    share a network name. When the names and the chain ids of the
    deployment file are pairwise distinct, [getNetworkByChainId] returns,
    for the chain id of every entry, the network built from that entry.
    When two entries carry the same name the later one takes the place of
    the earlier one in [networks], and the chain of the earlier one is
    not found at all. *)
Theorem every_deployment_is_found :
  (forall deploymentsJson chainId deployment,
      NoDup (d_network <$> deploymentsJson.*2) ->
      NoDup deploymentsJson.*1 ->
      (chainId, deployment) ∈ deploymentsJson ->
      chainId ≠ 0 ->
      getNetworkByChainId deploymentsJson (Some chainId) =
        Some (network_of chainId deployment, d_network deployment)) /\
  (forall c1 c2 d1 d2,
      d_network d1 = d_network d2 -> c1 ≠ c2 ->
      getNetworkByChainId [(c1, d1); (c2, d2)] (Some c1) = None).
Proof.
  split.
  - intros d c dep Hnames Hids Hin Hc.
    unfold getNetworkByChainId. apply Z.eqb_neq in Hc. rewrite Hc.
    unfold networksByChainId, networks.
    rewrite (networks_distinct d []) by done. simpl.
    change c with (n_chainId (network_of c dep)) at 1.
    apply byId_found.
    + rewrite <- !list_fmap_compose.
      erewrite list_fmap_ext; [exact Hids|]. by intros ? [? ?].
    + apply list_elem_of_fmap. by exists (c, dep).
  - intros c1 c2 d1 d2 Hname Hne. unfold getNetworkByChainId.
    destruct (c1 =? 0); [done|].
    unfold networksByChainId, networks. simpl.
    rewrite Hname, String.eqb_refl. simpl.
    rewrite lookup_insert_ne by done. done.
Qed.

Lemma every_deployment_is_found_witness :
  getNetworkByChainId sample_deployments (Some 43113) =
    Some (mkNetwork "avalanche-testnet" 43113 "https://rpc.example/fuji" EmptyString,
          "avalanche-testnet").
Proof.
  apply (proj1 every_deployment_is_found sample_deployments 43113
           (mkDeployment "avalanche-testnet" (Some "https://rpc.example/fuji") None)).
  - apply (bool_decide_unpack _). vm_compute. exact I.
  - apply (bool_decide_unpack _). vm_compute. exact I.
  - apply elem_of_cons. by left.
  - discriminate.
Defined.

End BlockchainFacts.

Module LookupFacts.
Import MyNFT NftCache CacheSamples NftList.

(** The decimal form tells non-negative integers apart. *)
Lemma toString_inj a b : 0 <= a -> 0 <= b -> toString a = toString b -> a = b.
Proof.
  intros Ha Hb H. unfold toString in H.
  assert (Hnil : forall n, N.to_uint n <> Decimal.Nil).
  { intros n Hn. pose proof (DecimalN.Unsigned.of_to n) as Hof.
    destruct n as [|p]; [done|].
    unfold N.to_uint in Hn. pose proof (DecimalPos.Unsigned.of_to p) as Hp.
    rewrite Hn in Hp. done. }
  apply (f_equal NilZero.uint_of_string) in H.
  rewrite !NilZero.usu in H by apply Hnil.
  injection H as H. apply (f_equal N.of_uint) in H.
  rewrite !DecimalN.Unsigned.of_to in H. lia.
Qed.

Lemma find_readable w chain ids id md :
  Forall (fun i => 0 <= i) ids -> 0 <= id ->
  id ∈ ids -> getTokenMetadata w chain id = Some md ->
  find (fun nft => String.eqb (item_id nft) (toString id)) (readable_items w chain ids) =
    Some (format_item id md).
Proof.
  intros Hpos Hid Hin Hmd. unfold readable_items.
  induction Hpos as [|i rest Hi Hrest IH]; [by apply elem_of_nil in Hin|].
  cbn [omap list_omap].
  destruct (decide (i = id)) as [->|Hne].
  - rewrite Hmd. simpl. by rewrite String.eqb_refl.
  - apply elem_of_cons in Hin as [->|Hin]; [done|].
    destruct (getTokenMetadata w chain i) as [mdi|]; simpl; [|by apply IH].
    destruct (String.eqb_spec (toString i) (toString id)) as [Heq|_]; [|by apply IH].
    by apply toString_inj in Heq.
Qed.

(** X19. A token the cache holds is found by its decimal id. After a
    fetch that went through, [getNFTById] with the decimal form of a
    listed id whose metadata call returned gives the entry built from that
    id and that metadata, not the entry of another token, and
    [getNFTCountForChain] gives the number of entries stored. *)
Theorem cached_token_is_found_by_id :
  forall w address targetChainId currentChainId lastFetchTime_arg now u ids id md,
    starts w address targetChainId currentChainId lastFetchTime_arg now = true ->
    has_provider w targetChainId u = true ->
    getTokensByOwner w targetChainId address = Some ids ->
    Forall (fun i => 0 <= i) ids ->
    id ∈ ids ->
    getTokenMetadata w targetChainId id = Some md ->
    let u' := fetchNFTsForChain w address targetChainId currentChainId
                                lastFetchTime_arg now u in
    getNFTById (Some (nfts u')) targetChainId (toString id) = Some (format_item id md) /\
    getNFTCountForChain (Some (nfts u')) targetChainId =
      Z.of_nat (length (readable_items w targetChainId ids)).
Proof.
  intros w address target cur lft now u ids id md Hs Hp Hids Hpos Hin Hmd u'.
  assert (Hn : nfts u' !! target = Some (readable_items w target ids)).
  { unfold u'. rewrite NftListFacts.fetch_started by done.
    destruct (NftListFacts.fetch_body_success w address target now
                (setIsLoadingNFTs target true u) ids Hp Hids)
      as (stored & rest & -> & Hn & _).
    simpl. by rewrite Hn, lookup_insert_eq. }
  assert (Ht : truthy_number target = true).
  { unfold starts in Hs. do 4 (apply andb_true_iff in Hs as [Hs _]).
    apply andb_true_iff in Hs as [_ Hs]. done. }
  assert (Hstr : truthy_string (toString id) = true).
  { unfold toString. destruct (N.to_uint (Z.to_N id)); done. }
  unfold getNFTById, getNFTCountForChain. rewrite Ht, Hstr, Hn. simpl.
  split; [|done]. apply find_readable; try done.
  rewrite Forall_forall in Hpos. by apply Hpos.
Qed.

Lemma cached_token_is_found_by_id_witness :
  getNFTById (Some (nfts fetched_once)) 43113 "431130000" =
    Some (format_item 431130000 (mint_metadata 431130000 43113 1700000000)).
Proof.
  assert (Hs : starts sample_world "0xabc" 43113 (Some 84532) ∅ 50000 = true)
    by (vm_compute; reflexivity).
  assert (Hp : has_provider sample_world 43113 empty_ui = true)
    by (vm_compute; reflexivity).
  assert (Hpos : Forall (fun i => 0 <= i) [431130000]) by (repeat constructor; lia).
  assert (Hin : (431130000 : Z) ∈ [431130000]) by (apply elem_of_cons; by left).
  exact (proj1 (cached_token_is_found_by_id sample_world "0xabc" 43113 (Some 84532) ∅
                  50000 empty_ui [431130000] 431130000
                  (mint_metadata 431130000 43113 1700000000)
                  Hs Hp eq_refl Hpos Hin eq_refl)).
Defined.

End LookupFacts.

Module BridgeFormFacts.
Import Blockchain BridgeForm.

Lemma run_form_snoc evs e f : run_form (evs ++ [e]) f = handle e (run_form evs f).
Proof. unfold run_form. by rewrite fold_left_app. Qed.

Lemma truthy_string_true s : truthy_string s = true <-> s ≠ EmptyString.
Proof. destruct s; simpl; split; done. Qed.

(** What holds of a modal opened for a token of chain [src] at every
    moment. *)
Lemma handle_invariant src id e f :
  (forall hash, e = BridgeReturns hash -> hash ≠ EmptyString) ->
  (exists source, sourceNetwork f = Some source /\ chainId_of source = src) /\
  nftId f = id /\
  (forall n, selectedDestNetwork f = Some n -> chainId_of n ≠ src) /\
  (forall n, destNetwork f = Some n -> chainId_of n ≠ src) /\
  (forall n, n ∈ availableNetworks f -> chainId_of n ≠ src) /\
  (forall n sent, running f = Some (n, sent) ->
     chainId_of n ≠ src /\ bridgeInProgress f = true /\
     (sent = false -> bridge_calls f = [])) /\
  (bridge_calls f ≠ [] -> localTxHash f ≠ EmptyString) /\
  (length (bridge_calls f) <= 1)%nat /\
  (forall c i, (c, i) ∈ bridge_calls f -> c ≠ src /\ i = id) ->
  (exists source, sourceNetwork (handle e f) = Some source /\ chainId_of source = src) /\
  nftId (handle e f) = id /\
  (forall n, selectedDestNetwork (handle e f) = Some n -> chainId_of n ≠ src) /\
  (forall n, destNetwork (handle e f) = Some n -> chainId_of n ≠ src) /\
  (forall n, n ∈ availableNetworks (handle e f) -> chainId_of n ≠ src) /\
  (forall n sent, running (handle e f) = Some (n, sent) ->
     chainId_of n ≠ src /\ bridgeInProgress (handle e f) = true /\
     (sent = false -> bridge_calls (handle e f) = [])) /\
  (bridge_calls (handle e f) ≠ [] -> localTxHash (handle e f) ≠ EmptyString) /\
  (length (bridge_calls (handle e f)) <= 1)%nat /\
  (forall c i, (c, i) ∈ bridge_calls (handle e f) -> c ≠ src /\ i = id).
Proof.
  intros Hhash ((source & Hsrc & Hchain) & Hid & Hsel & Hdest & Havail & Hrun & Htx & Hlen & Hcalls).
  assert (Hsame : (exists source', sourceNetwork f = Some source' /\
                                   chainId_of source' = src) /\
                  nftId f = id /\
                  (forall n, selectedDestNetwork f = Some n -> chainId_of n ≠ src) /\
                  (forall n, destNetwork f = Some n -> chainId_of n ≠ src) /\
                  (forall n, n ∈ availableNetworks f -> chainId_of n ≠ src) /\
                  (forall n sent, running f = Some (n, sent) ->
                     chainId_of n ≠ src /\ bridgeInProgress f = true /\
                     (sent = false -> bridge_calls f = [])) /\
                  (bridge_calls f ≠ [] -> localTxHash f ≠ EmptyString) /\
                  (length (bridge_calls f) <= 1)%nat /\
                  (forall c i, (c, i) ∈ bridge_calls f -> c ≠ src /\ i = id)).
  { split; [eauto|]. repeat (split; [done|]). done. }
  destruct e as [|key|k| |hash|now|message]; simpl.
  - (* LoadNetworks *)
    unfold load_networks. rewrite Hsrc.
    destruct (isOpen f && negb (truthy_string (localTxHash f))); [|exact Hsame].
    simpl. split; [eauto|]. split; [done|].
    assert (Hfilter : forall n,
               n ∈ filter (fun network => chainId_of network ≠ chainId_of source)
                          (all_networks f) -> chainId_of n ≠ src).
    { intros n [Hn _]%list_elem_of_filter. by rewrite <- Hchain. }
    split; [|repeat (split; [done|]); done].
    intros n. destruct (destNetwork f) as [dest|] eqn:Ed.
    + intros [= <-]. by apply Hdest.
    + destruct (filter _ (all_networks f)) as [|first rest] eqn:Ef; [by apply Hsel|].
      intros [= <-]. apply Hfilter. by apply elem_of_cons; left.
  - (* DestNetworkChange *)
    destruct (setup_shown f); [|done].
    simpl. split; [eauto|]. split; [done|]. split; [|repeat (split; [done|]); done].
    intros n Hfind. apply find_some in Hfind as [Hin _].
    by apply Havail, list_elem_of_In.
  - (* NetworkCardSelect *)
    destruct (setup_shown f); [|done].
    destruct (availableNetworks f !! k) as [network|] eqn:Ek; [|done].
    simpl. split; [eauto|]. split; [done|]. split; [|repeat (split; [done|]); done].
    intros n [= <-]. by eapply Havail, list_elem_of_lookup_2.
  - (* ClickBridge *)
    destruct (setup_shown f && _ && negb (bridgeInProgress f)) eqn:Eclick; [|done].
    apply andb_true_iff in Eclick as [Eclick Hidle].
    apply andb_true_iff in Eclick as [Hshown _].
    apply negb_true_iff in Hidle.
    unfold setup_shown in Hshown. apply andb_true_iff in Hshown as [_ Hnotx].
    apply negb_true_iff in Hnotx.
    assert (Hnone : bridge_calls f = []).
    { destruct (bridge_calls f) eqn:Ec; [done|].
      exfalso. assert (Hne : localTxHash f ≠ EmptyString) by (apply Htx; done).
      apply truthy_string_true in Hne. congruence. }
    unfold handleBridge. rewrite Hsrc.
    destruct (selectedDestNetwork f) as [selected|] eqn:Es; [|rewrite Es; exact Hsame].
    rewrite Hidle.
    destruct (negb (truthy_string (nftId f))); simpl; [rewrite Es; exact Hsame|].
    split; [eauto|]. split; [done|]. split; [done|].
    split; [intros n [= <-]; by apply Hsel|]. split; [done|].
    split; [|repeat (split; [done|]); done].
    intros n sent. destruct (has_ethereum f); [|done].
    intros [= <- <-]. split; [by apply Hsel|]. done.
  - (* BridgeReturns *)
    destruct (running f) as [[selected sent]|] eqn:Er; [|rewrite Er; exact Hsame].
    destruct sent; [rewrite Er; exact Hsame|].
    destruct (Hrun selected false eq_refl) as (Hne & Hprog & Hempty).
    simpl. rewrite (Hempty eq_refl). simpl.
    split; [eauto|]. split; [done|]. split; [done|]. split; [done|]. split; [done|].
    split; [intros n s [= <- <-]; by split|].
    split; [intros _; by apply Hhash|]. split; [lia|].
    intros c i [[= -> ->]|Hin]%elem_of_cons; [done|by apply elem_of_nil in Hin].
  - (* ReceiptReturns *)
    destruct (running f) as [[selected sent]|] eqn:Er; [|rewrite Er; exact Hsame].
    destruct sent; [|rewrite Er; exact Hsame].
    simpl. split; [eauto|]. repeat (split; [done|]). done.
  - (* Throws *)
    destruct (running f) as [[selected sent]|] eqn:Er; [|rewrite Er; exact Hsame].
    simpl. split; [eauto|]. repeat (split; [done|]). done.
Qed.

(** X20. The modal sends at most one bridge transaction, and never to the
    chain the token is on. From the moment [handleNFTBridgeClick] opens
    the modal, whatever the user clicks or selects and however the calls
    of the wallet end, [contract.bridge] returns a transaction at most
    once, for the token the modal was opened for and a destination whose
    chain id differs from the chain id of the source network. *)
Theorem modal_sends_one_bridge_at_most :
  forall all source id wallet evs,
    hashes_given evs ->
    let f := run_form evs (opened all (Some source) id wallet) in
    (length (bridge_calls f) <= 1)%nat /\
    (forall c i, (c, i) ∈ bridge_calls f -> c ≠ chainId_of source /\ i = id).
Proof.
  intros all source id wallet evs Hhash f.
  assert (Hinv :
    (exists source', sourceNetwork f = Some source' /\
                     chainId_of source' = chainId_of source) /\
    nftId f = id /\
    (forall n, selectedDestNetwork f = Some n -> chainId_of n ≠ chainId_of source) /\
    (forall n, destNetwork f = Some n -> chainId_of n ≠ chainId_of source) /\
    (forall n, n ∈ availableNetworks f -> chainId_of n ≠ chainId_of source) /\
    (forall n sent, running f = Some (n, sent) ->
       chainId_of n ≠ chainId_of source /\ bridgeInProgress f = true /\
       (sent = false -> bridge_calls f = [])) /\
    (bridge_calls f ≠ [] -> localTxHash f ≠ EmptyString) /\
    (length (bridge_calls f) <= 1)%nat /\
    (forall c i, (c, i) ∈ bridge_calls f -> c ≠ chainId_of source /\ i = id)).
  { subst f. induction evs as [|e evs IH] using rev_ind.
    - simpl. split; [eauto|]. split; [done|]. split; [done|]. split; [done|].
      split; [by intros n Hn%elem_of_nil|]. split; [done|]. split; [done|].
      split; [lia|]. by intros c i Hin%elem_of_nil.
    - rewrite run_form_snoc. apply handle_invariant.
      + intros hash ->. apply Hhash, in_or_app. right. by left.
      + apply IH. intros hash Hin. apply Hhash, in_or_app. by left. }
  destruct Hinv as (_ & _ & _ & _ & _ & _ & _ & Hlen & Hcalls). done.
Qed.

Lemma modal_sends_one_bridge_at_most_witness :
  bridge_calls (run_form sample_clicks sample_form) = [(84532, "431130000")] /\
  (length (bridge_calls (run_form sample_clicks sample_form)) <= 1)%nat.
Proof.
  split; [vm_compute; reflexivity|].
  assert (Hh : hashes_given sample_clicks).
  { intros hash Hin. simpl in Hin.
    repeat (destruct Hin as [Hin|Hin]; [try discriminate|]); [|done].
    injection Hin as <-. discriminate. }
  exact (proj1 (modal_sends_one_bridge_at_most sample_networks
                  ("avalanche-testnet",
                   mkNetwork "avalanche-testnet" 43113 "https://rpc.example/fuji"
                             EmptyString)
                  "431130000" true sample_clicks Hh)).
Defined.

End BridgeFormFacts.

Module ConfirmedFacts.
Import BridgeModal BridgeModalFacts.

Lemma run_modal_app evs1 evs2 m :
  run_modal (evs1 ++ evs2) m = run_modal evs2 (run_modal evs1 m).
Proof. unfold run_modal. by rewrite fold_left_app. Qed.

(** Only the reply that finds the token owned confirms the destination,
    and it clears the interval. *)
Lemma handle_confirmed e m :
  (destConfirmed m = true ->
   interval m = None /\ status m = success /\ nftReceived m = true) ->
  destConfirmed (handle e m) = true ->
  interval (handle e m) = None /\ status (handle e m) = success /\
  nftReceived (handle e m) = true.
Proof.
  intros Hm. destruct e as [now|isOwned]; simpl.
  - destruct (interval m) as [captured|] eqn:Ei; [|rewrite Ei; exact Hm].
    destruct (has_onCheckNFTOwnership m); [|rewrite Ei; exact Hm].
    destruct (too_early captured now); [rewrite Ei; exact Hm|].
    simpl. intros H. destruct (Hm H) as (? & ? & ?). done.
  - destruct (awaiting m); [done|]. destruct isOwned; done.
Qed.

Lemma run_confirmed evs m :
  (destConfirmed m = true ->
   interval m = None /\ status m = success /\ nftReceived m = true) ->
  destConfirmed (run_modal evs m) = true ->
  interval (run_modal evs m) = None /\ status (run_modal evs m) = success /\
  nftReceived (run_modal evs m) = true.
Proof.
  induction evs as [|e evs IH] using rev_ind; intros Hm; [done|].
  rewrite run_modal_snoc. by apply handle_confirmed, IH.
Qed.

(** A confirmed modal whose interval is cleared stays as it is. *)
Lemma handle_quiet e m :
  interval m = None -> destConfirmed m = true -> status m = success ->
  interval (handle e m) = None /\ destConfirmed (handle e m) = true /\
  status (handle e m) = success /\
  ownership_calls (handle e m) = ownership_calls m.
Proof.
  intros Hi Hd Hs. destruct e as [now|isOwned]; simpl.
  - by rewrite Hi.
  - destruct (awaiting m); [done|]. destruct isOwned; done.
Qed.

Lemma run_quiet evs m :
  interval m = None -> destConfirmed m = true -> status m = success ->
  interval (run_modal evs m) = None /\ destConfirmed (run_modal evs m) = true /\
  status (run_modal evs m) = success /\
  ownership_calls (run_modal evs m) = ownership_calls m.
Proof.
  induction evs as [|e evs IH] using rev_ind; intros Hi Hd Hs; [done|].
  rewrite run_modal_snoc. destruct (IH Hi Hd Hs) as (Hi' & Hd' & Hs' & Hc').
  destruct (handle_quiet e _ Hi' Hd' Hs') as (? & ? & ? & Hc). by rewrite Hc.
Qed.

(** X21. The browser-side watch stops once the token has arrived. When the
    destination of a modal that started unconfirmed becomes confirmed, the
    status is [success], the token counts as received and the polling
    interval is cleared; from then on no tick asks for the owner again, and
    no later reply takes the confirmation back. *)
Theorem confirmed_modal_stops_polling :
  forall m evs1 evs2,
    destConfirmed m = false ->
    let m1 := run_modal evs1 m in
    let m2 := run_modal (evs1 ++ evs2) m in
    destConfirmed m1 = true ->
    status m1 = success /\ nftReceived m1 = true /\ interval m1 = None /\
    destConfirmed m2 = true /\ status m2 = success /\
    ownership_calls m2 = ownership_calls m1.
Proof.
  intros m evs1 evs2 Hm m1 m2 H1.
  destruct (run_confirmed evs1 m) as (Hi & Hs & Hr); [by rewrite Hm|done|].
  fold m1 in Hi, Hs, Hr.
  unfold m2. rewrite run_modal_app. fold m1.
  destruct (run_quiet evs2 m1 Hi H1 Hs) as (_ & Hd2 & Hs2 & Hc2).
  done.
Qed.

Lemma confirmed_modal_stops_polling_witness :
  ownership_calls
    (run_modal ([Tick 1010000; OwnershipReturns true] ++ [Tick 1015000; Tick 1020000])
               (start_polling sample_modal)) = [1010000].
Proof.
  destruct (confirmed_modal_stops_polling (start_polling sample_modal)
              [Tick 1010000; OwnershipReturns true] [Tick 1015000; Tick 1020000])
    as (_ & _ & _ & _ & _ & Hc).
  - reflexivity.
  - reflexivity.
  - etrans; [exact Hc|]. reflexivity.
Defined.

End ConfirmedFacts.

Module ProvenanceFacts.
Import MyNFT Ledger LedgerFacts History HistoryFacts MintFacts BridgeFacts RoundTrip.
Import Network NetworkFacts Provenance.

Lemma all_genuine_insert L F F' c s' :
  all_genuine (mkSystem L F) ->
  (forall id, _exists s' id = true -> genuine id (metadata_of s' id)) ->
  (forall p, p ∈ F' -> genuine (p_nftId (pk_data p)) (p_metadata (pk_data p))) ->
  all_genuine (mkSystem (<[c := s']> L) F').
Proof.
  intros [HL HF] Hs' HF'. split; [|exact HF'].
  intros c0 s0 id. simpl. destruct (decide (c = c0)) as [->|Hne].
  - rewrite lookup_insert_eq. intros [= <-]. apply Hs'.
  - rewrite lookup_insert_ne by done. apply HL.
Qed.

(** What an invocation does to the records, on a ledger of chain [c] that
    stays within its id range. *)
Lemma call_effect_genuine c s cl s' :
  call_effect s cl s' ->
  block_chainid s = c -> c * 10 ^ 4 <= nextNftId s ->
  nextNftId s' <= (c + 1) * 10 ^ 4 ->
  (forall src data, cl ≠ Receive src data) ->
  (forall id, _exists s id = true -> genuine id (metadata_of s id)) ->
  (forall id, _exists s' id = true -> genuine id (metadata_of s' id)) /\
  (forall p, p ∈ new_packets s s' ->
             genuine (p_nftId (pk_data p)) (p_metadata (pk_data p))).
Proof.
  intros Heff Hchain Hlow Hhigh Hcl Hs.
  destruct Heff as [cl|a t Ha Hfree|a d r i Hex|src data Hr Hfree|a ch e].
  - split; [done|]. rewrite new_packets_same. by intros p ?%elem_of_nil.
  - split; [|rewrite new_packets_mint; by intros p ?%elem_of_nil].
    simpl in Hhigh.
    intros id Hid. apply exists_mint_post in Hid; [|done]. destruct Hid as [->|Hex].
    + rewrite metadata_mint_post. exists t. rewrite Hchain. f_equal.
      apply Z.div_unique with (r := nextNftId s - c * 10 ^ 4); [left|]; lia.
    + assert (id ≠ nextNftId s) by congruence.
      unfold metadata_of, mint_post, minted. simpl.
      rewrite lookup_insert_ne by done. by apply Hs.
  - split.
    + intros id [Hne Hid]%exists_bridge_post. by apply Hs.
    + rewrite new_packets_bridge. intros p ->%list_elem_of_singleton. simpl.
      by apply Hs.
  - by destruct (Hcl src data).
  - split; [done|]. rewrite new_packets_configure. by intros p ?%elem_of_nil.
Qed.

Lemma step_genuine st sys :
  consistent sys -> within_namespace (step st sys) ->
  all_genuine sys -> all_genuine (step st sys).
Proof.
  intros Hcons Hns Hall. destruct sys as [L F]. pose proof Hall as [HL HF].
  destruct st as [c d|c cl|k retry].
  - simpl. destruct (L !! c) eqn:Hc; [done|].
    destruct (constructor c d) as [[] s0|] eqn:Hk; [|done].
    apply constructor_Ok in Hk. subst s0.
    apply (all_genuine_insert L F); [done| |done].
    intros id. unfold _exists, _ownerOf. simpl. by rewrite lookup_empty.
  - destruct (L !! c) as [s|] eqn:Hc.
    + assert (Hcl : (forall src data, cl ≠ Receive src data) \/
                    exists src data, cl = Receive src data).
      { destruct cl; eauto; left; done. }
      destruct Hcl as [Hcl|(src & data & ->)]; [|done].
      rewrite (step_invoke c _ (mkSystem L F) s) in * by done.
      destruct (cons_chain _ Hcons c s Hc) as [Hchain Hlow].
      assert (Hhigh : nextNftId (fst (call cl s)) <= (c + 1) * 10 ^ 4).
      { apply (Hns c). simpl. by rewrite lookup_insert_eq. }
      destruct (call_effect_genuine c s cl _ (call_has_effect cl s) Hchain Hlow Hhigh Hcl)
        as [Hs' Hp]; [intros id; by apply (HL c s)|].
      apply (all_genuine_insert L F); [done|done|].
      intros p [Hin|Hin]%elem_of_app; [by apply HF|by apply Hp].
    + destruct cl; simpl; rewrite ?Hc; done.
  - simpl. destruct (F !! k) as [p|] eqn:Hk; [|done].
    destruct (L !! pk_dest p) as [s|] eqn:Hd; [|done].
    assert (Hdel : forall q, q ∈ delete k F ->
                             genuine (p_nftId (pk_data q)) (p_metadata (pk_data q))).
    { intros q Hq%list_elem_of_delete_inv. by apply HF. }
    destruct (messageProcess (pk_source p) (pk_data p) s) as [[] s'|] eqn:Hm.
    + apply messageProcess_Ok in Hm as (_ & Hr & Hfree & ->).
      apply (all_genuine_insert L F); [done| |done].
      intros id Hid. apply exists_process_post in Hid; [|done].
      destruct Hid as [->|Hex].
      * rewrite metadata_process_post. apply HF.
        eapply list_elem_of_lookup_2. exact Hk.
      * assert (id ≠ p_nftId (pk_data p)) by congruence.
        unfold metadata_of, process_post, minted. simpl.
        rewrite lookup_insert_ne by done. by apply (HL (pk_dest p)).
    + destruct retry; [done|]. split; [exact HL|exact Hdel].
Qed.

Lemma reachable_genuine steps :
  within_namespace (exec steps init) -> all_genuine (exec steps init).
Proof.
  induction steps as [|st steps IH] using rev_ind; intros Hns.
  - split; simpl.
    + intros c s id. by rewrite lookup_empty.
    + by intros p ?%elem_of_nil.
  - rewrite exec_snoc in *.
    assert (Hback : within_namespace (exec steps init))
      by (by eapply within_namespace_back).
    apply step_genuine; [by apply reachable_consistent|done|by apply IH].
Qed.

(** X22. The origin of a token can be read off its id. In every state the
    ledgers reach while each stays within the id range of its chain,
    whatever was minted, bridged and delivered, the record
    [getTokenMetadata] returns for a token that has an owner is the very
    record [mint] stored for that id: its name ends in the id, and its
    origin chain is the chain in whose range the id lies, the id divided by
    [10^4]. The same holds of every record that travels in a message. *)
Theorem origin_chain_is_read_off_the_id :
  forall steps,
    within_namespace (exec steps init) ->
    (forall c s id,
        ledgers (exec steps init) !! c = Some s ->
        _exists s id = true ->
        exists t,
          getTokenMetadata id s = Ok (mint_metadata id (id / 10 ^ 4) t) s /\
          chainId (metadata_of s id) = id / 10 ^ 4 /\
          name (metadata_of s id) = "Cross Chain NFT #" +:+ toString id) /\
    (forall p,
        p ∈ inflight (exec steps init) ->
        chainId (p_metadata (pk_data p)) = p_nftId (pk_data p) / 10 ^ 4).
Proof.
  intros steps Hns. destruct (reachable_genuine steps Hns) as [HL HF]. split.
  - intros c s id Hc Hex. destruct (HL c s id Hc Hex) as [t Ht].
    exists t. rewrite TokenLifeFacts.getTokenMetadata_eq, Hex, Ht. done.
  - intros p Hp. destruct (HF p Hp) as [t ->]. done.
Qed.

Lemma origin_chain_is_read_off_the_id_witness :
  chainId (metadata_of base_with_token 431130000) = 43113 /\
  block_chainid base_with_token = 84532.
Proof.
  split; [|reflexivity].
  assert (Hns : within_namespace (exec sample_steps init))
    by (apply within_namespace_b_true; vm_compute; reflexivity).
  assert (Hc : ledgers (exec sample_steps init) !! 84532 = Some base_with_token)
    by (vm_compute; reflexivity).
  assert (Hex : _exists base_with_token 431130000 = true) by (vm_compute; reflexivity).
  destruct (proj1 (origin_chain_is_read_off_the_id sample_steps Hns) 84532
              base_with_token 431130000 Hc Hex) as (t & _ & Hchain & _).
  rewrite Hchain. reflexivity.
Defined.

End ProvenanceFacts.

Module EventLogFacts.
Import MyNFT Ledger LedgerFacts History HistoryFacts Samples MintFacts BridgeFacts.
Import RoundTrip EventLog.

Lemma omap_snoc {A B} (f : A -> option B) l x :
  omap f (l ++ [x]) = omap f l ++ match f x with Some y => [y] | None => [] end.
Proof. rewrite omap_app. simpl. by destruct (f x). Qed.

(** What one call adds to the two logs. *)
Lemma call_logs c s :
  minted_ids (fst (call c s)) =
    minted_ids s ++ (if is_mint c && snd (call c s) then [nextNftId s] else []) /\
  (log_matches_outbox s -> log_matches_outbox (fst (call c s))).
Proof.
  unfold minted_ids, log_matches_outbox.
  destruct c as [a t|a acc d r i|src data|a ch e]; simpl; unfold transact, succeeds.
  - destruct (mint a t s) as [id s'|] eqn:E; simpl; [|by rewrite app_nil_r].
    apply mint_Ok in E as (_ & _ & -> & ->). simpl.
    rewrite !omap_snoc. simpl. rewrite !app_nil_r. split; [done|by intros ->].
  - destruct (bridge a acc d r i s) as [[] s'|] eqn:E; simpl; [|by rewrite app_nil_r].
    apply bridge_Ok in E as (_ & _ & _ & _ & ->). simpl.
    rewrite !omap_snoc. simpl. rewrite !app_nil_r. split; [done|].
    intros ->. by rewrite fmap_app.
  - destruct (messageProcess src data s) as [[] s'|] eqn:E; simpl; [|by rewrite app_nil_r].
    apply messageProcess_Ok in E as (_ & _ & _ & ->). simpl.
    rewrite !omap_snoc. simpl. rewrite !app_nil_r. split; [done|by intros ->].
  - rewrite configureClient_eq. destruct (a =? MESSAGE_OWNER s); simpl;
      by rewrite app_nil_r.
Qed.

Lemma run_logs cs : forall s,
  minted_ids (run cs s) = minted_ids s ++ seqZ (nextNftId s) (mints_ok cs s) /\
  (log_matches_outbox s -> log_matches_outbox (run cs s)).
Proof.
  induction cs as [|c cs IH]; intros s; simpl.
  - by rewrite app_nil_r.
  - destruct (IH (fst (call c s))) as [Hm Hl].
    destruct (call_logs c s) as [Hm1 Hl1].
    split; [|auto].
    rewrite Hm, Hm1, call_nextNftId, <- app_assoc. f_equal.
    pose proof (mints_ok_nonneg cs (fst (call c s))) as Hk.
    destruct (is_mint c && snd (call c s)); simpl.
    + rewrite (seqZ_cons (nextNftId s)) by lia. simpl. do 2 f_equal; lia.
    + f_equal; lia.
Qed.

(** X24. The event log lists every id handed out, once and in order. On
    a ledger deployed on chain [c], after any history of calls, the ids of
    the [NFTMinted] events are [c * 10^4], [c * 10^4 + 1], ... up to the id
    before [nextNftId]: one event per successful mint, none for a token
    that arrived in a message. *)
Theorem minted_events_list_the_ids_in_order :
  forall c d s0 cs,
    constructor c d = Ok tt s0 ->
    minted_ids (run cs s0) = seqZ (c * 10 ^ 4) (mints_ok cs s0) /\
    minted_ids (run cs s0) = seqZ (c * 10 ^ 4) (nextNftId (run cs s0) - c * 10 ^ 4).
Proof.
  intros c d s0 cs H%constructor_Ok. subst s0.
  destruct (run_logs cs (mkState c ∅ ∅ (c * 10 ^ 4) ∅ ∅ d [] [])) as [Hm _].
  rewrite run_nextNftId. simpl in *.
  split; [exact Hm|]. rewrite Hm. f_equal. lia.
Qed.

Lemma minted_events_list_the_ids_in_order_witness :
  minted_ids (run sample_history (deployed 43113 1)) = [431130000; 431130001].
Proof.
  etrans; [exact (proj1 (minted_events_list_the_ids_in_order 43113 1 (deployed 43113 1)
                           sample_history eq_refl))|].
  vm_compute. reflexivity.
Defined.

(** X25. The event log and the gateway's log agree. On a deployed ledger,
    after any history of calls, the [NFTBridged] events name, in order,
    the token, the destination and the recipient of the messages handed to
    the gateway: no message without its event, no event without its
    message. *)
Theorem bridged_events_match_the_messages :
  forall c d s0 cs,
    constructor c d = Ok tt s0 ->
    omap bridged (events (run cs s0)) = sent <$> outbox (run cs s0).
Proof.
  intros c d s0 cs H%constructor_Ok. subst s0.
  apply (run_logs cs). reflexivity.
Qed.

Lemma bridged_events_match_the_messages_witness :
  omap bridged (events fuji_after_out) = [(431130000, 84532, 7)] /\
  sent <$> outbox fuji_after_out = [(431130000, 84532, 7)].
Proof.
  assert (H : omap bridged (events fuji_after_out) = [(431130000, 84532, 7)])
    by (vm_compute; reflexivity).
  split; [exact H|]. rewrite <- H. symmetry.
  exact (bridged_events_match_the_messages 43113 1 (deployed 43113 1)
           [Configure 1 84532 500; Mint 7 1700000000; Bridge 7 true 84532 7 431130000]
           eq_refl).
Defined.

End EventLogFacts.

Module DebounceFacts.
Import MyNFT NftCache CacheSamples NftList Debounce NftCacheFacts NftListFacts.








End DebounceFacts.

Module ScheduleFacts.
Import Schedule.










End ScheduleFacts.

Module PollingFacts.
Import Schedule SourceConfirm ScheduleFacts.




End PollingFacts.

Module AppFacts.
Import MyNFT NftCache NftList CacheSamples Blockchain App.

Lemma run_app_snoc w networks evs e s :
  run_app w networks (evs ++ [e]) s = handle w networks e (run_app w networks evs s).
Proof. unfold run_app. by rewrite fold_left_app. Qed.

(** A callback that sees no address, or no chain, returns at once. *)
Lemma blind_callback_returns w c networks now u :
  address c = EmptyString \/ chainId c = None ->
  periodic_refresh w c networks now u = u.
Proof.
  intros H. unfold periodic_refresh. destruct H as [H|H]; rewrite H; [|done].
  by destruct (chainId c).
Qed.

(** No handler gives the interval another callback. *)
Lemma handle_keeps_callback w networks e s :
  refresh (handle w networks e s) = refresh s.
Proof. destruct e; simpl; try done. by destruct (refresh s) eqn:E. Qed.

Lemma run_keeps_callback w networks evs s :
  refresh (run_app w networks evs s) = refresh s.
Proof.
  induction evs as [|e evs IH] using rev_ind; [done|].
  by rewrite run_app_snoc, handle_keeps_callback.
Qed.

Lemma tick_after_mount w networks evs now :
  handle w networks (RefreshTick now) (run_app w networks evs (mount initial)) =
  run_app w networks evs (mount initial).
Proof.
  pose proof (run_keeps_callback w networks evs (mount initial)) as Hc.
  destruct (run_app w networks evs (mount initial)) as [a c k u r].
  simpl in *. subst r. rewrite blind_callback_returns; [done|by left].
Qed.

(** X23. The periodic refresh never refreshes. The mount effect hands
    [setInterval] the callback of the first render, in which [address] is
    the empty string and [chainId] is [null], and nothing replaces it. So
    whatever the handlers have set and fetched since the mount, a tick of
    the 60 s interval changes nothing and makes no remote call, and a
    session ends in the state in which it would end without its ticks. *)
Theorem periodic_refresh_is_idle :
  forall w networks evs,
    let s := run_app w networks evs (mount initial) in
    (forall now, handle w networks (RefreshTick now) s = s) /\
    (forall now, rpc (s_ui (run_app w networks (evs ++ [RefreshTick now]) (mount initial))) =
                 rpc (s_ui s)) /\
    s = run_app w networks (filter (fun e => is_tick e = false) evs) (mount initial).
Proof.
  intros w networks evs s. subst s. split; [|split].
  - intros now. apply tick_after_mount.
  - intros now. by rewrite run_app_snoc, tick_after_mount.
  - induction evs as [|e evs IH] using rev_ind; [done|].
    rewrite filter_app. destruct (is_tick e) eqn:E.
    + rewrite filter_cons_False by (rewrite E; done).
      rewrite filter_nil, app_nil_r, run_app_snoc.
      destruct e; try discriminate. by rewrite tick_after_mount.
    + rewrite filter_cons_True by done. rewrite filter_nil, !run_app_snoc.
      by rewrite <- IH.
Qed.

(** In the sample session the wallet is connected when the interval fires,
    and the state holds an address and a chain; the only remote calls are
    those of the fetch the handler made. A callback of the current render
    would have fetched. *)
Example connected_session_is_not_refreshed :
  let s := run_app sample_world (networks sample_deployments) sample_session
                   (mount initial) in
  s_address s = "0xabc" /\ s_chainId s = Some 84532 /\
  rpc (s_ui s) = [RpcTokensByOwner 43113 "0xabc"; RpcTokenMetadata 43113 431130000] /\
  rpc (periodic_refresh sample_world (render s) (networks sample_deployments)
                        120000 (s_ui s)) ≠ rpc (s_ui s).
Proof. vm_compute. repeat (split; [reflexivity|]). discriminate. Qed.

End AppFacts.
